(** * automate-dns: the resolver registry and its DNS reconciliation

    A shallow embedding of the worker's validation, request helpers,
    record store statements, DNS updater and resolver controller, with the
    properties of the specification stated over it.

    Conventions of the embedding:
    - a JavaScript string is a [string]; each [ascii] stands for one code
      unit below 256;
    - a parsed JSON value is a [JsValue], with integers for its numbers; a
      JSON object is a finite map from keys to values, so [k in o] is
      [is_Some (o !! k)];
    - [undefined] is [None] wherever the source has an optional value;
    - a statement that can throw returns a sum, [inl] carrying the thrown
      value;
    - the table is a list of rows in insertion order; a statement fails
      only on a constraint of the table, never for lack of the database;
    - the external DNS provider is an abstract state reached through
      [fetch]; built-ins of the runtime that the program calls but that no
      property depends on are fields of [Platform]. *)

From Stdlib Require Import ZArith QArith Qround Lia List Bool Ascii String.
From stdpp Require Import gmap strings list.
Import ListNotations.
Local Open Scope string_scope.
Local Open Scope Z_scope.

Set Default Proof Using "Type".

(** ** JavaScript values and built-ins used by the program *)

#[warnings="-register-all"]
Inductive JsValue :=
| JsNull
| JsBool (b : bool)
| JsNumber (n : Z)
| JsString (s : string)
| JsArray (l : list JsValue)
| JsObject (o : gmap string JsValue).

Definition defined {A : Type} (o : option A) : bool :=
  match o with Some _ => true | None => false end.

(** Truthiness of a string: [!s] is [negb (truthyString s)]. *)
Definition truthyString (s : string) : bool :=
  match s with EmptyString => false | String _ _ => true end.

(** Truthiness of a JSON value (objects and arrays are always truthy). *)
Definition truthy (v : JsValue) : bool :=
  match v with
  | JsNull => false
  | JsBool b => b
  | JsNumber n => negb (n =? 0)
  | JsString s => truthyString s
  | JsArray _ => true
  | JsObject _ => true
  end.

(** White space and line terminators of [String.prototype.trim] that fit in
    one code unit below 256: TAB, LF, VT, FF, CR, SP and NBSP. *)
Definition isWhiteSpace (c : ascii) : bool :=
  match nat_of_ascii c with
  | 9%nat | 10%nat | 11%nat | 12%nat | 13%nat | 32%nat | 160%nat => true
  | _ => false
  end.

Fixpoint trimStart (s : string) : string :=
  match s with
  | EmptyString => EmptyString
  | String c s' => if isWhiteSpace c then trimStart s' else s
  end.

Fixpoint trimEnd (s : string) : string :=
  match s with
  | EmptyString => EmptyString
  | String c s' =>
      match trimEnd s' with
      | EmptyString => if isWhiteSpace c then EmptyString else String c EmptyString
      | t => String c t
      end
  end.

Definition trim (s : string) : string := trimEnd (trimStart s).

(** [String.prototype.toLowerCase] on code units below 256: the letters A
    to Z, and the capital letters U+00C0 to U+00DE (U+00D7 is the
    multiplication sign). *)
Definition toLowerChar (c : ascii) : ascii :=
  let n := nat_of_ascii c in
  if ((65 <=? n) && (n <=? 90))%nat then ascii_of_nat (n + 32)
  else if ((192 <=? n) && (n <=? 222) && negb (n =? 215))%nat then ascii_of_nat (n + 32)
  else c.

Fixpoint toLowerCase (s : string) : string :=
  match s with
  | EmptyString => EmptyString
  | String c s' => String (toLowerChar c) (toLowerCase s')
  end.

Fixpoint startsWith (p s : string) : bool :=
  match p, s with
  | EmptyString, _ => true
  | String a p', String b s' => Ascii.eqb a b && startsWith p' s'
  | String _ _, EmptyString => false
  end.

(** [String.prototype.includes]. *)
Fixpoint includes (s needle : string) : bool :=
  startsWith needle s ||
  match s with
  | EmptyString => false
  | String _ s' => includes s' needle
  end.

(** ** Regular expressions

    The pattern syntax the program uses, and a backtracking matcher in
    continuation-passing style: a matcher takes the current state (end index
    and the input from there on) and a continuation for the rest of the
    pattern. *)

Inductive Pattern :=
| Chr (a : ascii)
| Range (lo hi : ascii)
| Digit
| Seq (r1 r2 : Pattern)
| Alt (r1 r2 : Pattern)
| Opt (r : Pattern)
| Rep (n : nat) (r : Pattern)
| Bol
| Eol.

Definition MatchState : Type := nat * string.

Definition inRange (lo hi b : ascii) : bool :=
  ((nat_of_ascii lo <=? nat_of_ascii b) && (nat_of_ascii b <=? nat_of_ascii hi))%nat.

Definition isDigit (b : ascii) : bool := inRange "0" "9" b.

Definition charMatcher (p : ascii -> bool) (x : MatchState)
    (c : MatchState -> bool) : bool :=
  match snd x with
  | String b t => p b && c (S (fst x), t)
  | EmptyString => false
  end.

Fixpoint matcher (r : Pattern) (x : MatchState) (c : MatchState -> bool) : bool :=
  match r with
  | Chr a => charMatcher (Ascii.eqb a) x c
  | Range lo hi => charMatcher (inRange lo hi) x c
  | Digit => charMatcher isDigit x c
  | Seq r1 r2 => matcher r1 x (fun y => matcher r2 y c)
  | Alt r1 r2 => matcher r1 x c || matcher r2 x c
  | Opt r1 => matcher r1 x c || c x
  | Rep n r1 =>
      (fix rep (n : nat) (x : MatchState) : bool :=
         match n with
         | O => c x
         | S n' => matcher r1 x (rep n')
         end) n x
  | Bol => (fst x =? 0)%nat && c x
  | Eol => match snd x with EmptyString => c x | String _ _ => false end
  end.

Fixpoint dropString (n : nat) (s : string) : string :=
  match n, s with
  | O, _ => s
  | S n', String _ s' => dropString n' s'
  | S _, EmptyString => EmptyString
  end.

(** [RegExp.prototype.test]: a match is tried from every start index. *)
Definition test (r : Pattern) (s : string) : bool :=
  existsb (fun i => matcher r (i, dropString i s) (fun _ => true))
          (seq 0 (S (String.length s))).

Module RegexNotation.
Declare Scope re_scope.
Delimit Scope re_scope with re.
Infix "-&-" := Seq (at level 40, left associativity) : re_scope.
Infix "-|-" := Alt (at level 50, left associativity) : re_scope.
End RegexNotation.
Import RegexNotation.

(** (25[0-5]|2[0-4]\d|1\d\d|[1-9]?\d) *)
Definition OCTET : Pattern :=
  ((Chr "2" -&- Chr "5" -&- Range "0" "5")
   -|- (Chr "2" -&- Range "0" "4" -&- Digit)
   -|- (Chr "1" -&- Digit -&- Digit)
   -|- (Opt (Range "1" "9") -&- Digit))%re.

(** /^(25[0-5]|2[0-4]\d|1\d\d|[1-9]?\d)(\.(25[0-5]|2[0-4]\d|1\d\d|[1-9]?\d)){3}$/ *)
Definition IPV4_REGEX : Pattern :=
  (Bol -&- OCTET -&- Rep 3 (Chr "." -&- OCTET) -&- Eol)%re.

(** ** src/resolvers/validation.ts *)

(** [ResolverPayload]: a partial record; an unset key is [None]. *)
Record ResolverPayload := {
  p_provider : option string;
  p_hostname : option string;
  p_alias : option string;
  p_ipv4 : option string;
}.

Definition emptyPayload : ResolverPayload :=
  {| p_provider := None; p_hostname := None; p_alias := None; p_ipv4 := None |}.

(** [Object.keys(fields).length] *)
Definition keyCount (f : ResolverPayload) : nat :=
  ((if defined (p_provider f) then 1 else 0)
   + (if defined (p_hostname f) then 1 else 0)
   + (if defined (p_alias f) then 1 else 0)
   + (if defined (p_ipv4 f) then 1 else 0))%nat.

Record ValidateOptions := {
  requireProvider : bool;
  requireHostname : bool;
  requireAnyField : bool;
}.

Definition createOptions : ValidateOptions :=
  {| requireProvider := true; requireHostname := true; requireAnyField := false |}.

Definition updateOptions : ValidateOptions :=
  {| requireProvider := false; requireHostname := false; requireAnyField := true |}.

Record Validation := {
  fields : ResolverPayload;
  errors : list string;
}.

Definition push (e : string) (v : Validation) : Validation :=
  {| fields := fields v; errors := (errors v ++ [e])%list |}.

(** [typeof v === "string" ? v.trim() : ""] *)
Definition stringOrEmpty (v : JsValue) : string :=
  match v with JsString s => trim s | _ => "" end.

Definition ERR_ANY_FIELD : string :=
  "At least one updatable field (provider, hostname, alias, ipv4) is required".

Definition checkProvider (body : gmap string JsValue) (required : bool)
    (v : Validation) : Validation :=
  match body !! "provider" with
  | Some raw =>
      let provider := stringOrEmpty raw in
      if negb (truthyString provider) then push "provider cannot be empty" v
      else {| fields := {| p_provider := Some provider;
                           p_hostname := p_hostname (fields v);
                           p_alias := p_alias (fields v);
                           p_ipv4 := p_ipv4 (fields v) |};
              errors := errors v |}
  | None => if required then push "provider is required" v else v
  end.

Definition checkHostname (body : gmap string JsValue) (required : bool)
    (v : Validation) : Validation :=
  match body !! "hostname" with
  | Some raw =>
      let hostname := stringOrEmpty raw in
      if negb (truthyString hostname) then push "hostname cannot be empty" v
      else {| fields := {| p_provider := p_provider (fields v);
                           p_hostname := Some hostname;
                           p_alias := p_alias (fields v);
                           p_ipv4 := p_ipv4 (fields v) |};
              errors := errors v |}
  | None => if required then push "hostname is required" v else v
  end.

Definition checkAlias (body : gmap string JsValue) (v : Validation) : Validation :=
  match body !! "alias" with
  | Some raw =>
      {| fields := {| p_provider := p_provider (fields v);
                      p_hostname := p_hostname (fields v);
                      p_alias := Some (stringOrEmpty raw);
                      p_ipv4 := p_ipv4 (fields v) |};
         errors := errors v |}
  | None => v
  end.

Definition checkIpv4 (body : gmap string JsValue) (v : Validation) : Validation :=
  match body !! "ipv4" with
  | Some raw =>
      let ipv4 := stringOrEmpty raw in
      if truthyString ipv4 && negb (test IPV4_REGEX ipv4)
      then push "ipv4 must be a valid IPv4 address" v
      else {| fields := {| p_provider := p_provider (fields v);
                           p_hostname := p_hostname (fields v);
                           p_alias := p_alias (fields v);
                           p_ipv4 := Some ipv4 |};
              errors := errors v |}
  | None => v
  end.

Definition checkAnyField (required : bool) (v : Validation) : Validation :=
  if required && (keyCount (fields v) =? 0)%nat then push ERR_ANY_FIELD v else v.

(** The four field blocks run in source order on the accumulated
    [fields] and [errors], then the any-field check. *)
Definition validateResolverPayload (body : gmap string JsValue)
    (options : ValidateOptions) : Validation :=
  let v := {| fields := emptyPayload; errors := [] |} in
  let v := checkProvider body (requireProvider options) v in
  let v := checkHostname body (requireHostname options) v in
  let v := checkAlias body v in
  let v := checkIpv4 body v in
  checkAnyField (requireAnyField options) v.

(** ** What the specification says of an accepted address

    Written from the specification's words, to be compared with
    [test IPV4_REGEX]: a strict dotted quad is four octets 0 to 255, each in
    decimal without leading zeros, joined by dots. *)

Definition digitChar (n : nat) : ascii := ascii_of_nat (48 + n).

Definition decimal (n : nat) : string :=
  if (n <? 10)%nat then String (digitChar n) ""
  else if (n <? 100)%nat then
    String (digitChar (n / 10)) (String (digitChar (n mod 10)) "")
  else
    String (digitChar (n / 100))
      (String (digitChar (n / 10 mod 10)) (String (digitChar (n mod 10)) "")).

Definition StrictDottedQuad (s : string) : Prop :=
  ∃ a b c d : nat,
    (a < 256 ∧ b < 256 ∧ c < 256 ∧ d < 256)%nat ∧
    s = decimal a +:+ "." +:+ decimal b +:+ "." +:+ decimal c +:+ "." +:+ decimal d.

(** ** src/types.ts, src/db/schema.ts *)

Definition Timestamp : Type := string.

(** [ResolverRow]: a row of the [resolvers] table; [is_deleted] is an
    integer column. *)
Record ResolverRow := {
  row_id : Z;
  row_provider : string;
  row_hostname : string;
  row_alias : string;
  row_ipv4 : string;
  row_isDeleted : Z;
  row_mtime : Timestamp;
  row_ctime : Timestamp;
}.

Record ResolverDto := {
  dto_id : Z;
  dto_provider : string;
  dto_hostname : string;
  dto_alias : string;
  dto_ipv4 : string;
  dto_isDeleted : bool;
  dto_mtime : Timestamp;
  dto_ctime : Timestamp;
}.

(** [Bindings]: the two optional secrets; the [DB] binding is the [db] of
    the world below. *)
Record Bindings := {
  CLOUDFLARE_API_TOKEN : option string;
  CLOUDFLARE_ZONE_ID : option string;
}.

(** ** src/utils/http.ts *)

Inductive ResponseBody :=
| ErrorBody (error : string) (extra : option (list string))
| ResolverBody (dto : ResolverDto)
| ListBody (items : list ResolverDto) (limit offset : Z) (count : nat)
| ServiceBody (service : string) (endpoints : list string)
| HealthBody (ok : bool).

Record Response := {
  status : Z;
  headers : list (string * string);
  payload : ResponseBody;
}.

Definition JSON_HEADERS : list (string * string) :=
  [("content-type", "application/json; charset=utf-8")].

Definition jsonResponse (body : ResponseBody) (status : Z) : Response :=
  {| status := status; headers := JSON_HEADERS; payload := body |}.

Definition jsonError (message : string) (status : Z)
    (extra : option (list string)) : Response :=
  jsonResponse (ErrorBody message extra) status.

(** ** The platform: built-ins, the table's constraint and the network *)

(** The value of [Number(x)]: a double is NaN, an infinity or a rational. *)
Inductive JsNum :=
| NaN
| Infinity (negative : bool)
| Finite (q : Q).

Record JsError := { message : string }.

Record FetchRequest := {
  url : string;
  method : string;
  req_headers : list (string * string);
  req_body : option JsValue;
}.

(** A response as the updater reads it: [response.ok] and the value of
    [response.json().catch(() => null)]. *)
Record FetchResponse := {
  ok : bool;
  json : JsValue;
}.

(** Modelled from the spec: the uniqueness constraint of the table on
    (provider, hostname). The migration that declares it is not among the
    source files (the schema module declares no index); the specification
    leaves open whether the constraint spans soft-deleted rows, so both
    readings are kept. *)
Inductive UniqueScope :=
| UniqueAmongActive
| UniqueAmongAll.

Class Platform := {
  (** [Number(value)] for a string or [null] ([None]) *)
  Number : option string → JsNum;
  (** [JSON.parse(raw)]; [None] when it throws *)
  JSON_parse : string → option JsValue;
  (** [JSON.stringify(v)], and the string conversion of template literals
      and [Array.prototype.join] ([None] is [undefined]) *)
  JSON_stringify : JsValue → string;
  ToString : option JsValue → string;
  encodeURIComponent : string → string;
  uniqueScope : UniqueScope;
  (** the network: the state of the remote side and its answer to a
      request; [inl] when [fetch] rejects *)
  Net : Type;
  fetch : FetchRequest → Net → (JsError + FetchResponse) * Net;
}.

Section Program.
Context `{Platform}.

(** ** src/utils/request.ts *)

Record Request := { text : string }.

(** [readJsonBody]: the error response, or the parsed object. *)
Definition readJsonBody (request : Request) : Response + gmap string JsValue :=
  let raw := text request in
  if negb (truthyString (trim raw))
  then inl (jsonError "Request body is required" 400 None)
  else
    match JSON_parse raw with
    | None => inl (jsonError "Invalid JSON payload" 400 None)
    | Some (JsObject data) => inr data
    | Some _ => inl (jsonError "Body must be a JSON object" 400 None)
    end.

(** [URLSearchParams]: [get] returns the first value of a name. *)
Definition URLSearchParams : Type := list (string * string).

Fixpoint get (params : URLSearchParams) (name : string) : option string :=
  match params with
  | [] => None
  | (k, v) :: rest => if String.eqb k name then Some v else get rest name
  end.

Definition parseBoolean (value : option string) : bool :=
  match value with
  | None => false
  | Some value =>
      let normalized := toLowerCase (trim value) in
      existsb (String.eqb normalized) ["1"; "true"; "yes"; "on"]
  end.

Definition optionalString (value : option string) : option string :=
  match value with
  | None => None
  | Some value =>
      let trimmed := trim value in
      if truthyString trimmed then Some trimmed else None
  end.

(** [Number.isFinite(parsed)] followed by a comparison and [Math.floor]. *)
Definition parseLimit (value : option string) (fallback max : Z) : Z :=
  match Number value with
  | Finite parsed =>
      if Qle_bool parsed 0 then fallback else Z.min (Qfloor parsed) max
  | _ => fallback
  end.

Definition parseOffset (value : option string) : Z :=
  match Number value with
  | Finite parsed =>
      if negb (Qle_bool 0 parsed) then 0 else Qfloor parsed
  | _ => 0
  end.

Definition parseResolverIdParam (value : option string) : option Z :=
  match value with
  | None => None
  | Some value =>
      match Number (Some value) with
      | Finite id =>
          if negb (Qeq_bool id (inject_Z (Qfloor id))) || negb (Qle_bool 1 id)
          then None else Some (Qfloor id)
      | _ => None
      end
  end.

(** ** The world a handler runs in

    [db] is the D1 table, [now] the value of CURRENT_TIMESTAMP during the
    request, [net] the remote side of [fetch]. The last three fields record
    what happened and are never read by the program: every request given to
    [fetch], every call of [syncDnsRecord], every console line. *)

Inductive ConsoleEntry :=
| ConsoleWarn (msg : string)
| ConsoleError (msg : string).

Record Db := {
  rows : list ResolverRow;
  lastId : Z;
}.

Record World := {
  db : Db;
  now : Timestamp;
  net : Net;
  requests : list FetchRequest;
  syncs : list (string * string);
  console : list ConsoleEntry;
}.

(** A computation that may throw and may change the world. *)
Definition M (A : Type) : Type := World → (JsError + A) * World.

Definition ret {A : Type} (a : A) : M A := fun w => (inr a, w).

Definition throw {A : Type} (e : JsError) : M A := fun w => (inl e, w).

Definition bind {A B : Type} (m : M A) (k : A → M B) : M B :=
  fun w =>
    match m w with
    | (inl e, w') => (inl e, w')
    | (inr a, w') => k a w'
    end.

(** A plain function that may throw, called inside a computation. *)
Definition lift {A : Type} (r : JsError + A) : M A := fun w => (r, w).

(** [try { m } catch (e) { ... }]: the outcome of [m] as a value. *)
Definition attempt {A : Type} (m : M A) : M (JsError + A) :=
  fun w => let '(r, w') := m w in (inr r, w').

Notation "'let*' x ':=' m 'in' k" := (bind m (fun x => k))
  (at level 10, x pattern, m at level 100, k at level 200).

Definition setDb (d : Db) (w : World) : World :=
  {| db := d; now := now w; net := net w; requests := requests w;
     syncs := syncs w; console := console w |}.

Definition console_warn (msg : string) : M unit :=
  fun w => (inr tt,
            {| db := db w; now := now w; net := net w; requests := requests w;
               syncs := syncs w; console := console w ++ [ConsoleWarn msg] |}).

Definition console_error (msg : string) : M unit :=
  fun w => (inr tt,
            {| db := db w; now := now w; net := net w; requests := requests w;
               syncs := syncs w; console := console w ++ [ConsoleError msg] |}).

Definition noteSync (hostname ipv4 : string) : M unit :=
  fun w => (inr tt,
            {| db := db w; now := now w; net := net w; requests := requests w;
               syncs := syncs w ++ [(hostname, ipv4)]; console := console w |}).

(** [await fetch(url, init)] *)
Definition fetchM (req : FetchRequest) : M FetchResponse :=
  fun w =>
    let '(r, n) := fetch req (net w) in
    (r, {| db := db w; now := now w; net := n; requests := requests w ++ [req];
           syncs := syncs w; console := console w |}).

(** ** The statements the controller sends to the table *)

Definition indexed (r : ResolverRow) : bool :=
  match uniqueScope with
  | UniqueAmongActive => row_isDeleted r =? 0
  | UniqueAmongAll => true
  end.

Definition samePair (a b : ResolverRow) : bool :=
  String.eqb (row_provider a) (row_provider b)
  && String.eqb (row_hostname a) (row_hostname b).

(** Modelled from the spec: a row violates the constraint when another row
    (another id) inside the constraint's scope carries its pair. *)
Definition clashes (r : ResolverRow) (table : list ResolverRow) : bool :=
  indexed r
  && existsb (fun o => negb (row_id o =? row_id r) && indexed o && samePair o r) table.

Definition UNIQUE_FAILED : JsError :=
  {| message := "UNIQUE constraint failed: resolvers.provider, resolvers.hostname" |}.

Definition NOT_NULL_FAILED : JsError :=
  {| message := "NOT NULL constraint failed" |}.

Record InsertValues := {
  v_provider : option string;
  v_hostname : option string;
  v_alias : string;
  v_ipv4 : string;
}.

(** The AUTOINCREMENT key: one more than every id in use or used before. *)
Definition nextId (d : Db) : Z :=
  1 + Z.max (lastId d) (fold_right Z.max 0 (map row_id (rows d))).

(** [db.insert(resolvers).values(v).returning()] *)
Definition insertReturning (v : InsertValues) : M (list ResolverRow) :=
  fun w =>
    match v_provider v, v_hostname v with
    | Some p, Some h =>
        let d := db w in
        let row := {| row_id := nextId d; row_provider := p; row_hostname := h;
                      row_alias := v_alias v; row_ipv4 := v_ipv4 v;
                      row_isDeleted := 0; row_mtime := now w; row_ctime := now w |} in
        if clashes row (rows d) then (inl UNIQUE_FAILED, w)
        else (inr [row],
              setDb {| rows := rows d ++ [row]; lastId := row_id row |} w)
    | _, _ => (inl NOT_NULL_FAILED, w)
    end.

(** The SET clause of an update; [set_mtime_current] is
    [mtime: sql`CURRENT_TIMESTAMP`]. *)
Record SetClause := {
  set_provider : option string;
  set_hostname : option string;
  set_alias : option string;
  set_ipv4 : option string;
  set_isDeleted : option Z;
  set_mtime_current : bool;
}.

Definition applySet (s : SetClause) (t : Timestamp) (r : ResolverRow) : ResolverRow :=
  {| row_id := row_id r;
     row_provider := default (row_provider r) (set_provider s);
     row_hostname := default (row_hostname r) (set_hostname s);
     row_alias := default (row_alias r) (set_alias s);
     row_ipv4 := default (row_ipv4 r) (set_ipv4 s);
     row_isDeleted := default (row_isDeleted r) (set_isDeleted s);
     row_mtime := if set_mtime_current s then t else row_mtime r;
     row_ctime := row_ctime r |}.

(** The constraint is looked at only by a statement that assigns one of
    its columns. *)
Definition writesKey (s : SetClause) : bool :=
  defined (set_provider s) || defined (set_hostname s).

(** [db.update(resolvers).set(s).where(cond).returning()] *)
Definition updateReturning (s : SetClause) (cond : ResolverRow → bool)
    : M (list ResolverRow) :=
  fun w =>
    let d := db w in
    let rows' := map (fun r => if cond r then applySet s (now w) r else r) (rows d) in
    let updated := map (applySet s (now w)) (List.filter cond (rows d)) in
    if writesKey s && existsb (fun r => clashes r rows') updated
    then (inl UNIQUE_FAILED, w)
    else (inr updated, setDb {| rows := rows'; lastId := lastId d |} w).

Fixpoint insertDesc (r : ResolverRow) (l : list ResolverRow) : list ResolverRow :=
  match l with
  | [] => [r]
  | x :: l' => if row_id x <=? row_id r then r :: l else x :: insertDesc r l'
  end.

(** [orderBy(desc(resolvers.id))] *)
Definition orderByIdDesc (l : list ResolverRow) : list ResolverRow :=
  fold_right insertDesc [] l.

(** [db.select().from(resolvers).where(cond).orderBy(..).limit(n).offset(k)];
    an absent clause is [None]. *)
Definition selectFrom (cond : option (ResolverRow → bool)) (byIdDesc : bool)
    (limit offset : option Z) : M (list ResolverRow) :=
  fun w =>
    let matching :=
      match cond with
      | Some c => List.filter c (rows (db w))
      | None => rows (db w)
      end in
    let ordered := if byIdDesc then orderByIdDesc matching else matching in
    let skipped :=
      match offset with
      | Some k => drop (Z.to_nat k) ordered
      | None => ordered
      end in
    let taken :=
      match limit with
      | Some n => if n <? 0 then skipped else take (Z.to_nat n) skipped
      | None => skipped
      end in
    (inr taken, w).

(** ** src/dns/updater.ts *)

(** [v.k] for a key that is not a built-in property: only objects have it. *)
Definition getProp (v : option JsValue) (k : string) : option JsValue :=
  match v with
  | Some (JsObject o) => o !! k
  | _ => None
  end.

Definition truthyOpt (v : option JsValue) : bool :=
  match v with Some v => truthy v | None => false end.

(** [v === s] for a string [s] *)
Definition strictEqString (v : option JsValue) (s : string) : bool :=
  match v with Some (JsString t) => String.eqb t s | _ => false end.

(** [v ?? d] *)
Definition nullish (v : option JsValue) (d : JsValue) : JsValue :=
  match v with
  | None | Some JsNull => d
  | Some x => x
  end.

Definition isCloudflareResponse (payload : JsValue) : bool :=
  match payload with
  | JsObject o => defined (o !! "success")
  | _ => false
  end.

(** [data.success === false] *)
Definition successIsFalse (data : JsValue) : bool :=
  match getProp (Some data) "success" with
  | Some (JsBool false) => true
  | _ => false
  end.

Definition TYPE_ERROR : JsError :=
  {| message := "payload.errors.map is not a function" |}.

Fixpoint join (sep : string) (l : list string) : string :=
  match l with
  | [] => ""
  | [x] => x
  | x :: rest => x +:+ sep +:+ join sep rest
  end.

Definition errorText (err : JsValue) : string :=
  match getProp (Some err) "message" with
  | None | Some JsNull => JSON_stringify err
  | Some m => ToString (Some m)
  end.

(** [extractCloudflareError] is a plain function; it throws a TypeError when
    [errors] has a length but no [map]. *)
Definition extractCloudflareError (payload : JsValue) : JsError + string :=
  if negb (isCloudflareResponse payload) then inr ""
  else
    match getProp (Some payload) "errors" with
    | Some (JsArray l) =>
        match l with
        | [] => inr ""
        | _ => inr (join "; " (map errorText l))
        end
    | Some (JsString s) => if truthyString s then inl TYPE_ERROR else inr ""
    | Some (JsObject o) =>
        if truthyOpt (o !! "length") then inl TYPE_ERROR else inr ""
    | _ => inr ""
    end.

Definition detail (message : string) : string :=
  if truthyString message then ": " +:+ message else "".

Definition lookupRequest (baseUrl : string) (hdrs : list (string * string))
    (hostname : string) : FetchRequest :=
  {| url := baseUrl +:+ "?type=A&name=" +:+ encodeURIComponent hostname;
     method := "GET"; req_headers := hdrs; req_body := None |}.

Definition fetchDnsRecord (baseUrl : string) (hdrs : list (string * string))
    (hostname : string) : M (option JsValue) :=
  let* response := fetchM (lookupRequest baseUrl hdrs hostname) in
  let data := json response in
  if negb (ok response) || (isCloudflareResponse data && successIsFalse data)
  then
    let* message := lift (extractCloudflareError data) in
    throw {| message := "Failed to fetch DNS record for " +:+ hostname +:+ detail message |}
  else if isCloudflareResponse data
  then
    match getProp (Some data) "result" with
    | Some (JsArray result) => ret (head result)
    | _ => ret None
    end
  else ret None.

Definition dnsPayload (hostname ipv4 : string) (existing : option JsValue) : JsValue :=
  JsObject
    (<["type" := JsString "A"]>
       (<["name" := JsString hostname]>
          (<["content" := JsString ipv4]>
             (<["ttl" := nullish (getProp existing "ttl") (JsNumber 1)]>
                (<["proxied" := nullish (getProp existing "proxied") (JsBool false)]>
                   ∅))))).

(** [token] and [zoneId] when both are set and not empty, that is when
    [!token || !zoneId] is false. *)
Definition credentials (env : Bindings) : option (string * string) :=
  match CLOUDFLARE_API_TOKEN env, CLOUDFLARE_ZONE_ID env with
  | Some (String a t), Some (String b z) => Some (String a t, String b z)
  | _, _ => None
  end.

Definition baseUrlOf (zoneId : string) : string :=
  "https://api.cloudflare.com/client/v4/zones/" +:+ zoneId +:+ "/dns_records".

Definition headersOf (token : string) : list (string * string) :=
  [("Authorization", "Bearer " +:+ token); ("content-type", "application/json")].

(** [existing && existing.content === ipv4] *)
Definition upToDate (existing : option JsValue) (ipv4 : string) : bool :=
  truthyOpt existing && strictEqString (getProp existing "content") ipv4.

Definition writeRequest (baseUrl : string) (hdrs : list (string * string))
    (hostname ipv4 : string) (existing : option JsValue) : FetchRequest :=
  {| url := if truthyOpt existing
            then baseUrl +:+ "/" +:+ ToString (getProp existing "id")
            else baseUrl;
     method := if truthyOpt existing then "PUT" else "POST";
     req_headers := hdrs;
     req_body := Some (dnsPayload hostname ipv4 existing) |}.

Definition syncDnsRecord (env : Bindings) (hostname ipv4 : string) : M unit :=
  let* _ := noteSync hostname ipv4 in
  if negb (truthyString ipv4) then ret tt
  else
    match credentials env with
    | None =>
        let* _ :=
          console_warn ("Skipping DNS sync for " +:+ hostname
                        +:+ " because CLOUDFLARE_API_TOKEN or CLOUDFLARE_ZONE_ID is not set.") in
        ret tt
    | Some (token, zoneId) =>
        let baseUrl := baseUrlOf zoneId in
        let hdrs := headersOf token in
        let* existing := fetchDnsRecord baseUrl hdrs hostname in
        if upToDate existing ipv4 then ret tt
        else
          let* response := fetchM (writeRequest baseUrl hdrs hostname ipv4 existing) in
          let data := json response in
          let success :=
            ok response && (negb (isCloudflareResponse data) || negb (successIsFalse data)) in
          if negb success
          then
            let* message := lift (extractCloudflareError data) in
            throw {| message :=
                       "Failed to " +:+ (if truthyOpt existing then "update" else "create")
                       +:+ " DNS record for " +:+ hostname +:+ detail message |}
          else ret tt
    end.

(** ** src/resolvers/controller.ts *)

Definition toResolverDto (row : ResolverRow) : ResolverDto :=
  {| dto_id := row_id row;
     dto_provider := row_provider row;
     dto_hostname := row_hostname row;
     dto_alias := row_alias row;
     dto_ipv4 := row_ipv4 row;
     dto_isDeleted := row_isDeleted row =? 1;
     dto_mtime := row_mtime row;
     dto_ctime := row_ctime row |}.

Definition isLive (r : ResolverRow) : bool := row_isDeleted r =? 0.

Definition hasId (id : Z) (r : ResolverRow) : bool := row_id r =? id.

(** [and(eq(resolvers.id, id), eq(resolvers.isDeleted, 0))] *)
Definition liveWithId (id : Z) (r : ResolverRow) : bool := hasId id r && isLive r.

Definition findResolverById (env : Bindings) (id : Z) (includeDeleted : bool)
    : M (option ResolverRow) :=
  let whereClause := if includeDeleted then hasId id else liveWithId id in
  let* rows := selectFrom (Some whereClause) false (Some 1) None in
  ret (head rows).

(** [and(...conditions)] *)
Definition and_ (conditions : list (ResolverRow → bool)) (r : ResolverRow) : bool :=
  forallb (fun c => c r) conditions.

Definition listResolversHandler (env : Bindings) (params : URLSearchParams)
    : M Response :=
  let includeDeleted := parseBoolean (get params "includeDeleted") in
  let providerFilter := optionalString (get params "provider") in
  let hostnameFilter := optionalString (get params "hostname") in
  let limit := parseLimit (get params "limit") 100 500 in
  let offset := parseOffset (get params "offset") in
  let conditions :=
    ((if negb includeDeleted then [isLive] else [])
     ++ match providerFilter with
        | Some p => [fun r => String.eqb (row_provider r) p]
        | None => []
        end
     ++ match hostnameFilter with
        | Some h => [fun r => String.eqb (row_hostname r) h]
        | None => []
        end)%list in
  let whereClause :=
    match conditions with
    | [] => None
    | [c] => Some c
    | _ => Some (and_ conditions)
    end in
  let* rows := selectFrom whereClause true (Some limit) (Some offset) in
  ret (jsonResponse (ListBody (map toResolverDto rows) limit offset (length rows)) 200).

Definition getResolverHandler (env : Bindings) (id : Z) (params : URLSearchParams)
    : M Response :=
  let includeDeleted := parseBoolean (get params "includeDeleted") in
  let* row := findResolverById env id includeDeleted in
  match row with
  | None => ret (jsonError "Resolver not found" 404 None)
  | Some row => ret (jsonResponse (ResolverBody (toResolverDto row)) 200)
  end.

(** The values of the insert: absent [alias] and [ipv4] default to "". *)
Definition insertValues (f : ResolverPayload) : InsertValues :=
  {| v_provider := p_provider f;
     v_hostname := p_hostname f;
     v_alias := default "" (p_alias f);
     v_ipv4 := default "" (p_ipv4 f) |}.

Definition createResolverHandler (request : Request) (env : Bindings) : M Response :=
  match readJsonBody request with
  | inl error => ret error
  | inr data =>
      let v := validateResolverPayload data createOptions in
      if negb (length (errors v) =? 0)%nat
      then ret (jsonError "Validation failed" 422 (Some (errors v)))
      else
        let* inserted := attempt (insertReturning (insertValues (fields v))) in
        match inserted with
        | inl dbError =>
            if includes (message dbError) "UNIQUE constraint failed"
            then ret (jsonError
                        "A resolver with the same provider and hostname already exists"
                        409 None)
            else
              let* _ := console_error "Failed to create resolver" in
              ret (jsonError "Failed to create resolver" 500 None)
        | inr returned =>
            match head returned with
            | None => ret (jsonError "Failed to create resolver" 500 None)
            | Some created =>
                if truthyString (row_ipv4 created)
                then
                  let* synced :=
                    attempt (syncDnsRecord env (row_hostname created) (row_ipv4 created)) in
                  match synced with
                  | inl syncError =>
                      let* _ := console_error "Failed to sync DNS after create" in
                      ret (jsonError "Resolver created but DNS sync failed" 502 None)
                  | inr _ => ret (jsonResponse (ResolverBody (toResolverDto created)) 201)
                  end
                else ret (jsonResponse (ResolverBody (toResolverDto created)) 201)
            end
        end
  end.

(** [updateValues]: the submitted fields, then [mtime]. *)
Definition updateValues (f : ResolverPayload) : SetClause :=
  {| set_provider := p_provider f;
     set_hostname := p_hostname f;
     set_alias := p_alias f;
     set_ipv4 := p_ipv4 f;
     set_isDeleted := None;
     set_mtime_current := true |}.

Definition updateResolverHandler (request : Request) (env : Bindings) (id : Z)
    : M Response :=
  match readJsonBody request with
  | inl error => ret error
  | inr data =>
      let v := validateResolverPayload data updateOptions in
      if negb (length (errors v) =? 0)%nat
      then ret (jsonError "Validation failed" 422 (Some (errors v)))
      else if (keyCount (fields v) =? 0)%nat
      then ret (jsonError ERR_ANY_FIELD 422 None)
      else
        let* current := findResolverById env id false in
        match current with
        | None => ret (jsonError "Resolver not found or already deleted" 404 None)
        | Some current =>
            let* changed :=
              attempt (updateReturning (updateValues (fields v)) (liveWithId id)) in
            match changed with
            | inl dbError =>
                if includes (message dbError) "UNIQUE constraint failed"
                then ret (jsonError
                            "Another resolver already uses this provider and hostname"
                            409 None)
                else
                  let* _ := console_error "Failed to update resolver" in
                  ret (jsonError "Failed to update resolver" 500 None)
            | inr returned =>
                match head returned with
                | None => ret (jsonError "Resolver not found or already deleted" 404 None)
                | Some updated =>
                    let ipv4Changed :=
                      match p_ipv4 (fields v) with
                      | Some ip => negb (String.eqb ip (row_ipv4 current))
                      | None => false
                      end in
                    if ipv4Changed && truthyString (row_ipv4 updated)
                    then
                      let* synced :=
                        attempt (syncDnsRecord env (row_hostname updated) (row_ipv4 updated)) in
                      match synced with
                      | inl syncError =>
                          let* _ := console_error "Failed to sync DNS after update" in
                          ret (jsonError "Resolver updated but DNS sync failed" 502 None)
                      | inr _ => ret (jsonResponse (ResolverBody (toResolverDto updated)) 200)
                      end
                    else ret (jsonResponse (ResolverBody (toResolverDto updated)) 200)
                end
            end
        end
  end.

Definition softDelete : SetClause :=
  {| set_provider := None; set_hostname := None; set_alias := None; set_ipv4 := None;
     set_isDeleted := Some 1; set_mtime_current := true |}.

Definition deleteResolverHandler (env : Bindings) (id : Z) : M Response :=
  let* returned := updateReturning softDelete (liveWithId id) in
  match head returned with
  | None => ret (jsonError "Resolver not found or already deleted" 404 None)
  | Some row => ret (jsonResponse (ResolverBody (toResolverDto row)) 200)
  end.

(** ** src/app.ts

    The routes, after the framework has matched method and path. *)

Inductive Route :=
| GetRoot
| GetHealth
| ListResolvers (params : URLSearchParams)
| PostResolver (request : Request)
| GetResolver (idParam : option string) (params : URLSearchParams)
| PutResolver (idParam : option string) (request : Request)
| PatchResolver (idParam : option string) (request : Request)
| DeleteResolver (idParam : option string)
| Unmatched.

Definition BAD_ID : Response :=
  jsonError "Resolver id must be a positive integer" 400 None.

Definition withId (idParam : option string) (k : Z → M Response) : M Response :=
  match parseResolverIdParam idParam with
  | None => ret BAD_ID
  | Some id => k id
  end.

Definition route (env : Bindings) (r : Route) : M Response :=
  match r with
  | GetRoot =>
      ret (jsonResponse
             (ServiceBody "automate-dns"
                ["GET    /resolvers"; "POST   /resolvers"; "GET    /resolvers/:id";
                 "PUT    /resolvers/:id"; "PATCH  /resolvers/:id";
                 "DELETE /resolvers/:id"]) 200)
  | GetHealth => ret (jsonResponse (HealthBody true) 200)
  | ListResolvers params => listResolversHandler env params
  | PostResolver request => createResolverHandler request env
  | GetResolver idParam params => withId idParam (fun id => getResolverHandler env id params)
  | PutResolver idParam request => withId idParam (updateResolverHandler request env)
  | PatchResolver idParam request => withId idParam (updateResolverHandler request env)
  | DeleteResolver idParam => withId idParam (deleteResolverHandler env)
  | Unmatched => ret (jsonError "Not found" 404 None)
  end.

(** [createApp]: the routes, and [app.onError], which answers a handler that
    throws with 500. *)
Definition createApp (env : Bindings) (r : Route) : World → Response * World :=
  fun w =>
    match route env r w with
    | (inr response, w') => (response, w')
    | (inl err, w') =>
        (jsonError "Internal Server Error" 500 None,
         snd (console_error "Request handling error" w'))
    end.

(** A client session: each request arrives at some time and is served on
    the world the previous one left. *)
Definition at_ (t : Timestamp) (w : World) : World :=
  {| db := db w; now := t; net := net w; requests := requests w;
     syncs := syncs w; console := console w |}.

Fixpoint serve (env : Bindings) (session : list (Timestamp * Route)) (w : World) : World :=
  match session with
  | [] => w
  | (t, r) :: rest => serve env rest (snd (createApp env r (at_ t w)))
  end.

(** A write to the provider is any request but the lookup. *)
Definition isWrite (req : FetchRequest) : bool := negb (String.eqb (method req) "GET").

Definition writes (log : list FetchRequest) : list FetchRequest := List.filter isWrite log.


(** ** src/index.ts, the single-file worker

    The handlers of the worker before the controller and the DNS updater
    were split off; the helpers it declares are the ones above. *)

(** [toResolverDto(row!)] on a missing row reads a property of
    [undefined]. *)
Definition UNDEFINED_ROW : JsError :=
  {| message := "Cannot read properties of undefined (reading 'id')" |}.

Definition handleCreateResolver (request : Request) (env : Bindings) : M Response :=
  match readJsonBody request with
  | inl error => ret error
  | inr data =>
      let v := validateResolverPayload data createOptions in
      if negb (length (errors v) =? 0)%nat
      then ret (jsonError "Validation failed" 422 (Some (errors v)))
      else
        let* outcome :=
          attempt
            (let* returned := insertReturning (insertValues (fields v)) in
             match head returned with
             | None => throw UNDEFINED_ROW
             | Some row => ret (jsonResponse (ResolverBody (toResolverDto row)) 201)
             end) in
        match outcome with
        | inr response => ret response
        | inl dbError =>
            if includes (message dbError) "UNIQUE constraint failed"
            then ret (jsonError
                        "A resolver with the same provider and hostname already exists"
                        409 None)
            else
              let* _ := console_error "Failed to create resolver" in
              ret (jsonError "Failed to create resolver" 500 None)
        end
  end.

Definition handleUpdateResolver (request : Request) (env : Bindings) (id : Z)
    : M Response :=
  match readJsonBody request with
  | inl error => ret error
  | inr data =>
      let v := validateResolverPayload data updateOptions in
      if negb (length (errors v) =? 0)%nat
      then ret (jsonError "Validation failed" 422 (Some (errors v)))
      else if (keyCount (fields v) =? 0)%nat
      then ret (jsonError ERR_ANY_FIELD 422 None)
      else
        let* outcome :=
          attempt
            (let* returned := updateReturning (updateValues (fields v)) (liveWithId id) in
             match head returned with
             | None => ret (jsonError "Resolver not found or already deleted" 404 None)
             | Some row => ret (jsonResponse (ResolverBody (toResolverDto row)) 200)
             end) in
        match outcome with
        | inr response => ret response
        | inl dbError =>
            if includes (message dbError) "UNIQUE constraint failed"
            then ret (jsonError
                        "Another resolver already uses this provider and hostname"
                        409 None)
            else
              let* _ := console_error "Failed to update resolver" in
              ret (jsonError "Failed to update resolver" 500 None)
        end
  end.

End Program.

(** ** A concrete platform to run the program on

    A stand-in for the runtime and for the DNS provider, used to evaluate
    the handlers on concrete requests: decimal literals for [Number], a table
    of known request texts for [JSON.parse], and a provider that keeps its
    A-records in a list and can be told to refuse writes. *)

Module Fixture.

Fixpoint digitsValue (acc : N) (s : string) : option (N * nat) :=
  match s with
  | EmptyString => Some (acc, O)
  | String c s' =>
      if isDigit c
      then
        match digitsValue (10 * acc + (N_of_ascii c - 48))%N s' with
        | Some (v, n) => Some (v, S n)
        | None => None
        end
      else None
  end.

Fixpoint splitAtDot (s : string) : string * option string :=
  match s with
  | EmptyString => (EmptyString, None)
  | String c s' =>
      if Ascii.eqb c "." then (EmptyString, Some s')
      else let '(a, b) := splitAtDot s' in (String c a, b)
  end.

(** Unsigned decimal literal: digits, optionally a dot and more digits. *)
Definition unsignedValue (s : string) : option Q :=
  let '(whole, frac) := splitAtDot s in
  match digitsValue 0 whole, frac with
  | Some (w, nw), None =>
      if (nw =? 0)%nat then None else Some (inject_Z (Z.of_N w))
  | Some (w, nw), Some f =>
      match digitsValue 0 f with
      | Some (fv, nf) =>
          if ((nw =? 0) && (nf =? 0))%nat then None
          else Some (Qred (Qplus (inject_Z (Z.of_N w))
                                 (Qmake (Z.of_N fv) (Pos.pow 10 (Pos.of_nat nf)))))
      | None => None
      end
  | None, _ => None
  end.

Definition number (value : option string) : JsNum :=
  match value with
  | None => Finite 0
  | Some s =>
      match trim s with
      | EmptyString => Finite 0
      | String "-" rest =>
          match unsignedValue rest with
          | Some q => Finite (Qopp q)
          | None => NaN
          end
      | String "+" rest =>
          match unsignedValue rest with Some q => Finite q | None => NaN end
      | t => match unsignedValue t with Some q => Finite q | None => NaN end
      end
  end.

Definition QUOTE : string := String "034" EmptyString.

Definition quoted (s : string) : string := QUOTE +:+ s +:+ QUOTE.

(** The text of a flat JSON object with string values. *)
Definition objectText (members : list (string * string)) : string :=
  "{" +:+ join "," (map (fun kv => quoted (fst kv) +:+ ":" +:+ quoted (snd kv)) members)
      +:+ "}".

Definition body (members : list (string * string)) : gmap string JsValue :=
  list_to_map (map (fun kv => (fst kv, JsString (snd kv))) members).

Definition objectValue (members : list (string * string)) : JsValue :=
  JsObject (body members).

(** [JSON.parse] on the texts of a table. *)
Fixpoint parseKnown (table : list (string * JsValue)) (raw : string)
    : option JsValue :=
  match table with
  | [] => None
  | (t, v) :: rest => if String.eqb t raw then Some v else parseKnown rest raw
  end.

Definition toString (v : option JsValue) : string :=
  match v with
  | Some (JsString s) => s
  | Some JsNull => "null"
  | Some (JsBool true) => "true"
  | Some (JsBool false) => "false"
  | Some (JsNumber n) =>
      if n <? 0 then "-" +:+ decimal (Z.to_nat (- n)) else decimal (Z.to_nat n)
  | Some (JsArray _) => ""
  | Some (JsObject _) => "[object Object]"
  | None => "undefined"
  end.

Fixpoint endsWith (s suffix : string) : bool :=
  String.eqb s suffix ||
  match s with
  | EmptyString => false
  | String _ s' => endsWith s' suffix
  end.

(** The provider: its A-records as JSON objects, and whether it takes
    writes. *)
Record Zone := {
  records : list JsValue;
  acceptsWrites : bool;
}.

Definition nameOf (record : JsValue) : string :=
  toString (getProp (Some record) "name").

Definition idOf (record : JsValue) : string :=
  toString (getProp (Some record) "id").

Definition answer (success : bool) (result : option JsValue) : JsValue :=
  JsObject
    (<["success" := JsBool success]>
       (match result with
        | Some r => <["result" := r]> ∅
        | None => ∅
        end)).

Definition stored (id : string) (body : option JsValue) : JsValue :=
  match body with
  | Some (JsObject o) => JsObject (<["id" := JsString id]> o)
  | _ => JsObject (<["id" := JsString id]> ∅)
  end.

Definition zoneFetch (req : FetchRequest) (z : Zone)
    : (JsError + FetchResponse) * Zone :=
  if String.eqb (method req) "GET"
  then
    let found :=
      List.filter (fun r => endsWith (url req) ("name=" +:+ nameOf r)) (records z) in
    (inr {| ok := true; json := answer true (Some (JsArray found)) |}, z)
  else if negb (acceptsWrites z)
  then (inr {| ok := false; json := answer false None |}, z)
  else if String.eqb (method req) "POST"
  then
    let id := "r" +:+ decimal (length (records z)) in
    (inr {| ok := true; json := answer true None |},
     {| records := records z ++ [stored id (req_body req)];
        acceptsWrites := acceptsWrites z |})
  else
    (inr {| ok := true; json := answer true None |},
     {| records :=
          map (fun r => if endsWith (url req) ("/" +:+ idOf r)
                        then stored (idOf r) (req_body req) else r)
              (records z);
        acceptsWrites := acceptsWrites z |}).

Definition platform (table : list (string * JsValue)) (scope : UniqueScope)
    : Platform :=
  {| Number := number;
     JSON_parse := parseKnown table;
     JSON_stringify := fun _ => "";
     ToString := toString;
     encodeURIComponent := fun s => s;
     uniqueScope := scope;
     Net := Zone;
     fetch := zoneFetch |}.

Definition env : Bindings :=
  {| CLOUDFLARE_API_TOKEN := Some "token"; CLOUDFLARE_ZONE_ID := Some "zone" |}.

Definition emptyZone (accepts : bool) : Zone :=
  {| records := []; acceptsWrites := accepts |}.

Definition emptyDb : Db := {| rows := []; lastId := 0 |}.

(** Request bodies and the platform that knows their texts. *)
Definition CF_A : list (string * string) :=
  [("provider", "cf"); ("hostname", "a.example.com")].

Definition CF_A_IP : list (string * string) :=
  [("provider", "cf"); ("hostname", "a.example.com"); ("ipv4", "1.2.3.4")].

Definition NEW_IP : list (string * string) := [("ipv4", "1.2.3.5")].

Definition IP_NUMBER : gmap string JsValue := {["ipv4" := JsNumber 5]}.

Definition known : Platform :=
  platform
    [(objectText CF_A, objectValue CF_A);
     (objectText CF_A_IP, objectValue CF_A_IP);
     (objectText NEW_IP, objectValue NEW_IP);
     ("{" +:+ quoted "ipv4" +:+ ":5}", JsObject IP_NUMBER);
     ("{}", JsObject ∅)]
    UniqueAmongActive.

(** A world with nothing recorded yet. *)
Definition world (P : Platform) (d : Db) (n : @Net P) : @World P :=
  {| db := d; now := "2026-01-01 00:00:00"; net := n; requests := [];
     syncs := []; console := [] |}.

(** The empty registry in front of a provider that takes writes or not. *)
Definition started (accepts : bool) : @World known :=
  world known emptyDb (emptyZone accepts).

Definition request (members : list (string * string)) : Request :=
  {| text := objectText members |}.

(** The registry after the record of [CF_A_IP] was created. *)
Definition seeded : @World known :=
  snd (@createResolverHandler known (request CF_A_IP) env (started true)).

Definition seededRow : ResolverRow :=
  {| row_id := 1; row_provider := "cf"; row_hostname := "a.example.com";
     row_alias := ""; row_ipv4 := "1.2.3.4"; row_isDeleted := 0;
     row_mtime := "2026-01-01 00:00:00"; row_ctime := "2026-01-01 00:00:00" |}.

(** A body with a key the program does not recognize, and a platform that
    knows its text. *)
Definition CF_A_ID : list (string * string) :=
  [("provider", "cf"); ("hostname", "a.example.com"); ("id", "7")].

Definition labelled : Platform :=
  platform
    [(objectText CF_A, objectValue CF_A);
     (objectText CF_A_ID, objectValue CF_A_ID)]
    UniqueAmongActive.

(** The environment with no secret configured. *)
Definition noSecrets : Bindings :=
  {| CLOUDFLARE_API_TOKEN := None; CLOUDFLARE_ZONE_ID := None |}.

End Fixture.

(** ** Auxiliary definitions for the statements and proofs *)

Definition DIGITS : list ascii := ["0"; "1"; "2"; "3"; "4"; "5"; "6"; "7"; "8"; "9"]%char.

Fixpoint digitsToNat (acc : nat) (s : string) : nat :=
  match s with
  | EmptyString => acc
  | String c s' => digitsToNat (10 * acc + (nat_of_ascii c - 48)) s'
  end.

(** Patterns without [^] and [$] match the same way at every position and
    before every continuation of the input. *)
Fixpoint anchorFree (r : Pattern) : bool :=
  match r with
  | Chr _ | Range _ _ | Digit => true
  | Seq r1 r2 | Alt r1 r2 => anchorFree r1 && anchorFree r2
  | Opt r1 | Rep _ r1 => anchorFree r1
  | Bol | Eol => false
  end.

Definition endsAt (n : nat) (y : MatchState) : bool :=
  (fst y =? n)%nat && negb (truthyString (snd y)).

(** A string that does not start with white space. *)
Definition headOk (s : string) : Prop :=
  match s with EmptyString => True | String c _ => isWhiteSpace c = false end.

(** A string of white space only. *)
Fixpoint allWhiteSpace (s : string) : bool :=
  match s with
  | EmptyString => true
  | String c s' => isWhiteSpace c && allWhiteSpace s'
  end.

(** A parsed value that is a JSON object. *)
Definition isObject (v : JsValue) : bool :=
  match v with JsObject _ => true | _ => false end.

(** The JSON object that carries the fields of a payload. *)
Definition payloadBody (f : ResolverPayload) : gmap string JsValue :=
  let put (k : string) (v : option string) (o : gmap string JsValue) :=
    match v with Some s => <[k := JsString s]> o | None => o end in
  put "provider" (p_provider f)
    (put "hostname" (p_hostname f)
       (put "alias" (p_alias f)
          (put "ipv4" (p_ipv4 f) ∅))).

(** The rows a list request asks for. *)
Definition listed (params : URLSearchParams) (r : ResolverRow) : bool :=
  (parseBoolean (get params "includeDeleted") || isLive r)
  && match optionalString (get params "provider") with
     | Some p => String.eqb (row_provider r) p
     | None => true
     end
  && match optionalString (get params "hostname") with
     | Some h => String.eqb (row_hostname r) h
     | None => true
     end.

(** The query of a page: the paging parameters in front of the filters. *)
Definition page (limit offset : string) (filters : URLSearchParams) : URLSearchParams :=
  ("limit", limit) :: ("offset", offset) :: filters.


(** The provider's answer counts as a refusal: [!response.ok], or a
    Cloudflare payload whose [success] is [false]. *)
Definition refused (response : FetchResponse) : bool :=
  negb (ok response)
  || (isCloudflareResponse (json response) && successIsFalse (json response)).

(** The statuses a route can answer with. *)
Definition statuses (r : Route) : list Z :=
  match r with
  | GetRoot | GetHealth | ListResolvers _ => [200]
  | PostResolver _ => [201; 400; 409; 422; 502]
  | GetResolver _ _ | DeleteResolver _ => [200; 400; 404]
  | PutResolver _ _ | PatchResolver _ _ => [200; 400; 404; 409; 422; 502]
  | Unmatched => [404]
  end.

(** The routes that can change the table. *)
Definition mutates (r : Route) : bool :=
  match r with
  | PostResolver _ | PutResolver _ _ | PatchResolver _ _ | DeleteResolver _ => true
  | _ => false
  end.

(** The routes that can reach the DNS provider. *)
Definition reconciles (r : Route) : bool :=
  match r with
  | PostResolver _ | PutResolver _ _ | PatchResolver _ _ => true
  | _ => false
  end.

(** A row as the validation lets it into the table. *)
Definition wellFormed (r : ResolverRow) : bool :=
  (1 <=? row_id r)
  && negb (String.eqb (row_provider r) "") && String.eqb (trim (row_provider r)) (row_provider r)
  && negb (String.eqb (row_hostname r) "") && String.eqb (trim (row_hostname r)) (row_hostname r)
  && String.eqb (trim (row_alias r)) (row_alias r)
  && (String.eqb (row_ipv4 r) "" || test IPV4_REGEX (row_ipv4 r))
  && ((row_isDeleted r =? 0) || (row_isDeleted r =? 1)).

Section Outcomes.
Context `{Platform}.

(** The world after [req] was sent and the network moved to [n]. *)
Definition sent (req : FetchRequest) (n : Net) (w : World) : World :=
  {| db := db w; now := now w; net := n; requests := (requests w ++ [req])%list;
     syncs := syncs w; console := console w |}.

(** The world once a call of [syncDnsRecord] is recorded. *)
Definition noted (hostname ipv4 : string) (w : World) : World :=
  snd (noteSync hostname ipv4 w).

(** The row an insert writes. *)
Definition newRow (d : Db) (t : Timestamp) (p h : string) (v : InsertValues) : ResolverRow :=
  {| row_id := nextId d; row_provider := p; row_hostname := h;
     row_alias := v_alias v; row_ipv4 := v_ipv4 v;
     row_isDeleted := 0; row_mtime := t; row_ctime := t |}.

(** The table after an update of the rows that satisfy [cond]. *)
Definition updatedRows (s : SetClause) (t : Timestamp) (cond : ResolverRow → bool)
    (table : list ResolverRow) : list ResolverRow :=
  map (fun r => if cond r then applySet s t r else r) table.

(** What [fetchDnsRecord] makes of the provider's answer. *)
Definition lookupOutcome (hostname : string) (response : FetchResponse)
    : JsError + option JsValue :=
  let data := json response in
  if negb (ok response) || (isCloudflareResponse data && successIsFalse data)
  then
    match extractCloudflareError data with
    | inl e => inl e
    | inr message =>
        inl {| message := "Failed to fetch DNS record for " +:+ hostname +:+ detail message |}
    end
  else if isCloudflareResponse data
  then
    match getProp (Some data) "result" with
    | Some (JsArray result) => inr (head result)
    | _ => inr None
    end
  else inr None.

(** What [syncDnsRecord] makes of the provider's answer to the write. *)
Definition writeOutcome (hostname : string) (existing : option JsValue)
    (response : FetchResponse) : JsError + unit :=
  let data := json response in
  if negb (ok response && (negb (isCloudflareResponse data) || negb (successIsFalse data)))
  then
    match extractCloudflareError data with
    | inl e => inl e
    | inr message =>
        inl {| message :=
                 "Failed to " +:+ (if truthyOpt existing then "update" else "create")
                 +:+ " DNS record for " +:+ hostname +:+ detail message |}
    end
  else inr tt.

Definition CONFLICT_ON_CREATE : Response :=
  jsonError "A resolver with the same provider and hostname already exists" 409 None.

Definition CONFLICT_ON_UPDATE : Response :=
  jsonError "Another resolver already uses this provider and hostname" 409 None.

Definition CREATED_NOT_SYNCED : Response :=
  jsonError "Resolver created but DNS sync failed" 502 None.

Definition UPDATED_NOT_SYNCED : Response :=
  jsonError "Resolver updated but DNS sync failed" 502 None.

Definition NOT_FOUND : Response :=
  jsonError "Resolver not found or already deleted" 404 None.

Definition resolverResponse (row : ResolverRow) (status : Z) : Response :=
  jsonResponse (ResolverBody (toResolverDto row)) status.

(** The controller after a committed insert: reconcile when the row has an
    address, then answer. *)
Definition afterInsert (env : Bindings) (created : ResolverRow) (w1 : World)
    : (JsError + Response) * World :=
  if truthyString (row_ipv4 created)
  then
    match syncDnsRecord env (row_hostname created) (row_ipv4 created) w1 with
    | (inl _, w2) =>
        (inr CREATED_NOT_SYNCED, snd (console_error "Failed to sync DNS after create" w2))
    | (inr _, w2) => (inr (resolverResponse created 201), w2)
    end
  else (inr (resolverResponse created 201), w1).

(** [ipv4Changed && updated.ipv4] *)
Definition mustSync (f : ResolverPayload) (current updated : ResolverRow) : bool :=
  match p_ipv4 f with
  | Some ip => negb (String.eqb ip (row_ipv4 current))
  | None => false
  end && truthyString (row_ipv4 updated).

(** The controller after a committed update. *)
Definition afterUpdate (env : Bindings) (f : ResolverPayload)
    (current updated : ResolverRow) (w1 : World) : (JsError + Response) * World :=
  if mustSync f current updated
  then
    match syncDnsRecord env (row_hostname updated) (row_ipv4 updated) w1 with
    | (inl _, w2) =>
        (inr UPDATED_NOT_SYNCED, snd (console_error "Failed to sync DNS after update" w2))
    | (inr _, w2) => (inr (resolverResponse updated 200), w2)
    end
  else (inr (resolverResponse updated 200), w1).

Definition statusOf (outcome : JsError + Response) : option Z :=
  match outcome with
  | inr response => Some (status response)
  | inl _ => None
  end.

(** The three ways a request can change the table; an insert or an update
    that went through passed the constraint. *)
Inductive TableChange (t : Timestamp) (d d' : Db) : Prop :=
| Unchanged :
    d' = d → TableChange t d d'
| Inserted (row : ResolverRow) :
    d' = {| rows := rows d ++ [row]; lastId := row_id row |} →
    row_id row = nextId d → row_isDeleted row = 0 → row_ctime row = t →
    clashes row (rows d) = false →
    TableChange t d d'
| Updated (s : SetClause) (id : Z) :
    d' = {| rows := updatedRows s t (liveWithId id) (rows d); lastId := lastId d |} →
    set_isDeleted s = None ∨ set_isDeleted s = Some 1 →
    writesKey s
    && existsb (fun r => clashes r (updatedRows s t (liveWithId id) (rows d)))
         (map (applySet s t) (List.filter (liveWithId id) (rows d))) = false →
    TableChange t d d'.

(** No two rows share an id. *)
Definition KeysDistinct (d : Db) : Prop := NoDup (map row_id (rows d)).

(** No two live rows share a (provider, hostname) pair. *)
Definition LivePairsUnique (d : Db) : Prop :=
  ∀ i j a b,
    rows d !! i = Some a → rows d !! j = Some b →
    row_isDeleted a = 0 → row_isDeleted b = 0 →
    row_provider a = row_provider b → row_hostname a = row_hostname b →
    i = j.

(** The deletion flag of every row is 0 or 1. *)
Definition FlagsAreBits (d : Db) : Prop :=
  ∀ r, In r (rows d) → row_isDeleted r = 0 ∨ row_isDeleted r = 1.

(** The record [id] exists and is soft-deleted. *)
Definition Gone (id : Z) (d : Db) : Prop :=
  (∃ r, In r (rows d) ∧ row_id r = id)
  ∧ ∀ r, In r (rows d) → row_id r = id → row_isDeleted r = 1.

(** The common shape of the tail of create and update: reconcile when it is
    due, and answer. *)
Definition reconciled (env : Bindings) (due : bool) (row : ResolverRow)
    (done failed : Response) (note : string) (w1 : World)
    : (JsError + Response) * World :=
  if due
  then
    match syncDnsRecord env (row_hostname row) (row_ipv4 row) w1 with
    | (inl _, w2) => (inr failed, snd (console_error note w2))
    | (inr _, w2) => (inr done, w2)
    end
  else (inr done, w1).

(** The answer has the JSON header, a status and a body that go together,
    and a list of errors only when validation failed. *)
Definition WellShaped (response : Response) : Prop :=
  headers response = JSON_HEADERS
  ∧ (400 <= status response ↔ ∃ msg extra, payload response = ErrorBody msg extra)
  ∧ ∀ msg errs, payload response = ErrorBody msg (Some errs) →
      status response = 422 ∧ msg = "Validation failed" ∧ errs ≠ [].

(** What serving one request did to the world besides the table. *)
Definition Effects (env : Bindings) (r : Route) (w : World) (response : Response)
    (w' : World) : Prop :=
  now w' = now w
  ∧ (mutates r = false → w' = w)
  ∧ (syncs w' = syncs w
     ∨ ∃ row, syncs w' = (syncs w ++ [(row_hostname row, row_ipv4 row)])%list
         ∧ In row (rows (db w')) ∧ row_isDeleted row = 0
         ∧ test IPV4_REGEX (row_ipv4 row) = true
         ∧ reconciles r = true)
  ∧ ∃ sent,
      requests w' = (requests w ++ sent)%list
      ∧ (length sent ≤ 2)%nat ∧ (length (writes sent) ≤ 1)%nat
      ∧ (reconciles r = false ∨ credentials env = None →
         sent = [] ∧ net w' = net w ∧ status response ≠ 502)
      ∧ ∀ q, In q sent →
          ∃ token zoneId, credentials env = Some (token, zoneId)
            ∧ req_headers q = headersOf token
            ∧ startsWith (baseUrlOf zoneId) (url q) = true.

End Outcomes.

(** The outcome of the provider and hostname blocks of the validation. *)
Definition requiredField (body : gmap string JsValue) (key : string) : option string :=
  match body !! key with
  | Some raw => if truthyString (stringOrEmpty raw) then Some (stringOrEmpty raw) else None
  | None => None
  end.

Definition requiredErrors (body : gmap string JsValue) (key : string) (required : bool)
    (empty missing : string) : list string :=
  match body !! key with
  | Some raw => if truthyString (stringOrEmpty raw) then [] else [empty]
  | None => if required then [missing] else []
  end.

Definition ipv4Rejected (raw : JsValue) : bool :=
  truthyString (stringOrEmpty raw) && negb (test IPV4_REGEX (stringOrEmpty raw)).

Definition ipv4Errors (body : gmap string JsValue) : list string :=
  match body !! "ipv4" with
  | Some raw => if ipv4Rejected raw then ["ipv4 must be a valid IPv4 address"] else []
  | None => []
  end.

Definition acceptedFields (body : gmap string JsValue) : ResolverPayload :=
  {| p_provider := requiredField body "provider";
     p_hostname := requiredField body "hostname";
     p_alias := option_map stringOrEmpty (body !! "alias");
     p_ipv4 :=
       match body !! "ipv4" with
       | Some raw => if ipv4Rejected raw then None else Some (stringOrEmpty raw)
       | None => None
       end |}.

Definition anyFieldErrors (required : bool) (f : ResolverPayload) : list string :=
  if required && (keyCount f =? 0)%nat then [ERR_ANY_FIELD] else [].

(** The specification's condition for the any-field error: none of the
    recognized fields is present in the body. *)
Definition NoFieldPresent (body : gmap string JsValue) : Prop :=
  body !! "provider" = None ∧ body !! "hostname" = None
  ∧ body !! "alias" = None ∧ body !! "ipv4" = None.

(** The program's condition: some recognized field is present with a value
    the validation accepts. *)
Definition SomeFieldAccepted (body : gmap string JsValue) : Prop :=
  (∃ s, body !! "provider" = Some (JsString s) ∧ trim s ≠ "")
  ∨ (∃ s, body !! "hostname" = Some (JsString s) ∧ trim s ≠ "")
  ∨ is_Some (body !! "alias")
  ∨ (∃ raw, body !! "ipv4" = Some raw
            ∧ (stringOrEmpty raw = "" ∨ StrictDottedQuad (stringOrEmpty raw))).

(** * Properties *)

(** ** Strings and the matcher *)
Lemma append_assoc (a b c : string) : (a +:+ b) +:+ c = a +:+ (b +:+ c).
Proof.
  induction a as [|x a IH]; [reflexivity|].
  change (String x ((a +:+ b) +:+ c) = String x (a +:+ (b +:+ c))).
  f_equal. exact IH.
Qed.

Lemma append_nil_r (a : string) : a +:+ "" = a.
Proof.
  induction a as [|x a IH]; [reflexivity|].
  change (String x (a +:+ "") = String x a). f_equal. exact IH.
Qed.

Lemma charMatcher_true (P : ascii -> bool) (p : nat) (s : string) (c : MatchState -> bool) :
  charMatcher P (p, s) c = true ↔
  ∃ b t, s = String b t ∧ P b = true ∧ c (S p, t) = true.
Proof.
  unfold charMatcher; simpl. destruct s as [|b t].
  - split; [discriminate | intros (b & t & Hs & _); discriminate].
  - rewrite andb_true_iff. split.
    + intros [Hb Hc]. eauto.
    + intros (b' & t' & Hs & Hb & Hc). injection Hs as -> ->. auto.
Qed.

Lemma inRange_digit_cases (lo hi b : ascii) :
  isDigit lo = true → isDigit hi = true →
  inRange lo hi b = true →
  In b (List.filter (inRange lo hi) DIGITS).
Proof.
  intros Hlo Hhi Hb. apply filter_In. split; [|exact Hb].
  assert (isDigit b = true) as Hd.
  { unfold isDigit, inRange in *.
    rewrite andb_true_iff in *. rewrite !Nat.leb_le in *.
    change (nat_of_ascii "0") with 48%nat in *. change (nat_of_ascii "9") with 57%nat in *. lia. }
  clear -Hd.
  destruct b as [[] [] [] [] [] [] [] []]; vm_compute in Hd; try discriminate; vm_compute; tauto.
Qed.

Ltac char_step H :=
  apply charMatcher_true in H;
  let b := fresh "b" in let t := fresh "t" in
  let Hs := fresh "Hs" in let Hb := fresh "Hb" in
  destruct H as (b & t & Hs & Hb & H); cbn beta in H;
  first [ injection Hs as -> -> | subst ].

Ltac enum_char Hb :=
  first
    [ apply Ascii.eqb_eq in Hb; subst
    | apply inRange_digit_cases in Hb; [| reflexivity | reflexivity];
      vm_compute in Hb; intuition subst ].

Lemma matcher_OCTET_elim (p : nat) (s : string) (c : MatchState -> bool) :
  matcher OCTET (p, s) c = true →
  ∃ n t, (n < 256)%nat ∧ s = decimal n +:+ t
         ∧ c ((String.length (decimal n) + p)%nat, t) = true.
Proof.
  unfold OCTET. cbn [matcher]. rewrite !orb_true_iff.
  intros [[[H|H]|H]|[H|H]].
  - char_step H. char_step H. char_step H.
    enum_char Hb; enum_char Hb0; enum_char Hb1;
      match goal with |- context [String ?a (String ?b (String ?c ?t) )] =>
        exists (digitsToNat 0 (String a (String b (String c ""))) ), t end;
      (split; [apply Nat.ltb_lt; vm_compute; reflexivity | split; [reflexivity | exact H]]).
  - char_step H. char_step H. char_step H. 
    enum_char Hb; enum_char Hb0; enum_char Hb1;
      match goal with |- context [String ?a (String ?b (String ?c ?t) )] =>
        exists (digitsToNat 0 (String a (String b (String c ""))) ), t end;
      (split; [apply Nat.ltb_lt; vm_compute; reflexivity | split; [reflexivity | exact H]]).
  - char_step H. char_step H. char_step H. 
    enum_char Hb; enum_char Hb0; enum_char Hb1;
      match goal with |- context [String ?a (String ?b (String ?c ?t) )] =>
        exists (digitsToNat 0 (String a (String b (String c ""))) ), t end;
      (split; [apply Nat.ltb_lt; vm_compute; reflexivity | split; [reflexivity | exact H]]).
  - char_step H. char_step H.
    enum_char Hb; enum_char Hb0;
      match goal with |- context [String ?a (String ?b ?t)] =>
        exists (digitsToNat 0 (String a (String b ""))), t end;
      (split; [apply Nat.ltb_lt; vm_compute; reflexivity | split; [reflexivity | exact H]]).
  - char_step H.
    enum_char Hb;
      match goal with |- context [String ?a ?t] =>
        exists (digitsToNat 0 (String a "")), t end;
      (split; [apply Nat.ltb_lt; vm_compute; reflexivity | split; [reflexivity | exact H]]).
Qed.

Lemma charMatcher_frame (P : ascii → bool) (p q : nat) (s t : string)
    (k c : MatchState → bool) :
  (∀ q' u, k (q', u) = true → c ((q' + q)%nat, u +:+ t) = true) →
  charMatcher P (p, s) k = true →
  charMatcher P ((p + q)%nat, s +:+ t) c = true.
Proof.
  intros Hkc. unfold charMatcher; simpl. destruct s as [|b s']; [discriminate|].
  simpl. rewrite !andb_true_iff. intros [Hb Hk]. split; [exact Hb|].
  apply (Hkc (S p)), Hk.
Qed.

Lemma matcher_frame (r : Pattern) :
  anchorFree r = true →
  ∀ (p q : nat) (s t : string) (k c : MatchState → bool),
    (∀ q' u, k (q', u) = true → c ((q' + q)%nat, u +:+ t) = true) →
    matcher r (p, s) k = true →
    matcher r ((p + q)%nat, s +:+ t) c = true.
Proof.
  induction r as [a|lo hi| |r1 IH1 r2 IH2|r1 IH1 r2 IH2|r1 IH1|n r1 IH1| |];
    cbn [anchorFree matcher]; intros Hfree p q s t k c Hkc;
    try discriminate; try (apply charMatcher_frame; exact Hkc).
  - apply andb_true_iff in Hfree as [H1 H2].
    apply IH1; [exact H1|]. intros q' u. apply IH2; assumption.
  - apply andb_true_iff in Hfree as [H1 H2]. rewrite !orb_true_iff.
    intros [Hm|Hm]; [left; eapply IH1 | right; eapply IH2]; eassumption.
  - rewrite !orb_true_iff.
    intros [Hm|Hm]; [left; eapply IH1; eassumption | right; apply Hkc, Hm].
  - revert p s. induction n as [|n IHn]; intros p s.
    + apply Hkc.
    + apply IH1; [exact Hfree|]. intros q' u. apply IHn.
Qed.

Lemma OCTET_table :
  forallb (fun n => matcher OCTET (O, decimal n) (endsAt (String.length (decimal n))))
          (seq 0 256) = true.
Proof. vm_compute. reflexivity. Qed.

Lemma matcher_OCTET_intro (p n : nat) (t : string) (c : MatchState -> bool) :
  (n < 256)%nat →
  c ((String.length (decimal n) + p)%nat, t) = true →
  matcher OCTET (p, decimal n +:+ t) c = true.
Proof.
  intros Hn Hc.
  apply (matcher_frame OCTET eq_refl O p (decimal n) t
           (endsAt (String.length (decimal n))) c).
  - intros q' u Hk. unfold endsAt in Hk; simpl in Hk.
    apply andb_true_iff in Hk as [Hq Hu]. apply Nat.eqb_eq in Hq. subst q'.
    destruct u; [exact Hc | discriminate].
  - pose proof OCTET_table as Htab. rewrite forallb_forall in Htab.
    apply Htab, in_seq. lia.
Qed.

Lemma dot_step (p : nat) (s : string) (c : MatchState → bool) :
  matcher (Seq (Chr ".") OCTET) (p, s) c = true ↔
  ∃ n t, (n < 256)%nat ∧ s = "." +:+ decimal n +:+ t
         ∧ c ((String.length (decimal n) + S p)%nat, t) = true.
Proof.
  cbn [matcher]. rewrite charMatcher_true. split.
  - intros (b & t & -> & Hb & Hm). apply Ascii.eqb_eq in Hb. subst b.
    apply matcher_OCTET_elim in Hm as (n & t' & Hn & -> & Hc).
    exists n, t'. auto.
  - intros (n & t & Hn & -> & Hc). exists "."%char, (decimal n +:+ t).
    split; [reflexivity|]. split; [reflexivity|].
    apply matcher_OCTET_intro; assumption.
Qed.

Lemma test_IPV4_REGEX (s : string) :
  test IPV4_REGEX s = true ↔ StrictDottedQuad s.
Proof.
  unfold test, StrictDottedQuad. rewrite existsb_exists. split.
  - intros (i & _ & Hm). unfold IPV4_REGEX in Hm. cbn [matcher fst] in Hm.
    apply andb_true_iff in Hm as [Hi Hm]. apply Nat.eqb_eq in Hi. subst i.
    cbn [dropString] in Hm.
    apply matcher_OCTET_elim in Hm as (a & t & Ha & -> & Hm).
    apply (proj1 (dot_step _ _ _)) in Hm as (b & t1 & Hb & -> & Hm).
    apply (proj1 (dot_step _ _ _)) in Hm as (c & t2 & Hc & -> & Hm).
    apply (proj1 (dot_step _ _ _)) in Hm as (d & t3 & Hd & -> & Hm).
    cbn [snd] in Hm. destruct t3; [|discriminate].
    exists a, b, c, d. split; [auto|].
    rewrite append_nil_r. reflexivity.
  - intros (a & b & c & d & (Ha & Hb & Hc & Hd) & ->).
    exists O. split; [apply in_seq; lia|].
    unfold IPV4_REGEX. cbn [matcher fst dropString]. 
    apply matcher_OCTET_intro; [exact Ha|].
    apply (proj2 (dot_step _ _ _)). exists b, ("." +:+ decimal c +:+ "." +:+ decimal d).
    split; [exact Hb|]. split; [reflexivity|].
    apply (proj2 (dot_step _ _ _)). exists c, ("." +:+ decimal d).
    split; [exact Hc|]. split; [reflexivity|].
    apply (proj2 (dot_step _ _ _)). exists d, "".
    split; [exact Hd|]. split; [|reflexivity].
    rewrite append_nil_r. reflexivity.
Qed.

(** ** Validation *)

Lemma checkProvider_eq body required f e :
  checkProvider body required {| fields := f; errors := e |}
  = {| fields := {| p_provider := match requiredField body "provider" with
                                  | Some x => Some x | None => p_provider f end;
                    p_hostname := p_hostname f; p_alias := p_alias f; p_ipv4 := p_ipv4 f |};
       errors := (e ++ requiredErrors body "provider" required
                         "provider cannot be empty" "provider is required")%list |}.
Proof.
  unfold checkProvider, requiredField, requiredErrors, push.
  destruct (body !! "provider") as [raw|].
  - destruct (truthyString (stringOrEmpty raw)); cbn [negb fields errors];
      [rewrite app_nil_r|]; destruct f; reflexivity.
  - destruct required; cbn [fields errors]; [|rewrite app_nil_r]; destruct f; reflexivity.
Qed.

Lemma checkHostname_eq body required f e :
  checkHostname body required {| fields := f; errors := e |}
  = {| fields := {| p_provider := p_provider f;
                    p_hostname := match requiredField body "hostname" with
                                  | Some x => Some x | None => p_hostname f end;
                    p_alias := p_alias f; p_ipv4 := p_ipv4 f |};
       errors := (e ++ requiredErrors body "hostname" required
                         "hostname cannot be empty" "hostname is required")%list |}.
Proof.
  unfold checkHostname, requiredField, requiredErrors, push.
  destruct (body !! "hostname") as [raw|].
  - destruct (truthyString (stringOrEmpty raw)); cbn [negb fields errors];
      [rewrite app_nil_r|]; destruct f; reflexivity.
  - destruct required; cbn [fields errors]; [|rewrite app_nil_r]; destruct f; reflexivity.
Qed.

Lemma checkAlias_eq body f e :
  checkAlias body {| fields := f; errors := e |}
  = {| fields := {| p_provider := p_provider f; p_hostname := p_hostname f;
                    p_alias := match body !! "alias" with
                               | Some raw => Some (stringOrEmpty raw) | None => p_alias f end;
                    p_ipv4 := p_ipv4 f |};
       errors := e |}.
Proof.
  unfold checkAlias. destruct (body !! "alias"); cbn [fields errors]; destruct f; reflexivity.
Qed.

Lemma checkIpv4_eq body f e :
  checkIpv4 body {| fields := f; errors := e |}
  = {| fields := {| p_provider := p_provider f; p_hostname := p_hostname f;
                    p_alias := p_alias f;
                    p_ipv4 := match body !! "ipv4" with
                              | Some raw => if ipv4Rejected raw then p_ipv4 f
                                            else Some (stringOrEmpty raw)
                              | None => p_ipv4 f end |};
       errors := (e ++ ipv4Errors body)%list |}.
Proof.
  unfold checkIpv4, ipv4Errors, ipv4Rejected, push.
  destruct (body !! "ipv4") as [raw|]; [|rewrite app_nil_r; destruct f; reflexivity].
  destruct (truthyString (stringOrEmpty raw) && negb (test IPV4_REGEX (stringOrEmpty raw)));
    cbn [fields errors]; [|rewrite app_nil_r]; destruct f; reflexivity.
Qed.

Lemma validate_eq (body : gmap string JsValue) (options : ValidateOptions) :
  validateResolverPayload body options
  = {| fields := acceptedFields body;
       errors := (requiredErrors body "provider" (requireProvider options)
                    "provider cannot be empty" "provider is required"
                  ++ requiredErrors body "hostname" (requireHostname options)
                       "hostname cannot be empty" "hostname is required"
                  ++ ipv4Errors body
                  ++ anyFieldErrors (requireAnyField options) (acceptedFields body))%list |}.
Proof.
  unfold validateResolverPayload.
  rewrite checkProvider_eq, checkHostname_eq, checkAlias_eq, checkIpv4_eq.
  cbn [p_provider p_hostname p_alias p_ipv4 emptyPayload app].
  unfold checkAnyField, anyFieldErrors, push. cbn [fields errors].
  replace {| p_provider := match requiredField body "provider" with Some x => Some x | None => None end;
             p_hostname := match requiredField body "hostname" with Some x => Some x | None => None end;
             p_alias := match body !! "alias" with Some raw => Some (stringOrEmpty raw) | None => None end;
             p_ipv4 := match body !! "ipv4" with
                       | Some raw => if ipv4Rejected raw then None else Some (stringOrEmpty raw)
                       | None => None end |}
    with (acceptedFields body).
  2:{ unfold acceptedFields. destruct (requiredField body "provider"), (requiredField body "hostname"),
        (body !! "alias"); reflexivity. }
  destruct (requireAnyField options && (keyCount (acceptedFields body) =? 0)%nat).
  - cbn [fields errors]. rewrite <- !app_assoc. reflexivity.
  - rewrite !app_nil_r, <- !app_assoc. reflexivity.
Qed.

Lemma required_errors_cases body key required e1 e2 x :
  In x (requiredErrors body key required e1 e2) → x = e1 ∨ x = e2.
Proof.
  unfold requiredErrors.
  destruct (body !! key) as [raw|]; [destruct (truthyString _)|destruct required];
    simpl; intuition (subst; auto).
Qed.

Lemma ipv4_errors_cases body x :
  In x (ipv4Errors body) → x = "ipv4 must be a valid IPv4 address".
Proof.
  unfold ipv4Errors. destruct (body !! "ipv4") as [raw|]; [destruct (ipv4Rejected raw)|];
    simpl; intuition (subst; auto).
Qed.

Lemma any_errors_cases required f x :
  In x (anyFieldErrors required f) → x = ERR_ANY_FIELD.
Proof.
  unfold anyFieldErrors. destruct (_ && _); simpl; intuition (subst; auto).
Qed.

Lemma in_errors body options x :
  In x (errors (validateResolverPayload body options)) ↔
  In x (requiredErrors body "provider" (requireProvider options)
          "provider cannot be empty" "provider is required")
  ∨ In x (requiredErrors body "hostname" (requireHostname options)
            "hostname cannot be empty" "hostname is required")
  ∨ In x (ipv4Errors body)
  ∨ In x (anyFieldErrors (requireAnyField options) (acceptedFields body)).
Proof. rewrite validate_eq. cbn [errors]. rewrite !in_app_iff. tauto. Qed.

Lemma ipv4_error_iff body options :
  In "ipv4 must be a valid IPv4 address" (errors (validateResolverPayload body options))
  ↔ ∃ raw, body !! "ipv4" = Some raw ∧ ipv4Rejected raw = true.
Proof.
  rewrite in_errors. split.
  - intros [Hin|[Hin|[Hin|Hin]]].
    + apply required_errors_cases in Hin as [Hx|Hx]; discriminate Hx.
    + apply required_errors_cases in Hin as [Hx|Hx]; discriminate Hx.
    + unfold ipv4Errors in Hin. destruct (body !! "ipv4") as [raw|]; [|destruct Hin].
      destruct (ipv4Rejected raw) eqn:Hrej; [eauto | destruct Hin].
    + apply any_errors_cases in Hin. discriminate Hin.
  - intros (raw & Hraw & Hrej). right; right; left.
    unfold ipv4Errors. rewrite Hraw, Hrej. left; reflexivity.
Qed.

Lemma any_field_error_iff body options :
  In ERR_ANY_FIELD (errors (validateResolverPayload body options))
  ↔ requireAnyField options = true ∧ keyCount (acceptedFields body) = O.
Proof.
  rewrite in_errors. split.
  - intros [Hin|[Hin|[Hin|Hin]]].
    + apply required_errors_cases in Hin as [Hx|Hx]; discriminate Hx.
    + apply required_errors_cases in Hin as [Hx|Hx]; discriminate Hx.
    + apply ipv4_errors_cases in Hin. discriminate Hin.
    + unfold anyFieldErrors in Hin.
      destruct (requireAnyField options); [|destruct Hin].
      destruct (keyCount (acceptedFields body) =? 0)%nat eqn:Hk; [|destruct Hin].
      apply Nat.eqb_eq in Hk. auto.
  - intros [Hreq Hk]. right; right; right.
    unfold anyFieldErrors. rewrite Hreq, Hk. left; reflexivity.
Qed.


Lemma ipv4Rejected_string (s : string) :
  ipv4Rejected (JsString s) = true ↔ trim s ≠ "" ∧ ¬ StrictDottedQuad (trim s).
Proof.
  unfold ipv4Rejected. cbn [stringOrEmpty].
  rewrite andb_true_iff, negb_true_iff, <- not_true_iff_false, test_IPV4_REGEX.
  destruct (trim s); cbn [truthyString]; split; intros [H1 H2];
    (split; [congruence|exact H2]).
Qed.

Lemma ipv4_accepted (body : gmap string JsValue) (options : ValidateOptions) (raw : JsValue) :
  body !! "ipv4" = Some raw →
  ipv4Rejected raw = false →
  p_ipv4 (fields (validateResolverPayload body options)) = Some (stringOrEmpty raw).
Proof.
  intros Hraw Hrej. rewrite validate_eq. cbn [fields acceptedFields p_ipv4].
  rewrite Hraw, Hrej. reflexivity.
Qed.

(** C6: with [ipv4] bound to a string, the validation reports
    "ipv4 must be a valid IPv4 address" exactly when the trimmed string is
    neither empty nor a strict dotted quad (four octets 0 to 255); otherwise
    the trimmed string is the normalized field. "256.1.1.1", "1.2.3",
    "1.2.3.4.5" and "abc" are rejected; "0.0.0.0", "255.255.255.255",
    "192.168.1.1" and "" are accepted. *)
Theorem ipv4_validation_is_strict_dotted_quad
    (body : gmap string JsValue) (options : ValidateOptions) (s : string) :
  body !! "ipv4" = Some (JsString s) →
  let v := validateResolverPayload body options in
  let rejected := In "ipv4 must be a valid IPv4 address" (errors v) in
  (rejected ↔ trim s ≠ "" ∧ ¬ StrictDottedQuad (trim s))
  ∧ (¬ rejected → p_ipv4 (fields v) = Some (trim s))
  ∧ (In s ["256.1.1.1"; "1.2.3"; "1.2.3.4.5"; "abc"] → rejected)
  ∧ (In s ["0.0.0.0"; "255.255.255.255"; "192.168.1.1"; ""] →
     ¬ rejected ∧ p_ipv4 (fields v) = Some s).
Proof.
  intros Hs v rejected.
  assert (rejected ↔ ipv4Rejected (JsString s) = true) as Hiff.
  { unfold rejected, v. rewrite ipv4_error_iff. split.
    - intros (raw & Hraw & Hrej). congruence.
    - intros Hrej. eauto. }
  split; [rewrite Hiff; apply ipv4Rejected_string|].
  split.
  { intros Hn. apply (ipv4_accepted body options _ Hs).
    destruct (ipv4Rejected (JsString s)); [tauto | reflexivity]. }
  split.
  - intros Hin. apply Hiff. simpl in Hin.
    destruct Hin as [<-|[<-|[<-|[<-|[]]]]]; vm_compute; reflexivity.
  - intros Hin.
    assert (ipv4Rejected (JsString s) = false ∧ trim s = s) as [Hrej Htrim].
    { simpl in Hin. destruct Hin as [<-|[<-|[<-|[<-|[]]]]]; vm_compute; split; reflexivity. }
    split.
    + rewrite Hiff, Hrej. discriminate.
    + pose proof (ipv4_accepted body options _ Hs Hrej) as Hacc.
      cbn [stringOrEmpty] in Hacc. rewrite Htrim in Hacc. exact Hacc.
Qed.

Lemma ipv4_validation_is_strict_dotted_quad_witness :
  let body : gmap string JsValue := {["ipv4" := JsString " 192.168.1.1 "]} in
  let v := validateResolverPayload body updateOptions in
  let rejected := In "ipv4 must be a valid IPv4 address" (errors v) in
  (rejected ↔ trim " 192.168.1.1 " ≠ "" ∧ ¬ StrictDottedQuad (trim " 192.168.1.1 "))
  ∧ (¬ rejected → p_ipv4 (fields v) = Some (trim " 192.168.1.1 "))
  ∧ (In " 192.168.1.1 " ["256.1.1.1"; "1.2.3"; "1.2.3.4.5"; "abc"] → rejected)
  ∧ (In " 192.168.1.1 " ["0.0.0.0"; "255.255.255.255"; "192.168.1.1"; ""] →
     ¬ rejected ∧ p_ipv4 (fields v) = Some " 192.168.1.1 ").
Proof.
  exact (ipv4_validation_is_strict_dotted_quad
           {["ipv4" := JsString " 192.168.1.1 "]} updateOptions " 192.168.1.1 " eq_refl).
Defined.

Example ipv4_rejected_examples :
  map (test IPV4_REGEX) ["256.1.1.1"; "1.2.3"; "1.2.3.4.5"; "abc"; "01.2.3.4"; "1.2.3.4 "]
  = [false; false; false; false; false; false].
Proof. vm_compute. reflexivity. Qed.

Example ipv4_accepted_examples :
  map (test IPV4_REGEX) ["0.0.0.0"; "255.255.255.255"; "192.168.1.1"; "10.0.0.249"]
  = [true; true; true; true].
Proof. vm_compute. reflexivity. Qed.

Lemma accepted_key_count (body : gmap string JsValue) :
  keyCount (acceptedFields body) = O ↔ ¬ SomeFieldAccepted body.
Proof.
  unfold keyCount, acceptedFields, SomeFieldAccepted, requiredField.
  cbn [p_provider p_hostname p_alias p_ipv4].
  split.
  - intros Hk [(s & Hs & Ht)|[(s & Hs & Ht)|[[a Ha]|(raw & Hraw & Hok)]]].
    + rewrite Hs in Hk. cbn [stringOrEmpty] in Hk.
      destruct (trim s); [congruence | discriminate Hk].
    + rewrite Hs in Hk. cbn [stringOrEmpty] in Hk.
      destruct (trim s); [congruence|].
      cbn [truthyString defined] in Hk. lia.
    + rewrite Ha in Hk. cbn [option_map defined] in Hk. lia.
    + rewrite Hraw in Hk.
      assert (ipv4Rejected raw = false) as Hrej.
      { unfold ipv4Rejected. destruct Hok as [->|Hq]; [reflexivity|].
        apply test_IPV4_REGEX in Hq. rewrite Hq. apply andb_false_r. }
      rewrite Hrej in Hk. cbn [defined] in Hk. lia.
  - intros Hnone.
    destruct (body !! "provider") as [rp|] eqn:Hp.
    { destruct rp as [| | |s| |]; cbn [stringOrEmpty truthyString defined] in *;
        try (destruct (trim s) eqn:Ht; cbn [truthyString defined];
             [|exfalso; apply Hnone; left; exists s; split; [reflexivity|congruence]]).
      all: destruct (body !! "hostname") as [rh|] eqn:Hh.
      all: try (destruct rh as [| | |s'| |]; cbn [stringOrEmpty truthyString defined] in *;
        try (destruct (trim s') eqn:Ht'; cbn [truthyString defined];
             [|exfalso; apply Hnone; right; left; exists s'; split; [reflexivity|congruence]])).
      all: destruct (body !! "alias") as [ra|] eqn:Ha;
        [exfalso; apply Hnone; right; right; left; eauto|].
      all: destruct (body !! "ipv4") as [ri|] eqn:Hi; [|reflexivity].
      all: destruct (ipv4Rejected ri) eqn:Hrej; [reflexivity|].
      all: exfalso; apply Hnone; right; right; right; exists ri; split; [reflexivity|].
      all: unfold ipv4Rejected in Hrej; apply andb_false_iff in Hrej as [Hr|Hr];
        [left; destruct (stringOrEmpty ri); [reflexivity|discriminate]
        |right; apply test_IPV4_REGEX; apply negb_false_iff in Hr; exact Hr]. }
    destruct (body !! "hostname") as [rh|] eqn:Hh.
    all: try (destruct rh as [| | |s'| |]; cbn [stringOrEmpty truthyString defined] in *;
        try (destruct (trim s') eqn:Ht'; cbn [truthyString defined];
             [|exfalso; apply Hnone; right; left; exists s'; split; [reflexivity|congruence]])).
    all: destruct (body !! "alias") as [ra|] eqn:Ha;
        [exfalso; apply Hnone; right; right; left; eauto|].
    all: destruct (body !! "ipv4") as [ri|] eqn:Hi; [|reflexivity].
    all: destruct (ipv4Rejected ri) eqn:Hrej; [reflexivity|].
    all: exfalso; apply Hnone; right; right; right; exists ri; split; [reflexivity|].
    all: unfold ipv4Rejected in Hrej; apply andb_false_iff in Hrej as [Hr|Hr];
        [left; destruct (stringOrEmpty ri); [reflexivity|discriminate]
        |right; apply test_IPV4_REGEX; apply negb_false_iff in Hr; exact Hr].
Qed.

(** C8, as stated, fails: with [{"provider": ""}] a recognized field is
    present, yet the update-mode validation reports the any-field error. *)
Lemma any_field_error_with_provider_present :
  let body : gmap string JsValue := {["provider" := JsString ""]} in
  ¬ (In ERR_ANY_FIELD (errors (validateResolverPayload body updateOptions))
     ↔ NoFieldPresent body).
Proof.
  intros body [Hin _].
  assert (NoFieldPresent body) as (Hp & _).
  { apply Hin. vm_compute. tauto. }
  vm_compute in Hp. discriminate Hp.
Qed.

(** C8, amended: the any-field error is reported exactly in update mode
    ([requireAnyField]) when no recognized field is present with an accepted
    value: provider or hostname bound to a string that is not empty after
    trimming, alias present, or ipv4 present and either unset (empty or not
    a string) or a strict dotted quad. In particular it is reported when none
    of the four fields is present, and not reported when some field is
    accepted. *)
Theorem any_field_error_iff_no_field_accepted
    (body : gmap string JsValue) (options : ValidateOptions) :
  let reported :=
    In ERR_ANY_FIELD (errors (validateResolverPayload body options)) in
  (reported ↔ requireAnyField options = true ∧ ¬ SomeFieldAccepted body)
  ∧ (requireAnyField options = true ∧ NoFieldPresent body → reported)
  ∧ (SomeFieldAccepted body → ¬ reported).
Proof.
  intros reported.
  assert (reported ↔ requireAnyField options = true ∧ ¬ SomeFieldAccepted body) as Hiff.
  { unfold reported. rewrite any_field_error_iff, accepted_key_count. reflexivity. }
  split; [exact Hiff|]. split.
  - intros [Hreq (Hp & Hh & Ha & Hi)]. apply Hiff. split; [exact Hreq|].
    intros [(s & Hs & _)|[(s & Hs & _)|[[a Hs]|(raw & Hs & _)]]]; congruence.
  - intros Hacc Hrep. apply Hiff in Hrep. tauto.
Qed.

(** ** The DNS updater *)

Section Dns.
Context `{Platform}.

Lemma fetchM_run (req : FetchRequest) (w : World) :
  fetchM req w = (fst (fetch req (net w)), sent req (snd (fetch req (net w))) w).
Proof. unfold fetchM, sent. destruct (fetch req (net w)); reflexivity. Qed.

Lemma fetchDnsRecord_run (baseUrl : string) hdrs (hostname : string) (w : World) :
  fetchDnsRecord baseUrl hdrs hostname w
  = (match fst (fetch (lookupRequest baseUrl hdrs hostname) (net w)) with
     | inl e => inl e
     | inr response => lookupOutcome hostname response
     end,
     sent (lookupRequest baseUrl hdrs hostname)
          (snd (fetch (lookupRequest baseUrl hdrs hostname) (net w))) w).
Proof.
  unfold lookupOutcome, fetchDnsRecord, bind, lift, throw, ret. rewrite fetchM_run.
  destruct (fetch (lookupRequest baseUrl hdrs hostname) (net w)) as [[e|response] n];
    cbn [fst snd]; [reflexivity|].
  destruct (negb (ok response) || _).
  - destruct (extractCloudflareError (json response)); reflexivity.
  - destruct (isCloudflareResponse (json response)); [|reflexivity].
    destruct (getProp (Some (json response)) "result") as [[| | | |l|]|]; reflexivity.
Qed.

Lemma sync_empty (env : Bindings) (hostname : string) (w : World) :
  syncDnsRecord env hostname "" w = (inr tt, noted hostname "" w).
Proof. reflexivity. Qed.

Lemma sync_no_credentials (env : Bindings) (hostname ipv4 : string) (w : World) :
  credentials env = None →
  ∃ msg, syncDnsRecord env hostname ipv4 w
         = (inr tt, if truthyString ipv4
                    then snd (console_warn msg (noted hostname ipv4 w))
                    else noted hostname ipv4 w).
Proof.
  intros Hc. unfold syncDnsRecord, bind, noted, noteSync. cbn [snd].
  destruct (truthyString ipv4); cbn [negb]; [|exists ""; reflexivity].
  rewrite Hc. eexists. reflexivity.
Qed.

Lemma sync_with_credentials (env : Bindings) (hostname ipv4 token zoneId : string) (w : World) :
  truthyString ipv4 = true →
  credentials env = Some (token, zoneId) →
  syncDnsRecord env hostname ipv4 w
  = match fetchDnsRecord (baseUrlOf zoneId) (headersOf token) hostname
            (noted hostname ipv4 w) with
    | (inl e, w1) => (inl e, w1)
    | (inr existing, w1) =>
        if upToDate existing ipv4 then (inr tt, w1)
        else
          let wr := writeRequest (baseUrlOf zoneId) (headersOf token) hostname ipv4 existing in
          (match fst (fetch wr (net w1)) with
           | inl e => inl e
           | inr response => writeOutcome hostname existing response
           end,
           sent wr (snd (fetch wr (net w1))) w1)
    end.
Proof.
  intros Hip Hc. unfold syncDnsRecord, bind, noted, noteSync. cbn [snd].
  rewrite Hip, Hc. cbn [negb].
  destruct (fetchDnsRecord _ _ _ _) as [[e|existing] w1]; [reflexivity|].
  destruct (upToDate existing ipv4); [reflexivity|].
  rewrite fetchM_run. cbn zeta.
  destruct (fetch _ (net w1)) as [[e|response] n]; cbn [fst snd]; [reflexivity|].
  unfold writeOutcome, lift, throw, ret.
  destruct (negb _); [|reflexivity].
  destruct (extractCloudflareError (json response)); reflexivity.
Qed.

Lemma isWrite_lookup baseUrl hdrs hostname :
  isWrite (lookupRequest baseUrl hdrs hostname) = false.
Proof. reflexivity. Qed.

Lemma isWrite_write baseUrl hdrs hostname ipv4 existing :
  isWrite (writeRequest baseUrl hdrs hostname ipv4 existing) = true.
Proof. unfold isWrite, writeRequest. cbn [method]. destruct (truthyOpt existing); reflexivity. Qed.

Lemma writes_app (l1 l2 : list FetchRequest) : writes (l1 ++ l2) = (writes l1 ++ writes l2)%list.
Proof. unfold writes. apply List.filter_app. Qed.

(** Every reconcile leaves the table and the clock alone, is recorded once,
    and sends at most the lookup followed by one write. *)
Lemma sync_frame (env : Bindings) (hostname ipv4 : string) (w : World) :
  let w' := snd (syncDnsRecord env hostname ipv4 w) in
  db w' = db w ∧ now w' = now w
  ∧ syncs w' = (syncs w ++ [(hostname, ipv4)])%list
  ∧ (writes (requests w') = writes (requests w)
     ∨ ∃ wr, isWrite wr = true ∧ writes (requests w') = (writes (requests w) ++ [wr])%list).
Proof.
  intros w'. subst w'.
  destruct (truthyString ipv4) eqn:Hip.
  2:{ destruct ipv4; [|discriminate]. rewrite sync_empty. cbn. auto. }
  destruct (credentials env) as [[token zoneId]|] eqn:Hc.
  2:{ destruct (sync_no_credentials env hostname ipv4 w Hc) as [msg ->]. rewrite Hip. cbn. auto. }
  rewrite (sync_with_credentials env hostname ipv4 token zoneId w Hip Hc).
  rewrite fetchDnsRecord_run.
  destruct (fst (fetch (lookupRequest _ _ _) _)) as [e|response].
  { cbn. rewrite writes_app. cbn. rewrite app_nil_r. auto. }
  destruct (lookupOutcome hostname response) as [e|existing].
  { cbn. rewrite writes_app. cbn. rewrite app_nil_r. auto. }
  destruct (upToDate existing ipv4).
  { cbn. rewrite writes_app. cbn. rewrite app_nil_r. auto. }
  cbn [snd sent db now syncs requests noted noteSync].
  repeat split; try reflexivity. right. eexists. split; [apply isWrite_write|].
  rewrite !writes_app. cbn [writes List.filter]. rewrite isWrite_lookup, isWrite_write.
  rewrite app_nil_r. reflexivity.
Qed.

End Dns.

(** ** The table *)

Section Store.
Context `{Platform}.

Lemma fold_max_ge (l : list Z) (x : Z) : In x l → x <= fold_right Z.max 0 l.
Proof.
  induction l as [|y l IH]; [intros []|].
  intros [->|Hin]; cbn [fold_right]; [lia|]. specialize (IH Hin). lia.
Qed.

Lemma nextId_fresh (d : Db) (r : ResolverRow) : In r (rows d) → row_id r < nextId d.
Proof.
  intros Hin. unfold nextId.
  assert (row_id r <= fold_right Z.max 0 (map row_id (rows d))).
  { apply fold_max_ge, in_map, Hin. }
  lia.
Qed.

Lemma indexed_live (r : ResolverRow) : row_isDeleted r = 0 → indexed r = true.
Proof. intros Hr. unfold indexed. rewrite Hr. destruct uniqueScope; reflexivity. Qed.

Lemma samePair_true (a b : ResolverRow) :
  samePair a b = true ↔ row_provider a = row_provider b ∧ row_hostname a = row_hostname b.
Proof. unfold samePair. rewrite andb_true_iff, !String.eqb_eq. reflexivity. Qed.

Lemma insert_run (v : InsertValues) (p h : string) (w : World) :
  v_provider v = Some p → v_hostname v = Some h →
  insertReturning v w
  = if clashes (newRow (db w) (now w) p h v) (rows (db w))
    then (inl UNIQUE_FAILED, w)
    else (inr [newRow (db w) (now w) p h v],
          setDb {| rows := rows (db w) ++ [newRow (db w) (now w) p h v];
                   lastId := nextId (db w) |} w).
Proof. intros Hp Hh. unfold insertReturning. rewrite Hp, Hh. reflexivity. Qed.

Lemma clashes_new_row (d : Db) (t : Timestamp) (p h : string) (v : InsertValues) :
  clashes (newRow d t p h v) (rows d) = true
  ↔ ∃ o, In o (rows d) ∧ indexed o = true ∧ row_provider o = p ∧ row_hostname o = h.
Proof.
  unfold clashes. rewrite (indexed_live (newRow d t p h v) eq_refl). cbn [andb].
  rewrite existsb_exists. split.
  - intros (o & Hin & Hb). apply andb_true_iff in Hb as [Hb Hs].
    apply andb_true_iff in Hb as [_ Hi]. apply samePair_true in Hs as [Hp Hh].
    exists o. auto.
  - intros (o & Hin & Hi & Hp & Hh). exists o. split; [exact Hin|].
    rewrite Hi. cbn [andb newRow row_id].
    apply andb_true_iff. split.
    + apply andb_true_iff. split; [|reflexivity].
      apply negb_true_iff, Z.eqb_neq. pose proof (nextId_fresh d o Hin). lia.
    + apply samePair_true. cbn. auto.
Qed.

End Store.

(** ** The controller, step by step *)

Section Handlers.
Context `{Platform}.

Lemma create_run (request : Request) (env : Bindings) (w : World)
    (data : gmap string JsValue) :
  readJsonBody request = inr data →
  errors (validateResolverPayload data createOptions) = [] →
  createResolverHandler request env w
  = match insertReturning (insertValues (fields (validateResolverPayload data createOptions))) w with
    | (inl dbError, w1) =>
        if includes (message dbError) "UNIQUE constraint failed"
        then (inr CONFLICT_ON_CREATE, w1)
        else (inr (jsonError "Failed to create resolver" 500 None),
              snd (console_error "Failed to create resolver" w1))
    | (inr returned, w1) =>
        match head returned with
        | None => (inr (jsonError "Failed to create resolver" 500 None), w1)
        | Some created => afterInsert env created w1
        end
    end.
Proof.
  intros Hread Herr. unfold createResolverHandler. rewrite Hread, Herr.
  cbn [length Nat.eqb negb]. unfold bind, attempt, ret, afterInsert.
  destruct (insertReturning _ w) as [[e|returned] w1].
  - destruct (includes (message e) "UNIQUE constraint failed"); reflexivity.
  - destruct (head returned) as [created|]; [|reflexivity].
    destruct (truthyString (row_ipv4 created)); [|reflexivity].
    destruct (syncDnsRecord _ _ _ w1) as [[e|u] w2]; reflexivity.
Qed.

Lemma head_filter_find {A : Type} (f : A → bool) (l : list A) :
  head (List.filter f l) = List.find f l.
Proof.
  induction l as [|x l IH]; [reflexivity|]. cbn [List.filter List.find].
  destruct (f x); [reflexivity | exact IH].
Qed.

Lemma head_take_1 {A : Type} (l : list A) : head (take 1 l) = head l.
Proof. destruct l; reflexivity. Qed.

Lemma find_run (env : Bindings) (id : Z) (includeDeleted : bool) (w : World) :
  findResolverById env id includeDeleted w
  = (inr (List.find (if includeDeleted then hasId id else liveWithId id) (rows (db w))), w).
Proof.
  unfold findResolverById, bind, selectFrom, ret.
  cbn [Z.ltb Z.compare Z.to_nat Pos.to_nat Pos.iter_op Nat.add].
  rewrite head_take_1, head_filter_find. reflexivity.
Qed.

Lemma update_returning_run (s : SetClause) (cond : ResolverRow → bool) (w : World) :
  updateReturning s cond w
  = if writesKey s
       && existsb (fun r => clashes r (updatedRows s (now w) cond (rows (db w))))
            (map (applySet s (now w)) (List.filter cond (rows (db w))))
    then (inl UNIQUE_FAILED, w)
    else (inr (map (applySet s (now w)) (List.filter cond (rows (db w)))),
          setDb {| rows := updatedRows s (now w) cond (rows (db w));
                   lastId := lastId (db w) |} w).
Proof. reflexivity. Qed.

Lemma head_map {A B : Type} (f : A → B) (l : list A) : head (map f l) = option_map f (head l).
Proof. destruct l; reflexivity. Qed.

Lemma update_run (request : Request) (env : Bindings) (id : Z) (w : World)
    (data : gmap string JsValue) :
  readJsonBody request = inr data →
  let f := fields (validateResolverPayload data updateOptions) in
  errors (validateResolverPayload data updateOptions) = [] →
  updateResolverHandler request env id w
  = if (keyCount f =? 0)%nat then (inr (jsonError ERR_ANY_FIELD 422 None), w)
    else
      match List.find (liveWithId id) (rows (db w)) with
      | None => (inr NOT_FOUND, w)
      | Some current =>
          match updateReturning (updateValues f) (liveWithId id) w with
          | (inl dbError, w1) =>
              if includes (message dbError) "UNIQUE constraint failed"
              then (inr CONFLICT_ON_UPDATE, w1)
              else (inr (jsonError "Failed to update resolver" 500 None),
                    snd (console_error "Failed to update resolver" w1))
          | (inr returned, w1) =>
              match head returned with
              | None => (inr NOT_FOUND, w1)
              | Some updated => afterUpdate env f current updated w1
              end
          end
      end.
Proof.
  intros Hread f Herr. unfold updateResolverHandler. rewrite Hread, Herr.
  cbn [length Nat.eqb negb]. fold f.
  destruct (keyCount f =? 0)%nat; [reflexivity|].
  unfold bind. rewrite find_run.
  destruct (List.find (liveWithId id) (rows (db w))) as [current|]; [|reflexivity].
  unfold attempt, ret, afterUpdate, mustSync.
  destruct (updateReturning _ _ w) as [[e|returned] w1].
  - destruct (includes (message e) "UNIQUE constraint failed"); reflexivity.
  - destruct (head returned) as [updated|]; [|reflexivity].
    destruct (_ && _); [|reflexivity].
    destruct (syncDnsRecord _ _ _ w1) as [[e|u] w2]; reflexivity.
Qed.


Lemma updatedRows_untouched (s : SetClause) (t : Timestamp) (cond : ResolverRow → bool)
    (table : list ResolverRow) :
  List.find cond table = None → updatedRows s t cond table = table.
Proof.
  unfold updatedRows. induction table as [|r l IH]; [reflexivity|].
  cbn [List.find map]. destruct (cond r); [discriminate|].
  intros Hf. rewrite (IH Hf). reflexivity.
Qed.

Lemma delete_run (env : Bindings) (id : Z) (w : World) :
  deleteResolverHandler env id w
  = (inr match List.find (liveWithId id) (rows (db w)) with
         | None => NOT_FOUND
         | Some row => resolverResponse (applySet softDelete (now w) row) 200
         end,
     setDb {| rows := updatedRows softDelete (now w) (liveWithId id) (rows (db w));
              lastId := lastId (db w) |} w).
Proof.
  unfold deleteResolverHandler, bind. rewrite update_returning_run.
  cbn [writesKey softDelete set_provider set_hostname defined orb andb].
  rewrite head_map, head_filter_find.
  destruct (List.find (liveWithId id) (rows (db w))); reflexivity.
Qed.

End Handlers.

(** ** Reconciliation *)

Section Reconcile.
Context `{Platform}.



End Reconcile.




(** ** How requests change the table *)

Section Changes.
Context `{Platform}.

Lemma sync_db (env : Bindings) (hostname ipv4 : string) (w : World) :
  db (snd (syncDnsRecord env hostname ipv4 w)) = db w.
Proof. apply (sync_frame env hostname ipv4 w). Qed.

Lemma afterInsert_db (env : Bindings) (created : ResolverRow) (w1 : World) :
  db (snd (afterInsert env created w1)) = db w1.
Proof.
  unfold afterInsert. destruct (truthyString (row_ipv4 created)); [|reflexivity].
  pose proof (sync_db env (row_hostname created) (row_ipv4 created) w1) as Hdb.
  destruct (syncDnsRecord _ _ _ w1) as [[e|u] w2]; exact Hdb.
Qed.

Lemma afterUpdate_db (env : Bindings) (f : ResolverPayload) (current updated : ResolverRow)
    (w1 : World) :
  db (snd (afterUpdate env f current updated w1)) = db w1.
Proof.
  unfold afterUpdate. destruct (mustSync f current updated); [|reflexivity].
  pose proof (sync_db env (row_hostname updated) (row_ipv4 updated) w1) as Hdb.
  destruct (syncDnsRecord _ _ _ w1) as [[e|u] w2]; exact Hdb.
Qed.

Lemma create_table_change (request : Request) (env : Bindings) (w : World) :
  TableChange (now w) (db w) (db (snd (createResolverHandler request env w))).
Proof.
  destruct (readJsonBody request) as [error|data] eqn:Hread.
  { unfold createResolverHandler. rewrite Hread. apply Unchanged. reflexivity. }
  destruct (errors (validateResolverPayload data createOptions)) as [|e es] eqn:Herr.
  2:{ unfold createResolverHandler. rewrite Hread, Herr. apply Unchanged. reflexivity. }
  rewrite (create_run request env w data Hread Herr).
  set (v := insertValues _).
  destruct (v_provider v) as [p|] eqn:Hp; [destruct (v_hostname v) as [h|] eqn:Hh|].
  - rewrite (insert_run v p h w Hp Hh).
    destruct (clashes _ _) eqn:Hclash; [apply Unchanged; reflexivity|].
    cbn [head]. rewrite afterInsert_db. cbn [db setDb].
    apply (Inserted _ _ _ (newRow (db w) (now w) p h v)); try reflexivity.
    exact Hclash.
  - unfold insertReturning. rewrite Hp, Hh. apply Unchanged. reflexivity.
  - unfold insertReturning. rewrite Hp. apply Unchanged. reflexivity.
Qed.

Lemma update_table_change (request : Request) (env : Bindings) (id : Z) (w : World) :
  TableChange (now w) (db w) (db (snd (updateResolverHandler request env id w))).
Proof.
  destruct (readJsonBody request) as [error|data] eqn:Hread.
  { unfold updateResolverHandler. rewrite Hread. apply Unchanged. reflexivity. }
  destruct (errors (validateResolverPayload data updateOptions)) as [|e es] eqn:Herr.
  2:{ unfold updateResolverHandler. rewrite Hread, Herr. apply Unchanged. reflexivity. }
  rewrite (update_run request env id w data Hread Herr).
  destruct (keyCount _ =? 0)%nat; [apply Unchanged; reflexivity|].
  destruct (List.find (liveWithId id) (rows (db w))) as [current|];
    [|apply Unchanged; reflexivity].
  rewrite update_returning_run.
  destruct (writesKey _ && _) eqn:Hclash; [apply Unchanged; reflexivity|].
  destruct (head _) as [updated|].
  - rewrite afterUpdate_db. cbn [db setDb].
    apply (Updated _ _ _ (updateValues (fields (validateResolverPayload data updateOptions))) id);
      [reflexivity | left; reflexivity | exact Hclash].
  - cbn [snd db setDb].
    apply (Updated _ _ _ (updateValues (fields (validateResolverPayload data updateOptions))) id);
      [reflexivity | left; reflexivity | exact Hclash].
Qed.

Lemma delete_table_change (env : Bindings) (id : Z) (w : World) :
  TableChange (now w) (db w) (db (snd (deleteResolverHandler env id w))).
Proof.
  rewrite delete_run. cbn [snd db setDb].
  apply (Updated _ _ _ softDelete id); [reflexivity | right; reflexivity | reflexivity].
Qed.



Lemma get_pure (env : Bindings) (id : Z) (params : URLSearchParams) (w : World) :
  snd (getResolverHandler env id params w) = w.
Proof.
  unfold getResolverHandler, bind. rewrite find_run.
  destruct (List.find _ _); reflexivity.
Qed.

Lemma route_table_change (env : Bindings) (r : Route) (w : World) :
  TableChange (now w) (db w) (db (snd (route env r w))).
Proof.
  destruct r as [| |params|request|idParam params|idParam request|idParam request|idParam|];
    cbn [route]; unfold withId;
    try (destruct (parseResolverIdParam idParam) as [id|]);
    try (apply Unchanged; reflexivity).
  - apply create_table_change.
  - rewrite get_pure. apply Unchanged. reflexivity.
  - apply update_table_change.
  - apply update_table_change.
  - apply delete_table_change.
Qed.

Lemma createApp_table_change (env : Bindings) (r : Route) (w : World) :
  TableChange (now w) (db w) (db (snd (createApp env r w))).
Proof.
  unfold createApp. pose proof (route_table_change env r w) as Hc.
  destruct (route env r w) as [[e|response] w']; exact Hc.
Qed.

End Changes.

(** ** The life of a record *)

Section Lifecycle.
Context `{Platform}.

Lemma lookup_map {A B : Type} (f : A → B) (l : list A) (i : nat) :
  map f l !! i = option_map f (l !! i).
Proof.
  revert i. induction l as [|x l IH]; intros [|i]; cbn; try reflexivity. apply IH.
Qed.

Lemma lookup_In {A : Type} (l : list A) (i : nat) (x : A) : l !! i = Some x → In x l.
Proof.
  revert i. induction l as [|y l IH]; intros [|i] Hl; cbn in Hl; try discriminate.
  - injection Hl as ->. left; reflexivity.
  - right. eapply IH, Hl.
Qed.

Lemma liveWithId_true (id : Z) (r : ResolverRow) :
  liveWithId id r = true ↔ row_id r = id ∧ row_isDeleted r = 0.
Proof.
  unfold liveWithId, hasId, isLive. rewrite andb_true_iff, !Z.eqb_eq. reflexivity.
Qed.

(** A row stays at its place with its id and creation time; a row that is
    not live is not touched at all. *)
Lemma change_keeps_rows (t : Timestamp) (d d' : Db) :
  TableChange t d d' →
  ∀ i r, rows d !! i = Some r →
    ∃ r', rows d' !! i = Some r'
          ∧ row_id r' = row_id r ∧ row_ctime r' = row_ctime r
          ∧ (row_isDeleted r ≠ 0 → r' = r).
Proof.
  intros [->|row -> Hid Hlive Hc _|s id -> Hs _] i r Hr.
  - exists r. auto.
  - exists r. cbn [rows]. split; [|auto].
    apply lookup_app_l_Some, Hr.
  - cbn [rows]. unfold updatedRows. rewrite lookup_map, Hr. cbn [option_map].
    destruct (liveWithId id r) eqn:Hl.
    + exists (applySet s t r). repeat split; try reflexivity.
      apply liveWithId_true in Hl as [_ Hl]. intros Hn. contradiction.
    + exists r. auto.
Qed.

Lemma In_updatedRows (s : SetClause) (t : Timestamp) (cond : ResolverRow → bool)
    (table : list ResolverRow) (r' : ResolverRow) :
  In r' (updatedRows s t cond table) ↔
  ∃ r, In r table ∧ r' = if cond r then applySet s t r else r.
Proof.
  unfold updatedRows. rewrite in_map_iff. split; intros (r & H1 & H2); exists r; auto.
Qed.

Lemma change_keeps_flags (t : Timestamp) (d d' : Db) :
  TableChange t d d' → FlagsAreBits d → FlagsAreBits d'.
Proof.
  intros [->|row -> Hid Hlive Hc _|s id -> Hs _] Hbits; [exact Hbits| |].
  - intros r Hin. cbn [rows] in Hin. apply in_app_iff in Hin as [Hin|[<-|[]]]; auto.
  - intros r' Hin. cbn [rows] in Hin. apply In_updatedRows in Hin as (r & Hin & ->).
    destruct (liveWithId id r); [|auto].
    cbn [applySet row_isDeleted]. destruct Hs as [->| ->]; cbn; auto.
Qed.

Lemma change_keeps_gone (t : Timestamp) (d d' : Db) (id : Z) :
  TableChange t d d' → Gone id d → Gone id d'.
Proof.
  intros [->|row -> Hid Hlive Hc _|s id' -> Hs _] [(r0 & Hin0 & Hid0) Hdel]; [split; eauto| |].
  - split; [exists r0; cbn [rows]; rewrite in_app_iff; auto|].
    intros r Hin Hr. cbn [rows] in Hin. apply in_app_iff in Hin as [Hin|[<-|[]]]; [auto|].
    pose proof (nextId_fresh d r0 Hin0). lia.
  - assert (∀ r, In r (rows d) → row_id r = id →
                 (if liveWithId id' r then applySet s t r else r) = r) as Hsame.
    { intros r Hin Hr. destruct (liveWithId id' r) eqn:Hl; [|reflexivity].
      apply liveWithId_true in Hl as [_ Hl]. rewrite (Hdel r Hin Hr) in Hl. discriminate. }
    split.
    + exists r0. split; [|exact Hid0]. cbn [rows]. apply In_updatedRows.
      exists r0. split; [exact Hin0|]. symmetry. apply Hsame; assumption.
    + intros r' Hin Hr'. cbn [rows] in Hin. apply In_updatedRows in Hin as (r & Hin & ->).
      assert (row_id r = id) as Hr.
      { destruct (liveWithId id' r); exact Hr'. }
      rewrite (Hsame r Hin Hr). auto.
Qed.

Lemma serve_keeps_gone (env : Bindings) (session : list (Timestamp * Route)) (w : World)
    (id : Z) :
  Gone id (db w) → Gone id (db (serve env session w)).
Proof.
  revert w. induction session as [|[t r] rest IH]; intros w Hg; [exact Hg|].
  cbn [serve]. apply IH.
  apply (change_keeps_gone _ _ _ _ (createApp_table_change env r (at_ t w))). exact Hg.
Qed.

Lemma find_none {A : Type} (f : A → bool) (l : list A) :
  List.find f l = None ↔ ∀ x, In x l → f x = false.
Proof.
  split; [apply find_none|].
  induction l as [|x l IH]; [reflexivity|]. intros Hall. cbn [List.find].
  rewrite (Hall x (or_introl eq_refl)). apply IH. intros y Hy. apply Hall. right; exact Hy.
Qed.

Lemma gone_not_live (id : Z) (d : Db) :
  Gone id d → List.find (liveWithId id) (rows d) = None.
Proof.
  intros [_ Hdel]. apply find_none. intros r Hin.
  destruct (liveWithId id r) eqn:Hl; [|reflexivity].
  apply liveWithId_true in Hl as [Hr Hl]. rewrite (Hdel r Hin Hr) in Hl. discriminate.
Qed.

Lemma gone_found_deleted (id : Z) (d : Db) :
  Gone id d → ∃ r, List.find (hasId id) (rows d) = Some r
                   ∧ row_id r = id ∧ row_isDeleted r = 1.
Proof.
  intros [(r0 & Hin0 & Hid0) Hdel].
  destruct (List.find (hasId id) (rows d)) as [r|] eqn:Hf.
  - apply find_some in Hf as [Hin Hr]. apply Z.eqb_eq in Hr. eauto.
  - exfalso. rewrite find_none in Hf. specialize (Hf r0 Hin0).
    unfold hasId in Hf. apply Z.eqb_neq in Hf. contradiction.
Qed.

Lemma delete_makes_gone (id : Z) (t : Timestamp) (d : Db) (r : ResolverRow) :
  FlagsAreBits d →
  List.find (liveWithId id) (rows d) = Some r →
  Gone id {| rows := updatedRows softDelete t (liveWithId id) (rows d); lastId := lastId d |}.
Proof.
  intros Hbits Hf. apply find_some in Hf as [Hin Hl].
  pose proof (proj1 (liveWithId_true id r) Hl) as [Hr _].
  split; cbn [rows].
  - exists (applySet softDelete t r). split; [|exact Hr].
    apply In_updatedRows. exists r. rewrite Hl. auto.
  - intros r' Hin' Hr'. apply In_updatedRows in Hin' as (r1 & Hin1 & ->).
    destruct (liveWithId id r1) eqn:Hl1; [reflexivity|].
    destruct (Hbits r1 Hin1) as [H0|H1]; [|exact H1].
    exfalso. assert (liveWithId id r1 = true); [|congruence].
    apply liveWithId_true. auto.
Qed.

End Lifecycle.

(** ** Reads *)

Section Reads.
Context `{Platform}.

Lemma In_take {A : Type} (n : nat) (l : list A) (x : A) : In x (take n l) → In x l.
Proof.
  revert n. induction l as [|y l IH]; intros [|n] Hin; cbn in Hin; try contradiction.
  destruct Hin as [->|Hin]; [left; reflexivity | right; eapply IH, Hin].
Qed.

Lemma In_drop {A : Type} (n : nat) (l : list A) (x : A) : In x (drop n l) → In x l.
Proof.
  revert n. induction l as [|y l IH]; intros [|n] Hin; cbn in Hin; try contradiction.
  - exact Hin.
  - right. eapply IH, Hin.
Qed.

Lemma In_insertDesc (r x : ResolverRow) (l : list ResolverRow) :
  In x (insertDesc r l) → x = r ∨ In x l.
Proof.
  induction l as [|y l IH]; cbn [insertDesc].
  - intros [<-|[]]. left; reflexivity.
  - destruct (row_id y <=? row_id r).
    + intros [<-|Hin]; [left; reflexivity | right; exact Hin].
    + intros [<-|Hin]; [right; left; reflexivity|].
      destruct (IH Hin) as [->|Hin']; [left; reflexivity | right; right; exact Hin'].
Qed.

Lemma In_orderByIdDesc (x : ResolverRow) (l : list ResolverRow) :
  In x (orderByIdDesc l) → In x l.
Proof.
  unfold orderByIdDesc. induction l as [|y l IH]; cbn [fold_right]; [intros []|].
  intros Hin. apply In_insertDesc in Hin as [->|Hin]; [left; reflexivity | right; auto].
Qed.

(** The rows a list request returns are rows of the table, and live ones
    unless deleted rows were asked for. *)
Lemma list_run (env : Bindings) (params : URLSearchParams) (w : World) :
  ∃ found limit offset,
    listResolversHandler env params w
    = (inr (jsonResponse (ListBody (map toResolverDto found) limit offset (length found)) 200), w)
    ∧ ∀ r, In r found →
           In r (rows (db w))
           ∧ (parseBoolean (get params "includeDeleted") = false → isLive r = true).
Proof.
  unfold listResolversHandler, bind, selectFrom, ret.
  set (limit := parseLimit _ _ _). set (offset := parseOffset _).
  set (conditions := (_ ++ _)%list).
  set (whereClause := match conditions with [] => None | [c] => Some c | _ => Some (and_ conditions) end).
  eexists _, limit, offset. split; [reflexivity|].
  intros r Hin.
  assert (In r (match whereClause with
                | Some c => List.filter c (rows (db w))
                | None => rows (db w)
                end)) as Hm.
  { apply In_orderByIdDesc, (In_drop (Z.to_nat offset)).
    destruct (limit <? 0); [exact Hin | eapply In_take, Hin]. }
  clear Hin. split.
  - destruct whereClause; [apply filter_In in Hm as [Hm _]|]; exact Hm.
  - intros Hdel. subst whereClause conditions. rewrite Hdel in Hm. cbn [negb] in Hm.
    destruct (optionalString (get params "provider")),
             (optionalString (get params "hostname"));
      cbn in Hm; apply filter_In in Hm as [_ Hc];
      unfold and_ in Hc; cbn in Hc;
      repeat (apply andb_true_iff in Hc as [Hc ?]); exact Hc.
Qed.

End Reads.

(** ** Soft delete *)

Section SoftDelete.
Context `{Platform}.

Lemma valid_update_has_field (data : gmap string JsValue) :
  errors (validateResolverPayload data updateOptions) = [] →
  (keyCount (fields (validateResolverPayload data updateOptions)) =? 0)%nat = false.
Proof.
  intros Herr. apply Nat.eqb_neq. intros Hk.
  assert (In ERR_ANY_FIELD (errors (validateResolverPayload data updateOptions))) as Hin.
  { apply any_field_error_iff. split; [reflexivity|].
    rewrite validate_eq in Hk. exact Hk. }
  rewrite Herr in Hin. destruct Hin.
Qed.

Lemma readJsonBody_error (request : Request) (error : Response) :
  readJsonBody request = inl error → status error = 400.
Proof.
  unfold readJsonBody. destruct (negb _); [intros [= <-]; reflexivity|].
  destruct (JSON_parse (text request)) as [[| | | | |o]|]; intros [= <-]; reflexivity.
Qed.

Lemma update_gone (request : Request) (env : Bindings) (id : Z) (w : World) :
  Gone id (db w) →
  ∃ response, updateResolverHandler request env id w = (inr response, w)
    ∧ (status response = 400 ∨ status response = 422 ∨ response = NOT_FOUND)
    ∧ (∀ data, readJsonBody request = inr data →
               errors (validateResolverPayload data updateOptions) = [] →
               response = NOT_FOUND).
Proof.
  intros Hg.
  destruct (readJsonBody request) as [error|data] eqn:Hread.
  { exists error. unfold updateResolverHandler. rewrite Hread. split; [reflexivity|].
    split; [left; eapply readJsonBody_error, Hread | discriminate]. }
  destruct (errors (validateResolverPayload data updateOptions)) as [|e es] eqn:Herr.
  - rewrite (update_run request env id w data Hread Herr).
    rewrite (valid_update_has_field data Herr), (gone_not_live id (db w) Hg).
    exists NOT_FOUND. auto.
  - eexists. unfold updateResolverHandler. rewrite Hread, Herr. split; [reflexivity|].
    split; [right; left; reflexivity|].
    intros data' [= <-]. rewrite Herr. discriminate.
Qed.


Lemma delete_gone (env : Bindings) (id : Z) (w : World) :
  Gone id (db w) → deleteResolverHandler env id w = (inr NOT_FOUND, w).
Proof.
  intros Hg. rewrite delete_run.
  pose proof (gone_not_live id (db w) Hg) as Hf. rewrite Hf.
  rewrite (updatedRows_untouched _ _ _ _ Hf).
  destruct w as [[rs li] t n rq sy co]. reflexivity.
Qed.

Lemma get_gone (env : Bindings) (id : Z) (params : URLSearchParams) (w : World) :
  Gone id (db w) →
  if parseBoolean (get params "includeDeleted")
  then ∃ row, getResolverHandler env id params w = (inr (resolverResponse row 200), w)
              ∧ row_id row = id ∧ dto_isDeleted (toResolverDto row) = true
  else getResolverHandler env id params w = (inr (jsonError "Resolver not found" 404 None), w).
Proof.
  intros Hg. unfold getResolverHandler, bind. rewrite find_run.
  destruct (parseBoolean (get params "includeDeleted")).
  - destruct (gone_found_deleted id (db w) Hg) as (r & -> & Hid & Hdel).
    exists r. split; [reflexivity|]. split; [exact Hid|].
    cbn [toResolverDto dto_isDeleted]. rewrite Hdel. reflexivity.
  - rewrite (gone_not_live id (db w) Hg). reflexivity.
Qed.

Lemma list_gone (env : Bindings) (id : Z) (params : URLSearchParams) (w : World) :
  Gone id (db w) →
  parseBoolean (get params "includeDeleted") = false →
  ∃ found limit offset,
    listResolversHandler env params w
    = (inr (jsonResponse (ListBody (map toResolverDto found) limit offset (length found)) 200), w)
    ∧ ∀ r, In r found → row_id r ≠ id.
Proof.
  intros [_ Hdel] Hparam.
  destruct (list_run env params w) as (found & limit & offset & Hrun & Hfound).
  exists found, limit, offset. split; [exact Hrun|].
  intros r Hin Hid. destruct (Hfound r Hin) as [Hrow Hlive].
  specialize (Hlive Hparam). unfold isLive in Hlive. apply Z.eqb_eq in Hlive.
  rewrite (Hdel r Hrow Hid) in Hlive. discriminate.
Qed.

(** C5, amended: delete matches only a live row with the given id, sets its
    flag to 1 and its [mtime] to the current time, keeps every row, and
    talks to nobody. After a successful delete of [id], whatever requests
    follow: a delete of [id] answers 404; an update of [id] never succeeds and
    changes nothing, answering 404 when its payload passes validation and
    400 or 422 otherwise; a default get answers 404 and a default list leaves
    the record out; a get with [includeDeleted] returns it flagged deleted.
    No request changes a row that is not live. *)
Theorem soft_delete_is_final (env : Bindings) (id : Z) (w : World) :
  let w1 := snd (deleteResolverHandler env id w) in
  (∀ i r, rows (db w) !! i = Some r →
     ∃ r', rows (db w1) !! i = Some r'
       ∧ (row_id r = id ∧ row_isDeleted r = 0 →
          row_isDeleted r' = 1 ∧ row_mtime r' = now w
          ∧ row_id r' = id ∧ row_provider r' = row_provider r
          ∧ row_hostname r' = row_hostname r ∧ row_alias r' = row_alias r
          ∧ row_ipv4 r' = row_ipv4 r ∧ row_ctime r' = row_ctime r)
       ∧ (¬ (row_id r = id ∧ row_isDeleted r = 0) → r' = r))
  ∧ length (rows (db w1)) = length (rows (db w))
  ∧ (requests w1 = requests w ∧ syncs w1 = syncs w ∧ net w1 = net w)
  ∧ (fst (deleteResolverHandler env id w) = inr NOT_FOUND
     ↔ ∀ r, In r (rows (db w)) → ¬ (row_id r = id ∧ row_isDeleted r = 0))
  ∧ (FlagsAreBits (db w) →
     statusOf (fst (deleteResolverHandler env id w)) = Some 200 →
     ∀ session t,
       let w2 := at_ t (serve env session w1) in
       deleteResolverHandler env id w2 = (inr NOT_FOUND, w2)
       ∧ (∀ request, ∃ response,
            updateResolverHandler request env id w2 = (inr response, w2)
            ∧ (status response = 400 ∨ status response = 422 ∨ response = NOT_FOUND)
            ∧ (∀ data, readJsonBody request = inr data →
                       errors (validateResolverPayload data updateOptions) = [] →
                       response = NOT_FOUND))
       ∧ (∀ params, parseBoolean (get params "includeDeleted") = false →
            getResolverHandler env id params w2
            = (inr (jsonError "Resolver not found" 404 None), w2))
       ∧ (∀ params, parseBoolean (get params "includeDeleted") = true →
            ∃ row, getResolverHandler env id params w2 = (inr (resolverResponse row 200), w2)
                   ∧ row_id row = id ∧ dto_isDeleted (toResolverDto row) = true)
       ∧ (∀ params, parseBoolean (get params "includeDeleted") = false →
            ∃ found limit offset,
              listResolversHandler env params w2
              = (inr (jsonResponse
                        (ListBody (map toResolverDto found) limit offset (length found)) 200),
                 w2)
              ∧ ∀ r, In r found → row_id r ≠ id))
  ∧ (∀ r i x, rows (db w) !! i = Some x → row_isDeleted x ≠ 0 →
       rows (db (snd (createApp env r w))) !! i = Some x).
Proof.
  intros w1. subst w1. rewrite delete_run. cbn [fst snd db setDb rows requests syncs net].
  split; [|split; [|split; [|split; [|split]]]].
  - intros i r Hr. unfold updatedRows. rewrite lookup_map, Hr. cbn [option_map].
    destruct (liveWithId id r) eqn:Hl.
    + exists (applySet softDelete (now w) r). split; [reflexivity|]. split.
      * intros [Hid _]. cbn. repeat split; try reflexivity. exact Hid.
      * intros Hn. exfalso. apply Hn, liveWithId_true, Hl.
    + exists r. split; [reflexivity|]. split; [|reflexivity].
      intros Hy. apply liveWithId_true in Hy. congruence.
  - unfold updatedRows. apply length_map.
  - auto.
  - split.
    + intros Hnf r Hin Hy. apply liveWithId_true in Hy.
      destruct (List.find (liveWithId id) (rows (db w))) as [x|] eqn:Hf.
      * injection Hnf as Hnf. discriminate Hnf.
      * rewrite find_none in Hf. rewrite (Hf r Hin) in Hy. discriminate.
    + intros Hall.
      assert (List.find (liveWithId id) (rows (db w)) = None) as ->; [|reflexivity].
      apply find_none. intros r Hin. destruct (liveWithId id r) eqn:Hl; [|reflexivity].
      exfalso. apply (Hall r Hin), liveWithId_true, Hl.
  - intros Hbits Hok session t. set (w2 := at_ t _).
    destruct (List.find (liveWithId id) (rows (db w))) as [x|] eqn:Hf; [|discriminate Hok].
    assert (Gone id (db w2)) as Hg.
    { subst w2. cbn [at_ db]. apply serve_keeps_gone. cbn [db setDb].
      apply (delete_makes_gone id (now w) (db w) x Hbits Hf). }
    split; [apply delete_gone, Hg|]. split; [intros request; apply update_gone, Hg|].
    split; [|split].
    + intros params Hp. pose proof (get_gone env id params w2 Hg) as Hget.
      rewrite Hp in Hget. exact Hget.
    + intros params Hp. pose proof (get_gone env id params w2 Hg) as Hget.
      rewrite Hp in Hget. exact Hget.
    + intros params Hp. apply list_gone; assumption.
  - intros r i x Hx Hdel.
    destruct (change_keeps_rows _ _ _ (createApp_table_change env r w) i x Hx)
      as (x' & Hx' & _ & _ & Hsame).
    rewrite Hx', (Hsame Hdel). reflexivity.
Qed.

End SoftDelete.

(** ** What a mutation leaves alone *)

Section Frame.
Context `{Platform}.

Lemma update_db (request : Request) (env : Bindings) (id : Z) (w : World)
    (data : gmap string JsValue) :
  readJsonBody request = inr data →
  let f := fields (validateResolverPayload data updateOptions) in
  let d' := db (snd (updateResolverHandler request env id w)) in
  d' = db w
  ∨ d' = {| rows := updatedRows (updateValues f) (now w) (liveWithId id) (rows (db w));
            lastId := lastId (db w) |}.
Proof.
  intros Hread f d'. subst d'.
  destruct (errors (validateResolverPayload data updateOptions)) as [|e es] eqn:Herr.
  2:{ unfold updateResolverHandler. rewrite Hread, Herr. left; reflexivity. }
  rewrite (update_run request env id w data Hread Herr). fold f.
  destruct (keyCount f =? 0)%nat; [left; reflexivity|].
  destruct (List.find (liveWithId id) (rows (db w))) as [current|]; [|left; reflexivity].
  rewrite update_returning_run.
  destruct (writesKey _ && _); [left; reflexivity|].
  right. destruct (head _) as [updated|]; [rewrite afterUpdate_db|]; reflexivity.
Qed.

(** C9: an update changes, in the row it matches, only the fields present
    in the validated payload and [mtime]: id, ctime, the deletion flag and
    every field that was not submitted keep their values, and no other row
    changes. A delete changes only the deletion flag and [mtime]. No request
    of any kind changes the id or the ctime of a row, and no row is ever
    removed. *)
Theorem mutations_keep_the_rest (env : Bindings) (w : World) :
  (∀ request id data,
     readJsonBody request = inr data →
     let f := fields (validateResolverPayload data updateOptions) in
     let w1 := snd (updateResolverHandler request env id w) in
     length (rows (db w1)) = length (rows (db w))
     ∧ ∀ i r, rows (db w) !! i = Some r →
         ∃ r', rows (db w1) !! i = Some r'
           ∧ row_id r' = row_id r ∧ row_ctime r' = row_ctime r
           ∧ row_isDeleted r' = row_isDeleted r
           ∧ (p_provider f = None → row_provider r' = row_provider r)
           ∧ (p_hostname f = None → row_hostname r' = row_hostname r)
           ∧ (p_alias f = None → row_alias r' = row_alias r)
           ∧ (p_ipv4 f = None → row_ipv4 r' = row_ipv4 r)
           ∧ (row_id r ≠ id → r' = r))
  ∧ (∀ id,
       let w1 := snd (deleteResolverHandler env id w) in
       length (rows (db w1)) = length (rows (db w))
       ∧ ∀ i r, rows (db w) !! i = Some r →
           ∃ r', rows (db w1) !! i = Some r'
             ∧ row_id r' = row_id r ∧ row_ctime r' = row_ctime r
             ∧ row_provider r' = row_provider r ∧ row_hostname r' = row_hostname r
             ∧ row_alias r' = row_alias r ∧ row_ipv4 r' = row_ipv4 r
             ∧ (row_id r ≠ id → r' = r))
  ∧ (∀ r i x, rows (db w) !! i = Some x →
       ∃ x', rows (db (snd (createApp env r w))) !! i = Some x'
             ∧ row_id x' = row_id x ∧ row_ctime x' = row_ctime x).
Proof.
  split; [|split].
  - intros request id data Hread f w1.
    destruct (update_db request env id w data Hread) as [Hd|Hd];
      fold f in Hd; fold w1 in Hd; rewrite Hd.
    + split; [reflexivity|]. intros i r Hr. exists r. repeat split; auto.
    + cbn [rows]. split; [apply length_map|]. intros i r Hr.
      unfold updatedRows. rewrite lookup_map, Hr. cbn [option_map].
      destruct (liveWithId id r) eqn:Hl.
      * exists (applySet (updateValues f) (now w) r). split; [reflexivity|].
        cbn [applySet updateValues row_id row_ctime row_isDeleted row_provider
             row_hostname row_alias row_ipv4 set_provider set_hostname set_alias
             set_ipv4 set_isDeleted default].
        repeat split; try reflexivity; try (intros ->; reflexivity).
        intros Hne. apply liveWithId_true in Hl as [Hid _]. contradiction.
      * exists r. repeat split; auto.
  - intros id w1. subst w1. rewrite delete_run. cbn [snd db setDb rows].
    split; [apply length_map|]. intros i r Hr.
    unfold updatedRows. rewrite lookup_map, Hr. cbn [option_map].
    destruct (liveWithId id r) eqn:Hl.
    + exists (applySet softDelete (now w) r). repeat split; try reflexivity.
      intros Hne. apply liveWithId_true in Hl as [Hid _]. contradiction.
    + exists r. repeat split; auto.
  - intros r i x Hx.
    destruct (change_keeps_rows _ _ _ (createApp_table_change env r w) i x Hx)
      as (x' & Hx' & Hid & Hc & _).
    exists x'. auto.
Qed.

End Frame.

(** ** The invariant of the table *)

Section Invariant.
Context `{Platform}.

Lemma updatedRows_ids (s : SetClause) (t : Timestamp) (cond : ResolverRow → bool)
    (table : list ResolverRow) :
  map row_id (updatedRows s t cond table) = map row_id table.
Proof.
  unfold updatedRows. rewrite map_map. apply map_ext. intros r.
  destruct (cond r); reflexivity.
Qed.

Lemma keys_distinct_lookup (table : list ResolverRow) (i j : nat) (a b : ResolverRow) :
  NoDup (map row_id table) →
  table !! i = Some a → table !! j = Some b → row_id a = row_id b → i = j.
Proof.
  revert i j. induction table as [|x l IH]; intros i j Hnd Ha Hb Hid.
  - destruct i; discriminate Ha.
  - cbn [map] in Hnd. apply NoDup_cons in Hnd as [Hx Hnd].
    rewrite list_elem_of_In in Hx.
    destruct i as [|i], j as [|j]; cbn in Ha, Hb.
    + reflexivity.
    + injection Ha as ->. exfalso. apply Hx. rewrite Hid.
      apply in_map, (lookup_In l j b Hb).
    + injection Hb as ->. exfalso. apply Hx. rewrite <- Hid.
      apply in_map, (lookup_In l i a Ha).
    + f_equal. apply (IH i j Hnd Ha Hb Hid).
Qed.

Lemma change_keeps_keys (t : Timestamp) (d d' : Db) :
  TableChange t d d' → KeysDistinct d → KeysDistinct d'.
Proof.
  unfold KeysDistinct.
  intros [->|row -> Hid Hlive Hc _|s id -> Hs _] Hnd; [exact Hnd| |].
  - cbn [rows]. rewrite map_app. cbn [map]. apply NoDup_app. split; [exact Hnd|].
    split; [|apply NoDup_singleton].
    intros x Hx Hrow. apply list_elem_of_In in Hx. apply list_elem_of_In in Hrow.
    destruct Hrow as [<-|[]]. apply in_map_iff in Hx as (r & Hr & Hin).
    pose proof (nextId_fresh d r Hin). lia.
  - cbn [rows]. rewrite updatedRows_ids. exact Hnd.
Qed.


Lemma pair_eq (a b : ResolverRow) :
  row_provider a = row_provider b → row_hostname a = row_hostname b → samePair a b = true.
Proof. intros Hp Hh. apply samePair_true. auto. Qed.

Lemma change_keeps_pairs (t : Timestamp) (d d' : Db) :
  TableChange t d d' → KeysDistinct d → LivePairsUnique d → LivePairsUnique d'.
Proof.
  intros [->|row -> Hid Hlive Hc Hclash|s id -> Hs Hclash] Hkeys Huniq; [exact Huniq| |].
  - assert (∀ k o, rows d !! k = Some o → row_isDeleted o = 0 →
                   row_provider o = row_provider row → row_hostname o = row_hostname row →
                   False) as Hnew.
    { intros k o Ho Ho0 Hp Hh.
      assert (clashes row (rows d) = true); [|congruence].
      unfold clashes. rewrite (indexed_live row Hlive). cbn [andb].
      apply existsb_exists. exists o. split; [eapply lookup_In, Ho|].
      rewrite (indexed_live o Ho0), (pair_eq o row Hp Hh), !andb_true_r.
      apply negb_true_iff, Z.eqb_neq.
      pose proof (nextId_fresh d o (lookup_In _ _ _ Ho)). lia. }
    intros i j a b Ha Hb Ha0 Hb0 Hp Hh. cbn [rows] in Ha, Hb.
    apply lookup_app_Some in Ha as [Ha|[Hi Ha]]; apply lookup_app_Some in Hb as [Hb|[Hj Hb]].
    + apply (Huniq i j a b); assumption.
    + exfalso. apply list_lookup_singleton_Some in Hb as [_ <-].
      apply (Hnew i a Ha Ha0 Hp Hh).
    + exfalso. apply list_lookup_singleton_Some in Ha as [_ <-].
      apply (Hnew j b Hb Hb0); congruence.
    + apply list_lookup_singleton_Some in Ha as [Ha _].
      apply list_lookup_singleton_Some in Hb as [Hb _]. lia.
  - intros i j a' b' Ha Hb Ha0 Hb0 Hp Hh. cbn [rows] in Ha, Hb.
    unfold updatedRows in Ha, Hb. rewrite lookup_map in Ha, Hb.
    destruct (rows d !! i) as [a|] eqn:Hai; [|discriminate].
    destruct (rows d !! j) as [b|] eqn:Hbj; [|discriminate].
    cbn [option_map] in Ha, Hb. injection Ha as <-. injection Hb as <-.
    destruct (Nat.eq_dec i j) as [Hij|Hij]; [exact Hij|]. exfalso.
    assert (row_id a ≠ row_id b) as Hids.
    { intros Heq. apply Hij, (keys_distinct_lookup (rows d) i j a b Hkeys Hai Hbj Heq). }
    assert (∀ k l x y, rows d !! k = Some x → rows d !! l = Some y → k ≠ l →
              liveWithId id x = true → liveWithId id y = false →
              row_isDeleted (applySet s t x) = 0 → row_isDeleted y = 0 →
              row_provider (applySet s t x) = row_provider y →
              row_hostname (applySet s t x) = row_hostname y → False) as Hstep.
    { intros k l x y Hx Hy Hkl Hlx Hly Hx0 Hy0 Hxp Hxh.
      destruct (writesKey s) eqn:Hw.
      - cbn [andb] in Hclash.
        assert (existsb (fun r => clashes r (updatedRows s t (liveWithId id) (rows d)))
                  (map (applySet s t) (List.filter (liveWithId id) (rows d))) = true);
          [|congruence].
        apply existsb_exists. exists (applySet s t x). split.
        { apply in_map, filter_In. split; [eapply lookup_In, Hx | exact Hlx]. }
        unfold clashes. rewrite (indexed_live _ Hx0). cbn [andb].
        apply existsb_exists. exists y. split.
        { apply In_updatedRows. exists y. rewrite Hly. split; [eapply lookup_In, Hy|reflexivity]. }
        rewrite (indexed_live y Hy0), (pair_eq y (applySet s t x)) by congruence.
        rewrite !andb_true_r. apply negb_true_iff, Z.eqb_neq. cbn [applySet row_id].
        intros Heq. apply Hkl. symmetry.
        apply (keys_distinct_lookup (rows d) l k y x Hkeys Hy Hx Heq).
      - unfold writesKey in Hw. apply orb_false_iff in Hw as [Hwp Hwh].
        destruct (set_provider s) eqn:Hsp; [discriminate|].
        destruct (set_hostname s) eqn:Hsh; [discriminate|].
        cbn [applySet row_provider row_hostname] in Hxp, Hxh.
        rewrite Hsp in Hxp. rewrite Hsh in Hxh. cbn [default] in Hxp, Hxh.
        apply liveWithId_true in Hlx as [_ Hx0'].
        apply Hkl, (Huniq k l x y Hx Hy Hx0' Hy0 Hxp Hxh). }
    destruct (liveWithId id a) eqn:Hla, (liveWithId id b) eqn:Hlb.
    + apply liveWithId_true in Hla as [Hia _]. apply liveWithId_true in Hlb as [Hib _].
      congruence.
    + apply (Hstep i j a b); assumption.
    + apply (Hstep j i b a); try assumption; try congruence; auto.
    + apply Hij, (Huniq i j a b); assumption.
Qed.

(** From one request to the next, ids stay distinct and live pairs stay
    unique. *)
Lemma createApp_keeps_pairs (env : Bindings) (r : Route) (w : World) :
  KeysDistinct (db w) → LivePairsUnique (db w) →
  KeysDistinct (db (snd (createApp env r w)))
  ∧ LivePairsUnique (db (snd (createApp env r w))).
Proof.
  intros Hkeys Huniq. pose proof (createApp_table_change env r w) as Hc. split.
  - apply (change_keeps_keys _ _ _ Hc Hkeys).
  - apply (change_keeps_pairs _ _ _ Hc Hkeys Huniq).
Qed.

Lemma serve_keeps_pairs (env : Bindings) (session : list (Timestamp * Route)) (w : World) :
  KeysDistinct (db w) → LivePairsUnique (db w) →
  KeysDistinct (db (serve env session w)) ∧ LivePairsUnique (db (serve env session w)).
Proof.
  revert w. induction session as [|[t r] rest IH]; intros w Hkeys Huniq; [auto|].
  cbn [serve].
  destruct (createApp_keeps_pairs env r (at_ t w) Hkeys Huniq) as [Hkeys' Huniq'].
  apply IH; assumption.
Qed.

End Invariant.

(** ** Uniqueness of the pair *)

Section Create.
Context `{Platform}.

Lemma afterInsert_status (env : Bindings) (created : ResolverRow) (w1 : World) :
  let outcome := afterInsert env created w1 in
  (fst outcome = inr (resolverResponse created 201) ∨ fst outcome = inr CREATED_NOT_SYNCED)
  ∧ db (snd outcome) = db w1.
Proof.
  intros outcome. split; [|apply afterInsert_db].
  subst outcome. unfold afterInsert.
  destruct (truthyString (row_ipv4 created)); [|left; reflexivity].
  destruct (syncDnsRecord _ _ _ w1) as [[e|u] w2]; [right|left]; reflexivity.
Qed.

(** A create that passed validation either finds the pair taken and changes
    nothing, or appends the new live row. *)
Lemma create_outcome (request : Request) (env : Bindings) (w : World)
    (data : gmap string JsValue) (p h : string) :
  readJsonBody request = inr data →
  let v := validateResolverPayload data createOptions in
  errors v = [] → p_provider (fields v) = Some p → p_hostname (fields v) = Some h →
  let row := newRow (db w) (now w) p h (insertValues (fields v)) in
  if clashes row (rows (db w))
  then createResolverHandler request env w = (inr CONFLICT_ON_CREATE, w)
  else (fst (createResolverHandler request env w) = inr (resolverResponse row 201)
        ∨ fst (createResolverHandler request env w) = inr CREATED_NOT_SYNCED)
       ∧ db (snd (createResolverHandler request env w))
         = {| rows := rows (db w) ++ [row]; lastId := row_id row |}.
Proof.
  intros Hread v Herr Hp Hh row.
  rewrite (create_run request env w data Hread Herr). fold v.
  rewrite (insert_run (insertValues (fields v)) p h w Hp Hh). fold row.
  destruct (clashes row (rows (db w))); [reflexivity|].
  cbn [head]. destruct (afterInsert_status env row (setDb {| rows := rows (db w) ++ [row];
                                                             lastId := nextId (db w) |} w))
    as [Hst Hdb].
  split; [exact Hst | exact Hdb].
Qed.

(** C1, with the table's constraint modelled from the specification: when
    the table holds a live row with the pair (p, h), a create whose
    validated provider and hostname are (p, h) inserts nothing, touches
    nothing and answers 409. When no row carries the pair the create inserts
    one live row with it (answering 201, or 502 if the DNS sync that follows
    fails); and after a create that inserted, every further create with the
    same pair answers 409 and inserts nothing: of two creates with the same
    pair exactly one succeeds in the table and the other gets the 409.
    Through any sequence of requests the ids stay distinct and no two live
    rows share a pair. *)
Theorem pair_is_unique_among_live_records
    (request : Request) (env : Bindings) (w : World)
    (data : gmap string JsValue) (p h : string) :
  readJsonBody request = inr data →
  let v := validateResolverPayload data createOptions in
  errors v = [] → p_provider (fields v) = Some p → p_hostname (fields v) = Some h →
  let w1 := snd (createResolverHandler request env w) in
  let inserted :=
    statusOf (fst (createResolverHandler request env w)) = Some 201
    ∨ statusOf (fst (createResolverHandler request env w)) = Some 502 in
  ((∃ row, In row (rows (db w)) ∧ row_isDeleted row = 0
           ∧ row_provider row = p ∧ row_hostname row = h) →
   createResolverHandler request env w = (inr CONFLICT_ON_CREATE, w))
  ∧ ((∀ row, In row (rows (db w)) → ¬ (row_provider row = p ∧ row_hostname row = h)) →
     inserted)
  ∧ (inserted →
     (∃ row, rows (db w1) = (rows (db w) ++ [row])%list ∧ row_isDeleted row = 0
             ∧ row_provider row = p ∧ row_hostname row = h)
     ∧ ∀ request' data' t,
         readJsonBody request' = inr data' →
         let v' := validateResolverPayload data' createOptions in
         errors v' = [] → p_provider (fields v') = Some p → p_hostname (fields v') = Some h →
         createResolverHandler request' env (at_ t w1) = (inr CONFLICT_ON_CREATE, at_ t w1))
  ∧ (KeysDistinct (db w) → LivePairsUnique (db w) →
     ∀ session, KeysDistinct (db (serve env session w))
                ∧ LivePairsUnique (db (serve env session w))).
Proof.
  intros Hread v Herr Hp Hh w1 inserted.
  pose proof (create_outcome request env w data p h Hread Herr Hp Hh) as Hout.
  cbn zeta in Hout. fold v in Hout.
  set (row := newRow (db w) (now w) p h (insertValues (fields v))) in *.
  assert (∀ (w' : World) request' data',
            (∃ o, In o (rows (db w')) ∧ row_isDeleted o = 0
                  ∧ row_provider o = p ∧ row_hostname o = h) →
            readJsonBody request' = inr data' →
            errors (validateResolverPayload data' createOptions) = [] →
            p_provider (fields (validateResolverPayload data' createOptions)) = Some p →
            p_hostname (fields (validateResolverPayload data' createOptions)) = Some h →
            createResolverHandler request' env w' = (inr CONFLICT_ON_CREATE, w')) as Hconflict.
  { intros w' request' data' (o & Hin & Hlive & Hop & Hoh) Hread' Herr' Hp' Hh'.
    pose proof (create_outcome request' env w' data' p h Hread' Herr' Hp' Hh') as Hout'.
    cbn zeta in Hout'.
    assert (clashes (newRow (db w') (now w') p h
                       (insertValues (fields (validateResolverPayload data' createOptions))))
              (rows (db w')) = true) as Hclash.
    { apply clashes_new_row. exists o. split; [exact Hin|].
      split; [apply indexed_live, Hlive | auto]. }
    rewrite Hclash in Hout'. exact Hout'. }
  split; [|split; [|split]].
  4:{ intros Hkeys Huniq session. apply serve_keeps_pairs; assumption. }
  - intros Hex. apply (Hconflict w request data Hex Hread Herr Hp Hh).
  - intros Hfree.
    destruct (clashes row (rows (db w))) eqn:Hclash.
    + exfalso. apply clashes_new_row in Hclash as (o & Hin & _ & Hop & Hoh).
      apply (Hfree o Hin). auto.
    + destruct Hout as [[Hst|Hst] _]; unfold inserted; rewrite Hst; [left|right]; reflexivity.
  - intros Hins.
    destruct (clashes row (rows (db w))) eqn:Hclash.
    { exfalso. unfold inserted in Hins. rewrite Hout in Hins.
      destruct Hins as [Hs|Hs]; discriminate Hs. }
    destruct Hout as [_ Hdb]. fold w1 in Hdb.
    split.
    + exists row. rewrite Hdb. cbn [rows]. repeat split; reflexivity.
    + intros request' data' t Hread' v' Herr' Hp' Hh'.
      apply (Hconflict (at_ t w1) request' data'); try assumption.
      exists row. cbn [at_ db]. rewrite Hdb. cbn [rows].
      split; [apply in_app_iff; right; left; reflexivity|]. repeat split; reflexivity.
Qed.

End Create.

(** ** A failed sync after a committed mutation *)

Section Sync.
Context `{Platform}.

Lemma sync_fails_nonempty (env : Bindings) (hostname ipv4 : string) (w : World) (e : JsError) :
  fst (syncDnsRecord env hostname ipv4 w) = inl e → truthyString ipv4 = true.
Proof.
  destruct ipv4; [rewrite sync_empty; discriminate | reflexivity].
Qed.


Lemma update_returning_head (s : SetClause) (cond : ResolverRow → bool) (w w1 : World)
    (returned : list ResolverRow) :
  updateReturning s cond w = (inr returned, w1) →
  head returned = option_map (applySet s (now w)) (List.find cond (rows (db w)))
  ∧ db w1 = {| rows := updatedRows s (now w) cond (rows (db w)); lastId := lastId (db w) |}.
Proof.
  rewrite update_returning_run. destruct (_ && _); [discriminate|].
  intros [= <- <-]. rewrite head_map, head_filter_find. split; reflexivity.
Qed.

Lemma In_updated_row (s : SetClause) (t : Timestamp) (cond : ResolverRow → bool)
    (table : list ResolverRow) (r : ResolverRow) :
  List.find cond table = Some r → In (applySet s t r) (updatedRows s t cond table).
Proof.
  intros Hf. apply find_some in Hf as [Hin Hc]. apply In_updatedRows.
  exists r. rewrite Hc. auto.
Qed.

(** C2: when the insert of a create succeeds and the reconcile that follows
    throws, the handler answers 502 "Resolver created but DNS sync failed"
    and the table is the one the insert left, with the new row in it. When
    the update of an update succeeds, the submitted ipv4 differs from the
    stored one and is not empty, and the reconcile throws, the handler
    answers 502 "Resolver updated but DNS sync failed" and the table is the
    one the update left, with the updated row in it. *)
Theorem sync_failure_keeps_the_mutation (env : Bindings) (w : World) :
  (∀ request data returned created w1 e,
     readJsonBody request = inr data →
     let v := validateResolverPayload data createOptions in
     errors v = [] →
     insertReturning (insertValues (fields v)) w = (inr returned, w1) →
     head returned = Some created →
     fst (syncDnsRecord env (row_hostname created) (row_ipv4 created) w1) = inl e →
     let w' := snd (createResolverHandler request env w) in
     fst (createResolverHandler request env w) = inr CREATED_NOT_SYNCED
     ∧ db w' = db w1
     ∧ rows (db w') = (rows (db w) ++ [created])%list)
  ∧ (∀ request id data current returned updated w1 e ip,
       readJsonBody request = inr data →
       let v := validateResolverPayload data updateOptions in
       errors v = [] →
       List.find (liveWithId id) (rows (db w)) = Some current →
       updateReturning (updateValues (fields v)) (liveWithId id) w = (inr returned, w1) →
       head returned = Some updated →
       p_ipv4 (fields v) = Some ip → ip ≠ row_ipv4 current → ip ≠ "" →
       fst (syncDnsRecord env (row_hostname updated) (row_ipv4 updated) w1) = inl e →
       let w' := snd (updateResolverHandler request env id w) in
       fst (updateResolverHandler request env id w) = inr UPDATED_NOT_SYNCED
       ∧ db w' = db w1
       ∧ In updated (rows (db w'))
       ∧ updated = applySet (updateValues (fields v)) (now w) current).
Proof.
  split.
  - intros request data returned created w1 e Hread v Herr Hins Hhead Hsync w'.
    subst w' v. rewrite (create_run request env w data Hread Herr).
    rewrite Hins, Hhead. unfold afterInsert.
    rewrite (sync_fails_nonempty _ _ _ _ _ Hsync).
    pose proof (sync_db env (row_hostname created) (row_ipv4 created) w1) as Hdb.
    destruct (syncDnsRecord _ _ _ w1) as [[e'|u] w2]; [|discriminate Hsync].
    cbn [fst snd] in *. split; [reflexivity|]. split; [exact Hdb|].
    change (db (snd (console_error "Failed to sync DNS after create" w2))) with (db w2).
    rewrite Hdb.
    unfold insertReturning in Hins.
    destruct (v_provider _) as [p|]; [|discriminate].
    destruct (v_hostname _) as [h|]; [|discriminate].
    destruct (clashes _ _); [discriminate|].
    injection Hins as <- <-. injection Hhead as <-. reflexivity.
  - intros request id data current returned updated w1 e ip Hread v Herr Hcur Hupd Hhead
           Hip Hne Hnonempty Hsync w'.
    subst w' v. rewrite (update_run request env id w data Hread Herr).
    rewrite (valid_update_has_field data Herr), Hcur, Hupd, Hhead.
    destruct (update_returning_head _ _ _ _ _ Hupd) as [Hh Hdb1].
    rewrite Hhead, Hcur in Hh. cbn [option_map] in Hh. injection Hh as Hupdated.
    assert (mustSync (fields (validateResolverPayload data updateOptions)) current updated
            = true) as Hmust.
    { unfold mustSync. rewrite Hip. apply andb_true_iff. split.
      - apply negb_true_iff, String.eqb_neq, Hne.
      - rewrite Hupdated. cbn [applySet row_ipv4 updateValues set_ipv4]. rewrite Hip.
        cbn [default]. destruct ip; [contradiction | reflexivity]. }
    unfold afterUpdate. rewrite Hmust.
    pose proof (sync_db env (row_hostname updated) (row_ipv4 updated) w1) as Hdb.
    destruct (syncDnsRecord _ _ _ w1) as [[e'|u] w2]; [|discriminate Hsync].
    cbn [fst snd] in *. split; [reflexivity|].
    change (db (snd (console_error "Failed to sync DNS after update" w2))) with (db w2).
    rewrite Hdb. split; [reflexivity|]. split; [|exact Hupdated].
    rewrite Hdb1, Hupdated. cbn [rows]. apply In_updated_row, Hcur.
Qed.

End Sync.

(** ** When an update reconciles *)

Section Trigger.
Context `{Platform}.


Lemma afterUpdate_syncs (env : Bindings) (f : ResolverPayload) (current updated : ResolverRow)
    (w1 : World) :
  let outcome := afterUpdate env f current updated w1 in
  (statusOf (fst outcome) = Some 200 ∨ statusOf (fst outcome) = Some 502)
  ∧ if mustSync f current updated
    then syncs (snd outcome) = (syncs w1 ++ [(row_hostname updated, row_ipv4 updated)])%list
    else outcome = (inr (resolverResponse updated 200), w1).
Proof.
  intros outcome. subst outcome. unfold afterUpdate.
  destruct (mustSync f current updated); [|split; [left|]; reflexivity].
  destruct (sync_frame env (row_hostname updated) (row_ipv4 updated) w1) as (_ & _ & Hs & _).
  destruct (syncDnsRecord _ _ _ w1) as [[e|u] w2]; cbn [fst snd] in *.
  - split; [right; reflexivity | exact Hs].
  - split; [left; reflexivity | exact Hs].
Qed.

Lemma mustSync_true (f : ResolverPayload) (t : Timestamp) (current : ResolverRow) :
  mustSync f current (applySet (updateValues f) t current) = true
  ↔ ∃ ip, p_ipv4 f = Some ip ∧ ip ≠ row_ipv4 current ∧ ip ≠ "".
Proof.
  unfold mustSync. cbn [applySet row_ipv4 updateValues set_ipv4].
  destruct (p_ipv4 f) as [ip|]; cbn [default].
  - rewrite andb_true_iff, negb_true_iff, String.eqb_neq. split.
    + intros [Hne Hip]. exists ip. repeat split; [exact Hne|]. intros ->. discriminate Hip.
    + intros (ip' & [= <-] & Hne & Hip). split; [exact Hne|]. destruct ip; [contradiction|reflexivity].
  - split; [discriminate|]. intros (ip & Hip & _). discriminate Hip.
Qed.

(** C3: for an update that succeeded in the table (answered 200, or 502
    after a failed sync), [syncDnsRecord] is called, once and with the new
    address, exactly when ipv4 is among the validated fields, differs from
    the ipv4 the record had before and is not empty; otherwise nothing is
    recorded as sent, the provider is not contacted and the answer is 200. *)
Theorem update_syncs_iff_address_changed
    (request : Request) (env : Bindings) (id : Z) (w : World)
    (data : gmap string JsValue) (current : ResolverRow) :
  readJsonBody request = inr data →
  let f := fields (validateResolverPayload data updateOptions) in
  errors (validateResolverPayload data updateOptions) = [] →
  List.find (liveWithId id) (rows (db w)) = Some current →
  let outcome := updateResolverHandler request env id w in
  let w' := snd outcome in
  let changed := ∃ ip, p_ipv4 f = Some ip ∧ ip ≠ row_ipv4 current ∧ ip ≠ "" in
  statusOf (fst outcome) = Some 200 ∨ statusOf (fst outcome) = Some 502 →
  (changed →
   ∃ ip, p_ipv4 f = Some ip
         ∧ syncs w' = (syncs w ++ [(default (row_hostname current) (p_hostname f), ip)])%list)
  ∧ (¬ changed →
     syncs w' = syncs w ∧ requests w' = requests w ∧ net w' = net w
     ∧ statusOf (fst outcome) = Some 200)
  ∧ (syncs w' ≠ syncs w ↔ changed).
Proof.
  intros Hread f Herr Hcur outcome w' changed Hok.
  subst w' outcome. revert Hok.
  rewrite (update_run request env id w data Hread Herr).
  rewrite (valid_update_has_field data Herr), Hcur, update_returning_run. fold f.
  destruct (writesKey _ && _); [intros [Hs|Hs]; discriminate Hs|].
  rewrite head_map, head_filter_find, Hcur. cbn [option_map].
  set (updated := applySet (updateValues f) (now w) current).
  set (w1 := setDb _ w).
  destruct (afterUpdate_syncs env f current updated w1) as [_ Hsync].
  pose proof (mustSync_true f (now w) current) as Hmust. fold updated in Hmust. fold changed in Hmust.
  intros _.
  destruct (mustSync f current updated).
  - assert changed as Hch by (apply Hmust; reflexivity).
    assert (syncs (snd (afterUpdate env f current updated w1)) ≠ syncs w) as Hne.
    { rewrite Hsync. cbn [w1 setDb syncs]. intros Heq.
      apply (f_equal (@length _)) in Heq. rewrite length_app in Heq. cbn in Heq. lia. }
    split; [|split; [tauto|tauto]].
    intros _. destruct Hch as (ip & Hip & _). exists ip. split; [exact Hip|].
    rewrite Hsync. cbn [w1 setDb syncs updated applySet row_hostname row_ipv4 updateValues
                        set_hostname set_ipv4].
    rewrite Hip. reflexivity.
  - assert (¬ changed) as Hch by (intros Hc; apply Hmust in Hc; discriminate Hc).
    rewrite Hsync. cbn [fst snd w1 setDb syncs requests net].
    split; [tauto|]. split; [intros _; repeat split; reflexivity|].
    split; [intros Hne; exfalso; apply Hne; reflexivity | tauto].
Qed.

End Trigger.

(** ** Values that are not strings *)

Section Coercion.
Context `{Platform}.

Lemma stringOrEmpty_non_string (raw : JsValue) :
  (∀ s, raw ≠ JsString s) → stringOrEmpty raw = "".
Proof. intros Hraw. destruct raw; try reflexivity. exfalso. eapply Hraw. reflexivity. Qed.

Lemma requiredErrors_delete (body : gmap string JsValue) (k key : string) (required : bool)
    (e1 e2 : string) :
  k ≠ key →
  requiredErrors (delete k body) key required e1 e2 = requiredErrors body key required e1 e2.
Proof. intros Hk. unfold requiredErrors. rewrite lookup_delete_ne by exact Hk. reflexivity. Qed.

Lemma any_errors_incl (required : bool) (f g : ResolverPayload) :
  (keyCount f = O → keyCount g = O) →
  ∀ e, In e (anyFieldErrors required f) → In e (anyFieldErrors required g).
Proof.
  intros Hk e. unfold anyFieldErrors. destruct required; cbn [andb]; [|intros []].
  destruct (keyCount f =? 0)%nat eqn:Hf; [|intros []].
  apply Nat.eqb_eq in Hf. rewrite (Hk Hf). cbn. auto.
Qed.

(** C10: a value that is not a string, bound to [ipv4] or [alias], is
    normalized to "" and brings no error of its own (every error reported is
    also reported for the body without that key); bound to [provider] or
    [hostname] it is rejected with the field's "cannot be empty" error. So an
    update whose body is just a non-string [ipv4] is accepted, stores "" as
    the address of the record, and calls no reconcile. *)
Theorem non_string_optional_fields_are_unset
    (body : gmap string JsValue) (options : ValidateOptions) (raw : JsValue) :
  (∀ s, raw ≠ JsString s) →
  let v := validateResolverPayload body options in
  (body !! "ipv4" = Some raw →
   p_ipv4 (fields v) = Some ""
   ∧ ¬ In "ipv4 must be a valid IPv4 address" (errors v)
   ∧ ∀ e, In e (errors v) →
          In e (errors (validateResolverPayload (delete "ipv4" body) options)))
  ∧ (body !! "alias" = Some raw →
     p_alias (fields v) = Some ""
     ∧ ∀ e, In e (errors v) →
            In e (errors (validateResolverPayload (delete "alias" body) options)))
  ∧ (body !! "provider" = Some raw →
     In "provider cannot be empty" (errors v) ∧ p_provider (fields v) = None)
  ∧ (body !! "hostname" = Some raw →
     In "hostname cannot be empty" (errors v) ∧ p_hostname (fields v) = None)
  ∧ (∀ request env id w current,
       readJsonBody request = inr body →
       body = {["ipv4" := raw]} →
       List.find (liveWithId id) (rows (db w)) = Some current →
       let w' := snd (updateResolverHandler request env id w) in
       fst (updateResolverHandler request env id w)
       = inr (resolverResponse (applySet (updateValues (fields v)) (now w) current) 200)
       ∧ row_ipv4 (applySet (updateValues (fields v)) (now w) current) = ""
       ∧ In (applySet (updateValues (fields v)) (now w) current) (rows (db w'))
       ∧ syncs w' = syncs w ∧ requests w' = requests w).
Proof.
  intros Hraw v. pose proof (stringOrEmpty_non_string raw Hraw) as Hempty.
  assert (ipv4Rejected raw = false) as Hrej.
  { unfold ipv4Rejected. rewrite Hempty. reflexivity. }
  split; [|split; [|split; [|split]]].
  - intros Hb. split; [|split].
    + unfold v. rewrite (ipv4_accepted body options raw Hb Hrej), Hempty. reflexivity.
    + unfold v. rewrite ipv4_error_iff. intros (raw' & Hb' & Hrej'). congruence.
    + intros e. unfold v. rewrite !in_errors.
      rewrite !requiredErrors_delete by discriminate.
      intros [Hin|[Hin|[Hin|Hin]]]; [auto | auto | |].
      * exfalso. unfold ipv4Errors in Hin. rewrite Hb, Hrej in Hin. destruct Hin.
      * right; right; right. revert Hin. apply any_errors_incl.
        unfold keyCount, acceptedFields, requiredField. cbn [p_provider p_hostname p_alias p_ipv4].
        rewrite !lookup_delete_ne by discriminate. rewrite lookup_delete_eq, Hb, Hrej.
        cbn [defined]. lia.
  - intros Hb. split.
    + unfold v. rewrite validate_eq. cbn [fields acceptedFields p_alias].
      rewrite Hb. cbn [option_map]. rewrite Hempty. reflexivity.
    + intros e. unfold v. rewrite !in_errors.
      rewrite !requiredErrors_delete by discriminate.
      intros [Hin|[Hin|[Hin|Hin]]]; [auto | auto | |].
      * right; right; left. unfold ipv4Errors in *.
        rewrite lookup_delete_ne by discriminate. exact Hin.
      * right; right; right. revert Hin. apply any_errors_incl.
        unfold keyCount, acceptedFields, requiredField. cbn [p_provider p_hostname p_alias p_ipv4].
        rewrite !lookup_delete_ne by discriminate. rewrite lookup_delete_eq, Hb.
        cbn [defined option_map]. lia.
  - intros Hb. unfold v. rewrite validate_eq. cbn [fields errors acceptedFields p_provider].
    unfold requiredErrors at 1. unfold requiredField. rewrite Hb, Hempty. cbn [truthyString].
    split; [left; reflexivity | reflexivity].
  - intros Hb. unfold v. rewrite validate_eq. cbn [fields errors acceptedFields p_hostname].
    unfold requiredErrors at 2. unfold requiredField. rewrite Hb, Hempty. cbn [truthyString].
    split; [|reflexivity]. apply in_app_iff. right. left; reflexivity.
  - intros request env id w current Hread Hbody Hcur w'.
    assert (validateResolverPayload body updateOptions
            = {| fields := {| p_provider := None; p_hostname := None; p_alias := None;
                              p_ipv4 := Some "" |};
                 errors := [] |}) as Hv.
    { rewrite validate_eq. unfold acceptedFields, requiredErrors, requiredField, ipv4Errors,
        anyFieldErrors. subst body.
      rewrite !lookup_singleton_ne by discriminate. rewrite lookup_singleton_eq, Hrej, Hempty.
      reflexivity. }
    assert (fields v = {| p_provider := None; p_hostname := None; p_alias := None;
                           p_ipv4 := Some "" |}) as Hf.
    { unfold v. rewrite validate_eq. unfold acceptedFields, requiredField. subst body.
      rewrite !lookup_singleton_ne by discriminate. rewrite lookup_singleton_eq, Hrej, Hempty.
      reflexivity. }
    subst w'. rewrite (update_run request env id w body Hread); [|rewrite Hv; reflexivity].
    rewrite Hv, Hf. cbn [fields keyCount p_provider p_hostname p_alias p_ipv4 defined Nat.add
                         Nat.eqb].
    rewrite Hcur, update_returning_run.
    match goal with |- context [writesKey ?s] =>
      change (writesKey s) with false
    end.
    cbn [andb]. rewrite head_map, head_filter_find, Hcur. cbn [option_map].
    unfold afterUpdate, mustSync. cbn [applySet row_ipv4 updateValues set_ipv4 default
                                      truthyString p_ipv4].
    rewrite andb_false_r. cbn [fst snd setDb db rows syncs requests].
    split; [reflexivity|]. split; [reflexivity|]. split; [|split; reflexivity].
    apply (In_updated_row _ _ _ _ _ Hcur).
Qed.

End Coercion.

(** ** Paging parameters *)

Section Paging.
Context `{Platform}.

Lemma Qfloor_unit_interval (q : Q) : (0 < q)%Q → (q < 1)%Q → Qfloor q = 0.
Proof.
  intros Hpos Hlt.
  pose proof (Qfloor_le q) as Hlo. pose proof (Qlt_floor q) as Hhi.
  assert (inject_Z (Qfloor q) < inject_Z 1)%Q as H1.
  { eapply Qle_lt_trans; [exact Hlo | exact Hlt]. }
  assert (inject_Z 0 < inject_Z (Qfloor q + 1))%Q as H2.
  { eapply Qlt_trans; [exact Hpos | exact Hhi]. }
  rewrite <- Zlt_Qlt in H1, H2. lia.
Qed.


Lemma parseLimit_bounds (value : option string) :
  0 <= parseLimit value 100 500 <= 500.
Proof.
  unfold parseLimit. destruct (Number value) as [| |q]; try lia.
  destruct (Qle_bool q 0) eqn:Hq; [lia|].
  assert (0 <= Qfloor q); [|lia].
  assert (¬ (q <= 0)%Q) as Hpos.
  { intros Hle. apply Qle_bool_iff in Hle. congruence. }
  apply Qnot_le_lt in Hpos.
  pose proof (Qlt_floor q) as Hhi.
  assert (inject_Z 0 < inject_Z (Qfloor q + 1))%Q as H2.
  { eapply Qlt_trans; [exact Hpos | exact Hhi]. }
  rewrite <- Zlt_Qlt in H2. lia.
Qed.

(** C7, the failing case: a limit parameter whose number lies strictly
    between 0 and 1 (such as "0.5") passes the [parsed <= 0] guard and is
    floored afterwards, so the effective limit is 0 and the list request
    returns no items. *)
Theorem parseLimit_of_a_fraction_is_zero (value : option string) (q : Q) :
  Number value = Finite q → (0 < q)%Q → (q < 1)%Q →
  parseLimit value 100 500 = 0
  ∧ ∀ env params w,
      get params "limit" = value →
      ∃ offset,
        listResolversHandler env params w
        = (inr (jsonResponse (ListBody [] 0 offset 0) 200), w).
Proof.
  intros Hnum Hpos Hlt.
  assert (parseLimit value 100 500 = 0) as Hzero.
  { unfold parseLimit. rewrite Hnum.
    assert (Qle_bool q 0 = false) as ->.
    { apply not_true_iff_false. intros Hle. apply Qle_bool_iff in Hle.
      apply (Qlt_irrefl 0). eapply Qlt_le_trans; eassumption. }
    rewrite (Qfloor_unit_interval q Hpos Hlt). reflexivity. }
  split; [exact Hzero|].
  intros env params w Hparam. exists (parseOffset (get params "offset")).
  unfold listResolversHandler, bind, selectFrom, ret. rewrite Hparam, Hzero.
  reflexivity.
Qed.

End Paging.


(** ** White space and letter case *)

Lemma trimStart_head (s : string) : headOk (trimStart s).
Proof.
  induction s as [|c s IH]; cbn; [exact I|].
  destruct (isWhiteSpace c) eqn:Hc; [exact IH | exact Hc].
Qed.

Lemma trimStart_fix (s : string) : headOk s → trimStart s = s.
Proof. destruct s as [|c s]; cbn; [reflexivity|]. intros ->. reflexivity. Qed.

Lemma trimEnd_cons (c : ascii) (s : string) :
  trimEnd (String c s)
  = match trimEnd s with
    | EmptyString => if isWhiteSpace c then EmptyString else String c EmptyString
    | t => String c t
    end.
Proof. reflexivity. Qed.

Lemma trimEnd_head (s : string) : headOk s → headOk (trimEnd s).
Proof.
  destruct s as [|c s]; [intros; exact I|].
  intros Hc. cbn in Hc. rewrite trimEnd_cons.
  destruct (trimEnd s); [rewrite Hc|]; exact Hc.
Qed.

Lemma trimEnd_idem (s : string) : trimEnd (trimEnd s) = trimEnd s.
Proof.
  induction s as [|c s IH]; [reflexivity|].
  rewrite trimEnd_cons. destruct (trimEnd s) as [|d u] eqn:Ht.
  - destruct (isWhiteSpace c) eqn:Hc; [reflexivity|].
    rewrite trimEnd_cons. cbn [trimEnd]. rewrite Hc. reflexivity.
  - rewrite trimEnd_cons, IH. reflexivity.
Qed.

Lemma trim_idem (s : string) : trim (trim s) = trim s.
Proof.
  unfold trim.
  rewrite (trimStart_fix (trimEnd (trimStart s))).
  - apply trimEnd_idem.
  - apply trimEnd_head, trimStart_head.
Qed.

Lemma trimEnd_blank (s : string) : allWhiteSpace s = true → trimEnd s = "".
Proof.
  induction s as [|c s IH]; [reflexivity|].
  cbn [allWhiteSpace]. intros [Hc Hs]%andb_true_iff.
  rewrite trimEnd_cons, (IH Hs), Hc. reflexivity.
Qed.

Lemma trimStart_blank (s : string) : allWhiteSpace s = true → trimStart s = "".
Proof.
  induction s as [|c s IH]; [reflexivity|].
  cbn [allWhiteSpace]. intros [Hc Hs]%andb_true_iff.
  cbn [trimStart]. rewrite Hc. auto.
Qed.

Lemma trimStart_app_blank (pre s : string) :
  allWhiteSpace pre = true → trimStart (pre +:+ s) = trimStart s.
Proof.
  induction pre as [|c pre IH]; [reflexivity|].
  cbn [allWhiteSpace]. intros [Hc Hs]%andb_true_iff.
  change (String c pre +:+ s) with (String c (pre +:+ s)).
  cbn [trimStart]. rewrite Hc. auto.
Qed.

Lemma trimEnd_app_blank (s post : string) :
  allWhiteSpace post = true → trimEnd (s +:+ post) = trimEnd s.
Proof.
  intros Hpost. induction s as [|c s IH].
  - change ("" +:+ post) with post. rewrite (trimEnd_blank post Hpost). reflexivity.
  - change (String c s +:+ post) with (String c (s +:+ post)).
    rewrite !trimEnd_cons, IH. reflexivity.
Qed.

Lemma trim_app_blank (pre s post : string) :
  allWhiteSpace pre = true → allWhiteSpace post = true →
  trim (pre +:+ s +:+ post) = trim s.
Proof.
  intros Hpre Hpost. unfold trim.
  rewrite (trimStart_app_blank pre _ Hpre).
  induction s as [|c s IH].
  - change ("" +:+ post) with post.
    rewrite (trimStart_blank post Hpost). reflexivity.
  - change (String c s +:+ post) with (String c (s +:+ post)).
    cbn [trimStart]. destruct (isWhiteSpace c); [exact IH|].
    change (String c (s +:+ post)) with (String c s +:+ post).
    apply trimEnd_app_blank, Hpost.
Qed.

Lemma isWhiteSpace_lower (c : ascii) : isWhiteSpace (toLowerChar c) = isWhiteSpace c.
Proof. destruct c as [[] [] [] [] [] [] [] []]; reflexivity. Qed.

Lemma toLowerChar_idem (c : ascii) : toLowerChar (toLowerChar c) = toLowerChar c.
Proof. destruct c as [[] [] [] [] [] [] [] []]; reflexivity. Qed.

Lemma toLowerCase_idem (s : string) : toLowerCase (toLowerCase s) = toLowerCase s.
Proof. induction s as [|c s IH]; cbn; [|rewrite toLowerChar_idem, IH]; reflexivity. Qed.

Lemma trimStart_lower (s : string) : trimStart (toLowerCase s) = toLowerCase (trimStart s).
Proof.
  induction s as [|c s IH]; [reflexivity|].
  cbn [toLowerCase trimStart]. rewrite isWhiteSpace_lower.
  destruct (isWhiteSpace c); [exact IH | reflexivity].
Qed.

Lemma trimEnd_lower (s : string) : trimEnd (toLowerCase s) = toLowerCase (trimEnd s).
Proof.
  induction s as [|c s IH]; [reflexivity|].
  cbn [toLowerCase]. rewrite !trimEnd_cons, IH, isWhiteSpace_lower.
  destruct (trimEnd s); cbn [toLowerCase]; [destruct (isWhiteSpace c)|]; reflexivity.
Qed.

Lemma trim_lower (s : string) : trim (toLowerCase s) = toLowerCase (trim s).
Proof. unfold trim. rewrite trimStart_lower, trimEnd_lower. reflexivity. Qed.

Lemma truthyString_false (s : string) : truthyString s = false ↔ s = "".
Proof. destruct s; cbn; split; congruence. Qed.

Lemma truthyString_true (s : string) : truthyString s = true ↔ s ≠ "".
Proof. destruct s; cbn; split; congruence. Qed.

Section Normalising.
Context `{Platform}.

(** X1: [optionalString] returns [undefined] exactly for [null] and for
    blank values; any string it returns is the trimmed value, is not empty,
    has no white space around it and is returned as it is when given again;
    white space around a value makes no difference. *)
Theorem optionalString_is_normal (value : option string) :
  (optionalString value = None ↔ value = None ∨ ∃ s, value = Some s ∧ trim s = "")
  ∧ (∀ t, optionalString value = Some t →
       t ≠ "" ∧ trim t = t ∧ optionalString (Some t) = Some t
       ∧ ∃ s, value = Some s ∧ t = trim s)
  ∧ (∀ pre s post, allWhiteSpace pre = true → allWhiteSpace post = true →
       optionalString (Some (pre +:+ s +:+ post)) = optionalString (Some s)).
Proof.
  split; [|split].
  - destruct value as [s|]; cbn.
    + destruct (truthyString (trim s)) eqn:Ht.
      * apply truthyString_true in Ht. split; [discriminate|].
        intros [|[s' [[= <-] Hs]]]; [discriminate | contradiction].
      * apply truthyString_false in Ht. split; [|reflexivity].
        intros _. right. eauto.
    + split; auto.
  - intros t Ht. destruct value as [s|]; cbn in Ht; [|discriminate].
    destruct (truthyString (trim s)) eqn:Hs; [|discriminate].
    injection Ht as <-. apply truthyString_true in Hs.
    repeat split; [exact Hs | apply trim_idem | | eauto].
    cbn. rewrite trim_idem. apply truthyString_true in Hs. rewrite Hs. reflexivity.
  - intros pre s post Hpre Hpost. cbn. rewrite trim_app_blank by assumption. reflexivity.
Qed.

(** X2: [parseBoolean] is false for [null], and true exactly when the
    value, trimmed and in lower case, is "1", "true", "yes" or "on"; the case
    of the letters and white space around the value make no difference. *)
Theorem parseBoolean_ignores_case_and_space (s : string) :
  parseBoolean None = false
  ∧ parseBoolean (Some (toLowerCase s)) = parseBoolean (Some s)
  ∧ (∀ pre post, allWhiteSpace pre = true → allWhiteSpace post = true →
       parseBoolean (Some (pre +:+ s +:+ post)) = parseBoolean (Some s))
  ∧ (parseBoolean (Some s) = true ↔ In (toLowerCase (trim s)) ["1"; "true"; "yes"; "on"]).
Proof.
  split; [reflexivity|]. split; [|split].
  - cbn [parseBoolean]. rewrite trim_lower, toLowerCase_idem. reflexivity.
  - intros pre post Hpre Hpost. cbn [parseBoolean].
    rewrite trim_app_blank by assumption. reflexivity.
  - cbn [parseBoolean existsb]. rewrite !orb_true_iff, !String.eqb_eq. cbn [In].
    intuition congruence.
Qed.

End Normalising.

(** ** What the validation accepts *)

Lemma payloadBody_lookup (f : ResolverPayload) :
  payloadBody f !! "provider" = JsString <$> p_provider f
  ∧ payloadBody f !! "hostname" = JsString <$> p_hostname f
  ∧ payloadBody f !! "alias" = JsString <$> p_alias f
  ∧ payloadBody f !! "ipv4" = JsString <$> p_ipv4 f.
Proof.
  unfold payloadBody.
  destruct f as [[p|] [h|] [a|] [i|]]; cbn [p_provider p_hostname p_alias p_ipv4];
    repeat split;
    repeat first [ rewrite lookup_insert_eq | rewrite lookup_insert_ne by discriminate
                 | rewrite lookup_empty ];
    reflexivity.
Qed.

Lemma validation_reads_four_keys
    (body : gmap string JsValue) (options : ValidateOptions) (k : string) (v : JsValue) :
  k ≠ "provider" → k ≠ "hostname" → k ≠ "alias" → k ≠ "ipv4" →
  validateResolverPayload (<[k := v]> body) options = validateResolverPayload body options
  ∧ validateResolverPayload (delete k body) options = validateResolverPayload body options.
Proof.
  intros Hp Hh Ha Hi.
  unfold validateResolverPayload, checkProvider, checkHostname, checkAlias, checkIpv4.
  rewrite !lookup_insert_ne, !lookup_delete_ne by congruence. split; reflexivity.
Qed.

Lemma stringOrEmpty_trimmed (raw : JsValue) : trim (stringOrEmpty raw) = stringOrEmpty raw.
Proof. destruct raw; try reflexivity. apply trim_idem. Qed.

Lemma stringOrEmpty_truthy (raw : JsValue) :
  truthyString (stringOrEmpty raw) = true ↔ ∃ s, raw = JsString s ∧ trim s ≠ "".
Proof.
  rewrite truthyString_true. split.
  - destruct raw; cbn; try congruence. eauto.
  - intros [s [-> Hs]]. exact Hs.
Qed.

Lemma requiredErrors_nil (body : gmap string JsValue) (key : string) (required : bool)
    (e1 e2 : string) :
  requiredErrors body key required e1 e2 = []
  ↔ match body !! key with
    | Some raw => ∃ s, raw = JsString s ∧ trim s ≠ ""
    | None => required = false
    end.
Proof.
  unfold requiredErrors. destruct (body !! key) as [raw|].
  - rewrite <- stringOrEmpty_truthy.
    destruct (truthyString (stringOrEmpty raw)); split; congruence.
  - destruct required; split; congruence.
Qed.

Lemma ipv4Rejected_false (raw : JsValue) :
  ipv4Rejected raw = false
  ↔ ∀ s, raw = JsString s → trim s = "" ∨ test IPV4_REGEX (trim s) = true.
Proof.
  unfold ipv4Rejected. split.
  - intros Hr s ->. cbn [stringOrEmpty] in Hr.
    apply andb_false_iff in Hr as [Hr|Hr].
    + left. apply truthyString_false, Hr.
    + right. apply negb_false_iff, Hr.
  - intros Hs. destruct raw; try reflexivity.
    cbn [stringOrEmpty]. destruct (Hs _ eq_refl) as [-> | ->]; [reflexivity|].
    apply andb_false_r.
Qed.

Lemma ipv4Errors_nil (body : gmap string JsValue) :
  ipv4Errors body = []
  ↔ ∀ s, body !! "ipv4" = Some (JsString s) → trim s = "" ∨ test IPV4_REGEX (trim s) = true.
Proof.
  unfold ipv4Errors. destruct (body !! "ipv4") as [raw|].
  - destruct (ipv4Rejected raw) eqn:Hr.
    + split; [discriminate|]. intros Hs.
      assert (ipv4Rejected raw = false); [|congruence].
      apply ipv4Rejected_false. intros s ->. apply Hs. reflexivity.
    + split; [|reflexivity]. intros _ s [= ->].
      exact (proj1 (ipv4Rejected_false _) Hr s eq_refl).
  - split; [|reflexivity]. intros _ s. discriminate.
Qed.

Lemma app_nil_iff {A : Type} (l1 l2 : list A) : (l1 ++ l2)%list = [] ↔ l1 = [] ∧ l2 = [].
Proof. destruct l1; cbn; split; [auto | intros []; auto | discriminate | intros []; discriminate]. Qed.

Lemma validate_errors_nil (body : gmap string JsValue) (options : ValidateOptions) :
  errors (validateResolverPayload body options) = []
  ↔ requiredErrors body "provider" (requireProvider options)
      "provider cannot be empty" "provider is required" = []
    ∧ requiredErrors body "hostname" (requireHostname options)
        "hostname cannot be empty" "hostname is required" = []
    ∧ ipv4Errors body = []
    ∧ anyFieldErrors (requireAnyField options) (acceptedFields body) = [].
Proof. rewrite validate_eq. cbn [errors]. rewrite !app_nil_iff. reflexivity. Qed.

Lemma create_validation_values (body : gmap string JsValue) :
  let v := validateResolverPayload body createOptions in
  errors v = [] →
  ∃ p h, body !! "provider" = Some (JsString p) ∧ body !! "hostname" = Some (JsString h)
    ∧ insertValues (fields v)
      = {| v_provider := Some (trim p); v_hostname := Some (trim h);
           v_alias := match body !! "alias" with
                      | Some raw => stringOrEmpty raw | None => "" end;
           v_ipv4 := match body !! "ipv4" with
                     | Some raw => stringOrEmpty raw | None => "" end |}.
Proof.
  intros v Hok. apply validate_errors_nil in Hok as (Hp & Hh & Hip & _).
  rewrite requiredErrors_nil in Hp, Hh. rewrite ipv4Errors_nil in Hip.
  cbn [requireProvider requireHostname createOptions] in Hp, Hh.
  destruct (body !! "provider") as [rp|] eqn:Bp; [|discriminate].
  destruct (body !! "hostname") as [rh|] eqn:Bh; [|discriminate].
  destruct Hp as (p & -> & Hpt), Hh as (h & -> & Hht).
  exists p, h. split; [reflexivity|]. split; [reflexivity|].
  subst v. rewrite validate_eq. cbn [fields].
  unfold insertValues, acceptedFields, requiredField.
  cbn [p_provider p_hostname p_alias p_ipv4].
  rewrite Bp, Bh. cbn [stringOrEmpty].
  apply truthyString_true in Hpt, Hht. rewrite Hpt, Hht.
  f_equal.
  - destruct (body !! "alias"); reflexivity.
  - destruct (body !! "ipv4") as [raw|] eqn:Hraw; [|reflexivity].
    assert (ipv4Rejected raw = false) as ->; [|reflexivity].
    apply ipv4Rejected_false. intros s ->. auto.
Qed.

(** X3: the validation of a create reports no error exactly when provider
    and hostname are strings that are not blank and ipv4, if it is a string,
    is blank or a valid address. The values of the insert are then the
    trimmed provider and hostname, and for alias and ipv4 the trimmed string,
    or "" when the key is absent or not a string. *)
Theorem create_validation_passes_iff (body : gmap string JsValue) :
  let v := validateResolverPayload body createOptions in
  (errors v = [] ↔
     (∃ p, body !! "provider" = Some (JsString p) ∧ trim p ≠ "")
     ∧ (∃ h, body !! "hostname" = Some (JsString h) ∧ trim h ≠ "")
     ∧ (∀ s, body !! "ipv4" = Some (JsString s) →
          trim s = "" ∨ test IPV4_REGEX (trim s) = true))
  ∧ (errors v = [] →
     ∃ p h, body !! "provider" = Some (JsString p) ∧ body !! "hostname" = Some (JsString h)
       ∧ insertValues (fields v)
         = {| v_provider := Some (trim p); v_hostname := Some (trim h);
              v_alias := match body !! "alias" with
                         | Some raw => stringOrEmpty raw | None => "" end;
              v_ipv4 := match body !! "ipv4" with
                        | Some raw => stringOrEmpty raw | None => "" end |}).
Proof.
  intros v. split; [|apply create_validation_values].
  subst v. rewrite validate_errors_nil, !requiredErrors_nil, ipv4Errors_nil.
  cbn [requireProvider requireHostname requireAnyField createOptions anyFieldErrors andb].
  destruct (body !! "provider") as [rp|], (body !! "hostname") as [rh|];
    split; intros H; decompose record H; subst; try discriminate;
    repeat match goal with
           | E : Some _ = Some _ |- _ => injection E as ->
           end;
    repeat split; eauto.
Qed.

Lemma update_validation_fields (body : gmap string JsValue) :
  let v := validateResolverPayload body updateOptions in
  errors v = [] →
  p_provider (fields v) = stringOrEmpty <$> body !! "provider"
  ∧ p_hostname (fields v) = stringOrEmpty <$> body !! "hostname"
  ∧ p_alias (fields v) = stringOrEmpty <$> body !! "alias"
  ∧ p_ipv4 (fields v) = stringOrEmpty <$> body !! "ipv4".
Proof.
  intros v. subst v. rewrite validate_errors_nil, !requiredErrors_nil, ipv4Errors_nil.
  rewrite validate_eq. cbn [fields].
  unfold acceptedFields at 2 3 4 5, requiredField.
  cbn [p_provider p_hostname p_alias p_ipv4].
  intros (Hp & Hh & Hi & _).
  split; [|split; [|split]].
  - destruct (body !! "provider") as [rp|]; [|reflexivity].
    destruct Hp as [p [-> Hp]]. cbn [stringOrEmpty fmap option_fmap option_map].
    apply truthyString_true in Hp. rewrite Hp. reflexivity.
  - destruct (body !! "hostname") as [rh|]; [|reflexivity].
    destruct Hh as [h [-> Hh]]. cbn [stringOrEmpty fmap option_fmap option_map].
    apply truthyString_true in Hh. rewrite Hh. reflexivity.
  - destruct (body !! "alias"); reflexivity.
  - destruct (body !! "ipv4") as [raw|] eqn:Hraw; [|reflexivity].
    assert (ipv4Rejected raw = false) as ->; [|reflexivity].
    apply ipv4Rejected_false. intros s ->. auto.
Qed.

(** X4: the validation of an update reports no error exactly when provider
    and hostname, if present, are strings that are not blank, ipv4, if it is
    a string, is blank or a valid address, and at least one of the four keys
    is present. The validated fields are then exactly the keys present in the
    body, each with its trimmed string, or "" when it is not a string. *)
Theorem update_validation_passes_iff (body : gmap string JsValue) :
  let v := validateResolverPayload body updateOptions in
  (errors v = [] ↔
     (∀ raw, body !! "provider" = Some raw → ∃ p, raw = JsString p ∧ trim p ≠ "")
     ∧ (∀ raw, body !! "hostname" = Some raw → ∃ h, raw = JsString h ∧ trim h ≠ "")
     ∧ (∀ s, body !! "ipv4" = Some (JsString s) →
          trim s = "" ∨ test IPV4_REGEX (trim s) = true)
     ∧ ¬ NoFieldPresent body)
  ∧ (errors v = [] →
     p_provider (fields v) = stringOrEmpty <$> body !! "provider"
     ∧ p_hostname (fields v) = stringOrEmpty <$> body !! "hostname"
     ∧ p_alias (fields v) = stringOrEmpty <$> body !! "alias"
     ∧ p_ipv4 (fields v) = stringOrEmpty <$> body !! "ipv4").
Proof.
  intros v.
  pose proof (update_validation_fields body) as Hfields. cbn zeta in Hfields. fold v in Hfields.
  split; [|exact Hfields].
  split.
  - intros Hok. pose proof (Hfields Hok) as (Fp & Fh & Fa & Fi).
    subst v. revert Fp Fh Fa Fi.
    apply validate_errors_nil in Hok as (Hp & Hh & Hi & Hany).
    rewrite requiredErrors_nil in Hp, Hh. rewrite ipv4Errors_nil in Hi.
    rewrite validate_eq. cbn [fields]. intros Fp Fh Fa Fi.
    split; [|split; [|split; [exact Hi|]]].
    + intros raw Hraw. rewrite Hraw in Hp. exact Hp.
    + intros raw Hraw. rewrite Hraw in Hh. exact Hh.
    + intros (Np & Nh & Na & Ni).
      unfold anyFieldErrors in Hany.
      cbn [requireAnyField updateOptions andb] in Hany.
      unfold keyCount in Hany. rewrite Fp, Fh, Fa, Fi, Np, Nh, Na, Ni in Hany.
      cbn in Hany. discriminate.
  - intros (Hp & Hh & Hi & Hsome).
    assert (requiredErrors body "provider" false
              "provider cannot be empty" "provider is required" = []) as Ep.
    { apply requiredErrors_nil. destruct (body !! "provider"); auto. }
    assert (requiredErrors body "hostname" false
              "hostname cannot be empty" "hostname is required" = []) as Eh.
    { apply requiredErrors_nil. destruct (body !! "hostname"); auto. }
    assert (ipv4Errors body = []) as Ei by (apply ipv4Errors_nil; exact Hi).
    subst v. apply validate_errors_nil.
    cbn [requireProvider requireHostname requireAnyField updateOptions].
    repeat split; try assumption.
    unfold anyFieldErrors. cbn [andb].
    destruct (keyCount (acceptedFields body) =? 0)%nat eqn:Hk; [|reflexivity].
    exfalso. apply Hsome. apply Nat.eqb_eq in Hk.
    unfold keyCount, acceptedFields, requiredField in Hk.
    cbn [p_provider p_hostname p_alias p_ipv4] in Hk.
    unfold NoFieldPresent.
    destruct (body !! "provider") as [rp|] eqn:Bp.
    { destruct (Hp _ eq_refl) as [p [-> Hpt]]. cbn [stringOrEmpty] in Hk.
      apply truthyString_true in Hpt. rewrite Hpt in Hk. cbn in Hk. lia. }
    destruct (body !! "hostname") as [rh|] eqn:Bh.
    { destruct (Hh _ eq_refl) as [h [-> Hht]]. cbn [stringOrEmpty] in Hk.
      apply truthyString_true in Hht. rewrite Hht in Hk. cbn in Hk. lia. }
    destruct (body !! "alias") as [ra|] eqn:Ba.
    { cbn in Hk. lia. }
    destruct (body !! "ipv4") as [ri|] eqn:Bi; [|auto].
    assert (ipv4Rejected ri = false) as Hr.
    { apply ipv4Rejected_false. intros s ->. auto. }
    rewrite Hr in Hk. cbn in Hk. lia.
Qed.

Lemma requiredField_some (body : gmap string JsValue) (key x : string) :
  requiredField body key = Some x → x ≠ "" ∧ trim x = x.
Proof.
  unfold requiredField. destruct (body !! key) as [raw|]; [|discriminate].
  destruct (truthyString (stringOrEmpty raw)) eqn:Ht; [|discriminate].
  intros [= <-]. split; [apply truthyString_true, Ht | apply stringOrEmpty_trimmed].
Qed.

Lemma accepted_normal (body : gmap string JsValue) :
  let f := acceptedFields body in
  (∀ p, p_provider f = Some p → p ≠ "" ∧ trim p = p)
  ∧ (∀ h, p_hostname f = Some h → h ≠ "" ∧ trim h = h)
  ∧ (∀ a, p_alias f = Some a → trim a = a)
  ∧ (∀ ip, p_ipv4 f = Some ip → trim ip = ip ∧ (ip = "" ∨ test IPV4_REGEX ip = true)).
Proof.
  cbn zeta. unfold acceptedFields. cbn [p_provider p_hostname p_alias p_ipv4].
  split; [|split; [|split]].
  - intros p Hp. eapply requiredField_some; eauto.
  - intros h Hh. eapply requiredField_some; eauto.
  - intros a Ha. destruct (body !! "alias") as [raw|]; cbn in Ha; [|discriminate].
    injection Ha as <-. apply stringOrEmpty_trimmed.
  - intros ip Hip. destruct (body !! "ipv4") as [raw|]; [|discriminate].
    destruct (ipv4Rejected raw) eqn:Hr; [discriminate|]. injection Hip as <-.
    split; [apply stringOrEmpty_trimmed|].
    unfold ipv4Rejected in Hr. apply andb_false_iff in Hr as [Hr|Hr].
    + left. apply truthyString_false, Hr.
    + right. apply negb_false_iff, Hr.
Qed.

Lemma accepted_payloadBody (body : gmap string JsValue) :
  acceptedFields (payloadBody (acceptedFields body)) = acceptedFields body.
Proof.
  destruct (accepted_normal body) as (Hp & Hh & Ha & Hi).
  destruct (payloadBody_lookup (acceptedFields body)) as (Lp & Lh & La & Li).
  set (f := acceptedFields body) in *.
  unfold acceptedFields at 1, requiredField. rewrite Lp, Lh, La, Li.
  destruct f as [p h a i]. cbn [p_provider p_hostname p_alias p_ipv4] in *.
  f_equal.
  - destruct p as [p|]; [|reflexivity]. cbn. destruct (Hp p eq_refl) as [Hne ->].
    apply truthyString_true in Hne. rewrite Hne. reflexivity.
  - destruct h as [h|]; [|reflexivity]. cbn. destruct (Hh h eq_refl) as [Hne ->].
    apply truthyString_true in Hne. rewrite Hne. reflexivity.
  - destruct a as [a|]; [|reflexivity]. cbn. rewrite (Ha a eq_refl). reflexivity.
  - destruct i as [i|]; [|reflexivity]. cbn [fmap option_fmap option_map].
    destruct (Hi i eq_refl) as [Ht Hv]. unfold ipv4Rejected. cbn [stringOrEmpty].
    rewrite Ht. destruct Hv as [-> | ->]; [reflexivity|].
    rewrite andb_false_r. reflexivity.
Qed.

Lemma validated_normal (body : gmap string JsValue) (options : ValidateOptions) :
  let f := fields (validateResolverPayload body options) in
  (∀ p, p_provider f = Some p → p ≠ "" ∧ trim p = p)
  ∧ (∀ h, p_hostname f = Some h → h ≠ "" ∧ trim h = h)
  ∧ (∀ a, p_alias f = Some a → trim a = a)
  ∧ (∀ ip, p_ipv4 f = Some ip → trim ip = ip ∧ (ip = "" ∨ test IPV4_REGEX ip = true)).
Proof. cbn zeta. rewrite validate_eq. cbn [fields]. apply accepted_normal. Qed.

(** X5: the fields the validation returns are in normal form: provider and
    hostname are not empty, every field is free of surrounding white space,
    and ipv4 is empty or matches the address pattern. Validating those fields
    again returns the same fields, and with no error if there was none. *)
Theorem validation_is_idempotent (body : gmap string JsValue) (options : ValidateOptions) :
  let v := validateResolverPayload body options in
  let v' := validateResolverPayload (payloadBody (fields v)) options in
  fields v' = fields v
  ∧ (errors v = [] → errors v' = [])
  ∧ (∀ p, p_provider (fields v) = Some p → p ≠ "" ∧ trim p = p)
  ∧ (∀ h, p_hostname (fields v) = Some h → h ≠ "" ∧ trim h = h)
  ∧ (∀ a, p_alias (fields v) = Some a → trim a = a)
  ∧ (∀ ip, p_ipv4 (fields v) = Some ip → trim ip = ip ∧ (ip = "" ∨ test IPV4_REGEX ip = true)).
Proof.
  cbn zeta. rewrite !validate_eq. cbn [fields errors].
  rewrite accepted_payloadBody.
  split; [reflexivity|]. split; [|apply accepted_normal].
  rewrite !app_nil_iff, !requiredErrors_nil.
  destruct (accepted_normal body) as (Hp & Hh & Ha & Hi).
  destruct (payloadBody_lookup (acceptedFields body)) as (Lp & Lh & La & Li).
  rewrite ipv4Errors_nil, (ipv4Errors_nil (payloadBody _)). rewrite Lp, Lh, Li.
  intros (Ep & Eh & Ei & Eany). repeat split.
  - destruct (p_provider (acceptedFields body)) as [p|] eqn:Fp; cbn.
    + exists p. split; [reflexivity|]. destruct (Hp p eq_refl) as [Hne ->]. exact Hne.
    + destruct (body !! "provider") as [raw|] eqn:Bp; [|exact Ep].
      destruct Ep as [s [-> Hs]]. exfalso.
      unfold acceptedFields, requiredField in Fp. cbn [p_provider] in Fp.
      rewrite Bp in Fp. cbn [stringOrEmpty] in Fp.
      apply truthyString_true in Hs. rewrite Hs in Fp. discriminate.
  - destruct (p_hostname (acceptedFields body)) as [h|] eqn:Fh; cbn.
    + exists h. split; [reflexivity|]. destruct (Hh h eq_refl) as [Hne ->]. exact Hne.
    + destruct (body !! "hostname") as [raw|] eqn:Bh; [|exact Eh].
      destruct Eh as [s [-> Hs]]. exfalso.
      unfold acceptedFields, requiredField in Fh. cbn [p_hostname] in Fh.
      rewrite Bh in Fh. cbn [stringOrEmpty] in Fh.
      apply truthyString_true in Hs. rewrite Hs in Fh. discriminate.
  - intros s Hs. destruct (p_ipv4 (acceptedFields body)) as [i|] eqn:Fi; [|discriminate].
    cbn in Hs. injection Hs as <-. destruct (Hi i eq_refl) as [-> Hv].
    destruct Hv as [-> | ->]; auto.
  - exact Eany.
Qed.

Section UnknownKeys.
Context `{Platform}.

(** X6: the validation reads the keys provider, hostname, alias and ipv4
    and no other: a body with one more key of another name validates to the
    same fields and errors, and a create or an update with it has the same
    outcome, so a client cannot set id, isDeleted, mtime or ctime. *)
Theorem unknown_keys_are_ignored
    (r1 r2 : Request) (env : Bindings) (id : Z) (w : World)
    (data : gmap string JsValue) (k : string) (v : JsValue) :
  k ≠ "provider" → k ≠ "hostname" → k ≠ "alias" → k ≠ "ipv4" →
  readJsonBody r1 = inr data → readJsonBody r2 = inr (<[k := v]> data) →
  validateResolverPayload (<[k := v]> data) createOptions
  = validateResolverPayload data createOptions
  ∧ validateResolverPayload (<[k := v]> data) updateOptions
    = validateResolverPayload data updateOptions
  ∧ createResolverHandler r2 env w = createResolverHandler r1 env w
  ∧ updateResolverHandler r2 env id w = updateResolverHandler r1 env id w.
Proof.
  intros Hp Hh Ha Hi H1 H2.
  pose proof (proj1 (validation_reads_four_keys data createOptions k v Hp Hh Ha Hi)) as Ec.
  pose proof (proj1 (validation_reads_four_keys data updateOptions k v Hp Hh Ha Hi)) as Eu.
  repeat split; [exact Ec | exact Eu | |].
  - unfold createResolverHandler. rewrite H1, H2, Ec. reflexivity.
  - unfold updateResolverHandler. rewrite H1, H2, Eu. reflexivity.
Qed.

End UnknownKeys.

(** ** Requests that are refused, requests that only read *)

Section Refusals.
Context `{Platform}.

Lemma readJsonBody_cases (request : Request) :
  readJsonBody request
  = if negb (truthyString (trim (text request)))
    then inl (jsonError "Request body is required" 400 None)
    else match JSON_parse (text request) with
         | None => inl (jsonError "Invalid JSON payload" 400 None)
         | Some (JsObject data) => inr data
         | Some _ => inl (jsonError "Body must be a JSON object" 400 None)
         end.
Proof. reflexivity. Qed.

(** X7: a create or an update whose body is blank, is not JSON, or parses
    to anything but an object (null, an array, a number, a string, a
    boolean) is answered 400 with "Request body is required", "Invalid JSON
    payload" or "Body must be a JSON object", and leaves the world as it was;
    the body is read exactly when its text is not blank and parses to an
    object. *)
Theorem unreadable_body_is_refused (request : Request) (env : Bindings) (id : Z) (w : World) :
  let answered (error : string) :=
    createResolverHandler request env w = (inr (jsonError error 400 None), w)
    ∧ updateResolverHandler request env id w = (inr (jsonError error 400 None), w) in
  (trim (text request) = "" → answered "Request body is required")
  ∧ (trim (text request) ≠ "" → JSON_parse (text request) = None →
     answered "Invalid JSON payload")
  ∧ (trim (text request) ≠ "" →
     ∀ v, JSON_parse (text request) = Some v → isObject v = false →
          answered "Body must be a JSON object")
  ∧ (∀ data, readJsonBody request = inr data ↔
       trim (text request) ≠ "" ∧ JSON_parse (text request) = Some (JsObject data)).
Proof.
  cbn zeta. unfold createResolverHandler, updateResolverHandler.
  rewrite readJsonBody_cases. split; [|split; [|split]].
  - intros ->. split; reflexivity.
  - intros Ht%truthyString_true Hp. rewrite Ht, Hp. split; reflexivity.
  - intros Ht%truthyString_true v Hp Hv. rewrite Ht, Hp.
    destruct v; try discriminate; split; reflexivity.
  - intros data. split.
    + destruct (truthyString (trim (text request))) eqn:Ht; [|discriminate].
      cbn [negb]. intros Hd. split; [apply truthyString_true, Ht|].
      destruct (JSON_parse (text request)) as [[]|]; try discriminate.
      injection Hd as <-. reflexivity.
    + intros [Ht Hp]. apply truthyString_true in Ht. rewrite Ht, Hp. reflexivity.
Qed.

Lemma parseResolverIdParam_some (value : option string) (id : Z) :
  parseResolverIdParam value = Some id ↔
  ∃ s q, value = Some s ∧ Number (Some s) = Finite q ∧ (q == inject_Z id)%Q ∧ 1 <= id.
Proof.
  unfold parseResolverIdParam. split.
  - destruct value as [s|]; [|discriminate].
    destruct (Number (Some s)) as [| |q] eqn:Hn; try discriminate.
    destruct (Qeq_bool q (inject_Z (Qfloor q))) eqn:Hint; [|discriminate].
    destruct (Qle_bool 1 q) eqn:Hge; [|discriminate].
    cbn [negb orb]. intros [= <-]. exists s, q.
    split; [reflexivity|]. split; [exact Hn|]. split.
    + apply Qeq_bool_iff, Hint.
    + apply Qle_bool_iff in Hge. apply Qeq_bool_iff in Hint.
      rewrite Hint in Hge. change 1%Q with (inject_Z 1) in Hge.
      rewrite <- Zle_Qle in Hge. exact Hge.
  - intros (s & q & -> & -> & Hq & Hid).
    assert (Qfloor q = id) as Hfl.
    { rewrite Hq. apply Qfloor_Z. }
    rewrite Hfl.
    assert (Qeq_bool q (inject_Z id) = true) as -> by (apply Qeq_bool_iff, Hq).
    assert (Qle_bool 1 q = true) as ->.
    { apply Qle_bool_iff. rewrite Hq. change 1%Q with (inject_Z 1).
      rewrite <- Zle_Qle. exact Hid. }
    reflexivity.
Qed.

(** X8: [parseResolverIdParam] returns an id exactly when the parameter is
    a string whose number is an integer of at least 1, and that integer is
    the id; in every other case each of the four routes on /resolvers/:id
    answers 400 "Resolver id must be a positive integer" and leaves the world
    as it was. *)
Theorem bad_id_is_refused (env : Bindings) (idParam : option string) (w : World) :
  (∀ id, parseResolverIdParam idParam = Some id ↔
     ∃ s q, idParam = Some s ∧ Number (Some s) = Finite q ∧ (q == inject_Z id)%Q ∧ 1 <= id)
  ∧ (parseResolverIdParam idParam = None →
     ∀ params request,
       Forall (fun r => createApp env r w = (BAD_ID, w))
         [GetResolver idParam params; PutResolver idParam request;
          PatchResolver idParam request; DeleteResolver idParam]).
Proof.
  split; [intros id; apply parseResolverIdParam_some|].
  intros Hnone params request.
  repeat constructor; unfold createApp, route, withId; rewrite Hnone; reflexivity.
Qed.


End Refusals.

(** ** Listing *)

Lemma filter_ext' {A : Type} (f g : A → bool) (l : list A) :
  (∀ x, f x = g x) → List.filter f l = List.filter g l.
Proof.
  intros Hfg. induction l as [|x l IH]; [reflexivity|].
  cbn. rewrite Hfg, IH. reflexivity.
Qed.

Lemma filter_all {A : Type} (l : list A) : List.filter (fun _ => true) l = l.
Proof. induction l as [|x l IH]; [reflexivity|]. cbn. rewrite IH. reflexivity. Qed.











Section Listing.
Context `{Platform}.


Lemma list_exact (env : Bindings) (params : URLSearchParams) (w : World) :
  let limit := parseLimit (get params "limit") 100 500 in
  let offset := parseOffset (get params "offset") in
  let found :=
    take (Z.to_nat limit)
      (drop (Z.to_nat offset) (orderByIdDesc (List.filter (listed params) (rows (db w))))) in
  listResolversHandler env params w
  = (inr (jsonResponse (ListBody (map toResolverDto found) limit offset (length found)) 200), w).
Proof.
  intros limit offset found.
  unfold listResolversHandler, bind, selectFrom, ret.
  fold limit offset.
  assert ((limit <? 0) = false) as ->.
  { apply Z.ltb_ge. apply (parseLimit_bounds (get params "limit")). }
  set (conditions := (_ ++ _)%list).
  assert (match match conditions with
                | [] => None | [c] => Some c | _ => Some (and_ conditions) end with
          | Some c => List.filter c (rows (db w))
          | None => rows (db w)
          end = List.filter (listed params) (rows (db w))) as ->; [|reflexivity].
  subst conditions. unfold listed.
  destruct (parseBoolean (get params "includeDeleted")),
           (optionalString (get params "provider")) as [p|],
           (optionalString (get params "hostname")) as [h|];
    cbn [negb app orb andb];
    first [ symmetry; apply filter_all
          | apply filter_ext'; intros r; unfold and_; cbn [forallb];
            rewrite ?andb_true_r, ?andb_assoc; reflexivity ].
Qed.


End Listing.

Lemma NoDup_ids_cons (r : ResolverRow) (l : list ResolverRow) :
  NoDup (map row_id (r :: l))
  ↔ (∀ x, In x l → row_id x ≠ row_id r) ∧ NoDup (map row_id l).
Proof.
  cbn [map]. rewrite NoDup_cons, list_elem_of_In, in_map_iff. split.
  - intros [Hn Hl]. split; [|exact Hl]. intros x Hx Heq. apply Hn. eauto.
  - intros [Hn Hl]. split; [|exact Hl]. intros [x [Heq Hx]]. exact (Hn x Hx Heq).
Qed.








Section Page.
Context `{Platform}.


End Page.

(** ** What the updater sends and throws *)

Section Provider.
Context `{Platform}.

Lemma fetchDnsRecord_noted (baseUrl : string) hdrs (hostname h ip : string) (w : World) :
  fetchDnsRecord baseUrl hdrs hostname (noted h ip w)
  = (fst (fetchDnsRecord baseUrl hdrs hostname w),
     noted h ip (snd (fetchDnsRecord baseUrl hdrs hostname w))).
Proof. rewrite !fetchDnsRecord_run. reflexivity. Qed.

Lemma fetchDnsRecord_requests (baseUrl : string) hdrs (hostname : string) (w : World) :
  let w1 := snd (fetchDnsRecord baseUrl hdrs hostname w) in
  requests w1 = (requests w ++ [lookupRequest baseUrl hdrs hostname])%list
  ∧ db w1 = db w ∧ syncs w1 = syncs w ∧ console w1 = console w ∧ now w1 = now w.
Proof. rewrite fetchDnsRecord_run. cbn. auto. Qed.

Lemma dnsPayload_lookup (hostname ipv4 : string) (existing : option JsValue) :
  ∃ o, dnsPayload hostname ipv4 existing = JsObject o
    ∧ o !! "type" = Some (JsString "A")
    ∧ o !! "name" = Some (JsString hostname)
    ∧ o !! "content" = Some (JsString ipv4)
    ∧ o !! "ttl" = Some (nullish (getProp existing "ttl") (JsNumber 1))
    ∧ o !! "proxied" = Some (nullish (getProp existing "proxied") (JsBool false))
    ∧ ∀ k, is_Some (o !! k) → In k ["type"; "name"; "content"; "ttl"; "proxied"].
Proof.
  eexists. split; [reflexivity|].
  repeat (split; [reflexivity|]).
  intros k Hk.
  destruct (decide (k = "type")) as [->|N1]; [cbn; auto|].
  destruct (decide (k = "name")) as [->|N2]; [cbn; auto|].
  destruct (decide (k = "content")) as [->|N3]; [cbn; auto|].
  destruct (decide (k = "ttl")) as [->|N4]; [cbn; auto|].
  destruct (decide (k = "proxied")) as [->|N5]; [cbn; auto 6|].
  rewrite !lookup_insert_ne, lookup_empty in Hk by congruence.
  destruct Hk; discriminate.
Qed.

Lemma sync_requests (env : Bindings) (hostname ipv4 token zoneId : string) (w : World) :
  truthyString ipv4 = true →
  credentials env = Some (token, zoneId) →
  let base := baseUrlOf zoneId in
  let query := lookupRequest base (headersOf token) hostname in
  let w' := snd (syncDnsRecord env hostname ipv4 w) in
  match fst (fetchDnsRecord base (headersOf token) hostname w) with
  | inl e =>
      fst (syncDnsRecord env hostname ipv4 w) = inl e
      ∧ requests w' = (requests w ++ [query])%list
  | inr existing =>
      if upToDate existing ipv4
      then fst (syncDnsRecord env hostname ipv4 w) = inr tt
           ∧ requests w' = (requests w ++ [query])%list
      else requests w'
           = (requests w
              ++ [query; writeRequest base (headersOf token) hostname ipv4 existing])%list
  end.
Proof.
  intros Hip Hc base query w'. subst w'.
  rewrite (sync_with_credentials env hostname ipv4 token zoneId w Hip Hc).
  rewrite fetchDnsRecord_noted.
  destruct (fetchDnsRecord_requests base (headersOf token) hostname w) as (Hreq & _).
  fold base. fold base in Hreq.
  destruct (fst (fetchDnsRecord base (headersOf token) hostname w)) as [e|existing].
  { split; [reflexivity|]. cbn [snd]. exact Hreq. }
  destruct (upToDate existing ipv4).
  { split; [reflexivity|]. cbn [snd]. exact Hreq. }
  cbn [snd sent requests noted noteSync]. cbn [requests noted noteSync snd] in Hreq.
  rewrite Hreq, <- app_assoc. reflexivity.
Qed.

(** X12: with credentials and an address, [syncDnsRecord] first sends the
    lookup. When the lookup fails, or finds a record whose content is the
    address, nothing else is sent. Otherwise one write follows: a PUT to the
    found record's URL when the lookup found a record, a POST to the
    collection when it found none, with the credentials' headers and a body
    of exactly type "A", the hostname, the address, and the found record's
    ttl and proxied (1 and false when it has none). *)
Theorem sync_sends_lookup_then_write
    (env : Bindings) (hostname ipv4 token zoneId : string) (w : World) :
  truthyString ipv4 = true →
  credentials env = Some (token, zoneId) →
  let base := baseUrlOf zoneId in
  let query := lookupRequest base (headersOf token) hostname in
  let w' := snd (syncDnsRecord env hostname ipv4 w) in
  match fst (fetchDnsRecord base (headersOf token) hostname w) with
  | inl e =>
      fst (syncDnsRecord env hostname ipv4 w) = inl e
      ∧ requests w' = (requests w ++ [query])%list
  | inr existing =>
      if upToDate existing ipv4
      then fst (syncDnsRecord env hostname ipv4 w) = inr tt
           ∧ requests w' = (requests w ++ [query])%list
      else ∃ wr o,
          requests w' = (requests w ++ [query; wr])%list
          ∧ method wr = (if truthyOpt existing then "PUT" else "POST")
          ∧ url wr = (if truthyOpt existing
                      then base +:+ "/" +:+ ToString (getProp existing "id")
                      else base)
          ∧ req_headers wr = headersOf token
          ∧ req_body wr = Some (JsObject o)
          ∧ o !! "type" = Some (JsString "A")
          ∧ o !! "name" = Some (JsString hostname)
          ∧ o !! "content" = Some (JsString ipv4)
          ∧ o !! "ttl" = Some (nullish (getProp existing "ttl") (JsNumber 1))
          ∧ o !! "proxied" = Some (nullish (getProp existing "proxied") (JsBool false))
          ∧ ∀ k, is_Some (o !! k) → In k ["type"; "name"; "content"; "ttl"; "proxied"]
  end.
Proof.
  intros Hip Hc base query w'.
  pose proof (sync_requests env hostname ipv4 token zoneId w Hip Hc) as Hs.
  cbn zeta in Hs. fold base in Hs. fold query in Hs. fold w' in Hs.
  destruct (fst (fetchDnsRecord base (headersOf token) hostname w)) as [e|existing];
    [exact Hs|].
  destruct (upToDate existing ipv4); [exact Hs|].
  destruct (dnsPayload_lookup hostname ipv4 existing) as (o & Ho & Hrest).
  exists (writeRequest base (headersOf token) hostname ipv4 existing), o.
  split; [exact Hs|].
  unfold writeRequest. cbn [method url req_headers req_body]. rewrite Ho.
  repeat (split; [reflexivity|]). exact Hrest.
Qed.

(** X13: with credentials and an address, [syncDnsRecord] throws what
    [fetch] throws. A lookup answered with a status that is not ok, or with
    success false, makes it throw without sending a write, and a write
    answered that way makes it throw too. Unless reading the provider's
    error list itself throws, the message is "Failed to fetch DNS record for
    <hostname>" for the lookup, and for the write "Failed to update DNS
    record for <hostname>" when a record was found and "Failed to create DNS
    record for <hostname>" when none was, followed by ": " and the provider's
    messages when there are any. Any other answer to the write, a body that
    is not JSON included, is a success. *)
Theorem sync_fails_as_the_provider_does
    (env : Bindings) (hostname ipv4 token zoneId : string) (w : World) :
  truthyString ipv4 = true →
  credentials env = Some (token, zoneId) →
  let base := baseUrlOf zoneId in
  let query := lookupRequest base (headersOf token) hostname in
  let outcome := fst (syncDnsRecord env hostname ipv4 w) in
  let w' := snd (syncDnsRecord env hostname ipv4 w) in
  (∀ e n, fetch query (net w) = (inl e, n) →
     outcome = inl e ∧ writes (requests w') = writes (requests w))
  ∧ (∀ response n, fetch query (net w) = (inr response, n) → refused response = true →
       writes (requests w') = writes (requests w)
       ∧ ∃ e, outcome = inl e
           ∧ ∀ m, extractCloudflareError (json response) = inr m →
                  message e = "Failed to fetch DNS record for " +:+ hostname +:+ detail m)
  ∧ (∀ existing w1,
       fetchDnsRecord base (headersOf token) hostname w = (inr existing, w1) →
       upToDate existing ipv4 = false →
       let wr := writeRequest base (headersOf token) hostname ipv4 existing in
       (∀ e n, fetch wr (net w1) = (inl e, n) → outcome = inl e)
       ∧ ∀ response n, fetch wr (net w1) = (inr response, n) →
           if refused response
           then ∃ e, outcome = inl e
                  ∧ ∀ m, extractCloudflareError (json response) = inr m →
                         message e
                         = "Failed to " +:+ (if truthyOpt existing then "update" else "create")
                           +:+ " DNS record for " +:+ hostname +:+ detail m
           else outcome = inr tt).
Proof.
  intros Hip Hc base query outcome w'. subst outcome w'.
  rewrite (sync_with_credentials env hostname ipv4 token zoneId w Hip Hc).
  rewrite fetchDnsRecord_noted. fold base.
  split; [|split].
  - intros e n Hf. rewrite fetchDnsRecord_run. fold query. rewrite Hf.
    cbn [fst snd]. split; [reflexivity|].
    cbn [sent requests noted noteSync snd]. rewrite writes_app. cbn. apply app_nil_r.
  - intros response n Hf Href. rewrite fetchDnsRecord_run. fold query. rewrite Hf.
    cbn [fst snd]. unfold lookupOutcome. unfold refused in Href. rewrite Href.
    split.
    + destruct (extractCloudflareError (json response));
        cbn [snd sent requests noted noteSync]; rewrite writes_app; cbn; apply app_nil_r.
    + destruct (extractCloudflareError (json response)) as [e|m] eqn:He.
      * exists e. split; [reflexivity|]. discriminate.
      * eexists. split; [reflexivity|]. intros m' [= <-]. reflexivity.
  - intros existing w1 Hf Hup wr. rewrite Hf. cbn [fst snd]. rewrite Hup.
    change (net (noted hostname ipv4 w1)) with (net w1). fold wr.
    split.
    + intros e n Hw. rewrite Hw. reflexivity.
    + intros response n Hw. rewrite Hw. cbn [fst]. unfold writeOutcome, refused.
      rewrite negb_andb, negb_orb, !negb_involutive.
      destruct (negb (ok response) || _); [|reflexivity].
      destruct (extractCloudflareError (json response)) as [e|m] eqn:He.
      * exists e. split; [reflexivity|]. discriminate.
      * eexists. split; [reflexivity|]. intros m' [= <-]. reflexivity.
Qed.

End Provider.

(** ** The cases of a create and of an update *)

Lemma startsWith_app (p s : string) : startsWith p (p +:+ s) = true.
Proof.
  induction p as [|c p IH]; [reflexivity|].
  change (String c p +:+ s) with (String c (p +:+ s)). cbn [startsWith].
  rewrite Ascii.eqb_refl. exact IH.
Qed.

Section Cases.
Context `{Platform}.

Lemma readJsonBody_inl (request : Request) (error : Response) :
  readJsonBody request = inl error →
  ∃ msg, error = jsonError msg 400 None.
Proof.
  rewrite readJsonBody_cases.
  destruct (negb _); [intros [= <-]; eauto|].
  destruct (JSON_parse (text request)) as [[]|]; intros Heq;
    first [discriminate | injection Heq as <-; eauto].
Qed.

Lemma create_cases (request : Request) (env : Bindings) (w : World) :
  (∃ msg, readJsonBody request = inl (jsonError msg 400 None)
          ∧ createResolverHandler request env w = (inr (jsonError msg 400 None), w))
  ∨ (∃ data, readJsonBody request = inr data
       ∧ errors (validateResolverPayload data createOptions) ≠ []
       ∧ createResolverHandler request env w
         = (inr (jsonError "Validation failed" 422
                   (Some (errors (validateResolverPayload data createOptions)))), w))
  ∨ ∃ data p h,
      readJsonBody request = inr data
      ∧ errors (validateResolverPayload data createOptions) = []
      ∧ p_provider (fields (validateResolverPayload data createOptions)) = Some p
      ∧ p_hostname (fields (validateResolverPayload data createOptions)) = Some h
      ∧ let row := newRow (db w) (now w) p h
                     (insertValues (fields (validateResolverPayload data createOptions))) in
        if clashes row (rows (db w))
        then createResolverHandler request env w = (inr CONFLICT_ON_CREATE, w)
        else createResolverHandler request env w
             = afterInsert env row
                 (setDb {| rows := rows (db w) ++ [row]; lastId := row_id row |} w).
Proof.
  destruct (readJsonBody request) as [error|data] eqn:Hread.
  { left. destruct (readJsonBody_inl request error Hread) as [msg ->].
    exists msg. split; [reflexivity|].
    unfold createResolverHandler. rewrite Hread. reflexivity. }
  right.
  destruct (errors (validateResolverPayload data createOptions)) as [|e es] eqn:Herr.
  2:{ left. exists data. split; [reflexivity|]. split; [congruence|].
      unfold createResolverHandler. rewrite Hread, Herr. reflexivity. }
  right.
  destruct (create_validation_values data Herr) as (p & h & Bp & Bh & Hv).
  exists data, (trim p), (trim h). split; [reflexivity|]. split; [exact Herr|].
  assert (p_provider (fields (validateResolverPayload data createOptions)) = Some (trim p))
    as Fp by (apply (f_equal v_provider) in Hv; exact Hv).
  assert (p_hostname (fields (validateResolverPayload data createOptions)) = Some (trim h))
    as Fh by (apply (f_equal v_hostname) in Hv; exact Hv).
  split; [exact Fp|]. split; [exact Fh|]. cbn zeta.
  rewrite (create_run request env w data Hread Herr).
  rewrite (insert_run (insertValues (fields (validateResolverPayload data createOptions)))
             (trim p) (trim h) w Fp Fh).
  destruct (clashes _ _); reflexivity.
Qed.

Lemma update_cases (request : Request) (env : Bindings) (id : Z) (w : World) :
  (∃ msg, readJsonBody request = inl (jsonError msg 400 None)
          ∧ updateResolverHandler request env id w = (inr (jsonError msg 400 None), w))
  ∨ (∃ data, readJsonBody request = inr data
       ∧ errors (validateResolverPayload data updateOptions) ≠ []
       ∧ updateResolverHandler request env id w
         = (inr (jsonError "Validation failed" 422
                   (Some (errors (validateResolverPayload data updateOptions)))), w))
  ∨ ∃ data,
      readJsonBody request = inr data
      ∧ errors (validateResolverPayload data updateOptions) = []
      ∧ let f := fields (validateResolverPayload data updateOptions) in
        match List.find (liveWithId id) (rows (db w)) with
        | None => updateResolverHandler request env id w = (inr NOT_FOUND, w)
        | Some current =>
            let updated := applySet (updateValues f) (now w) current in
            let table := updatedRows (updateValues f) (now w) (liveWithId id) (rows (db w)) in
            if writesKey (updateValues f)
               && existsb (fun r => clashes r table)
                    (map (applySet (updateValues f) (now w))
                       (List.filter (liveWithId id) (rows (db w))))
            then updateResolverHandler request env id w = (inr CONFLICT_ON_UPDATE, w)
            else updateResolverHandler request env id w
                 = afterUpdate env f current updated
                     (setDb {| rows := table; lastId := lastId (db w) |} w)
        end.
Proof.
  destruct (readJsonBody request) as [error|data] eqn:Hread.
  { left. destruct (readJsonBody_inl request error Hread) as [msg ->].
    exists msg. split; [reflexivity|].
    unfold updateResolverHandler. rewrite Hread. reflexivity. }
  right.
  destruct (errors (validateResolverPayload data updateOptions)) as [|e es] eqn:Herr.
  2:{ left. exists data. split; [reflexivity|]. split; [congruence|].
      unfold updateResolverHandler. rewrite Hread, Herr. reflexivity. }
  right. exists data. split; [reflexivity|]. split; [exact Herr|]. cbn zeta.
  rewrite (update_run request env id w data Hread Herr).
  rewrite (valid_update_has_field data Herr).
  destruct (List.find (liveWithId id) (rows (db w))) as [current|] eqn:Hfind; [|reflexivity].
  rewrite update_returning_run. destruct (writesKey _ && _); [reflexivity|].
  rewrite head_map, head_filter_find, Hfind. reflexivity.
Qed.

(** What a reconcile does to the world. *)
Lemma sync_effects (env : Bindings) (hostname ipv4 : string) (w : World) :
  let w' := snd (syncDnsRecord env hostname ipv4 w) in
  db w' = db w ∧ now w' = now w
  ∧ syncs w' = (syncs w ++ [(hostname, ipv4)])%list
  ∧ ∃ sent,
      requests w' = (requests w ++ sent)%list
      ∧ (length sent ≤ 2)%nat ∧ (length (writes sent) ≤ 1)%nat
      ∧ (credentials env = None ∨ ipv4 = "" →
         sent = [] ∧ net w' = net w ∧ fst (syncDnsRecord env hostname ipv4 w) = inr tt)
      ∧ ∀ q, In q sent →
          ∃ token zoneId, credentials env = Some (token, zoneId)
            ∧ req_headers q = headersOf token
            ∧ startsWith (baseUrlOf zoneId) (url q) = true.
Proof.
  intros w'. subst w'.
  destruct (sync_frame env hostname ipv4 w) as (Hdb & Hnow & Hsyncs & _).
  split; [exact Hdb|]. split; [exact Hnow|]. split; [exact Hsyncs|].
  clear Hdb Hnow Hsyncs.
  destruct (truthyString ipv4) eqn:Hip.
  2:{ destruct ipv4; [|discriminate]. rewrite sync_empty. exists [].
      cbn. rewrite app_nil_r. repeat split; auto; try lia; intros q []. }
  destruct (credentials env) as [[token zoneId]|] eqn:Hc.
  2:{ destruct (sync_no_credentials env hostname ipv4 w Hc) as [msg ->]. rewrite Hip.
      exists []. cbn. rewrite app_nil_r. repeat split; auto; try lia; intros q []. }
  assert (∀ q, In q [lookupRequest (baseUrlOf zoneId) (headersOf token) hostname] ∨
               (∃ existing, q = writeRequest (baseUrlOf zoneId) (headersOf token)
                                  hostname ipv4 existing) →
               ∃ token0 zoneId0, Some (token, zoneId) = Some (token0, zoneId0)
                 ∧ req_headers q = headersOf token0
                 ∧ startsWith (baseUrlOf zoneId0) (url q) = true) as Hq.
  { intros q Hq. exists token, zoneId. split; [reflexivity|].
    destruct Hq as [[<-|[]]|[existing ->]].
    - split; [reflexivity|]. cbn [url lookupRequest]. apply startsWith_app.
    - split; [reflexivity|]. cbn [url writeRequest].
      destruct (truthyOpt existing); [apply startsWith_app|].
      rewrite <- (append_nil_r (baseUrlOf zoneId)) at 2. apply startsWith_app. }
  pose proof (sync_requests env hostname ipv4 token zoneId w Hip Hc) as Hs.
  cbn zeta in Hs.
  destruct (fst (fetchDnsRecord (baseUrlOf zoneId) (headersOf token) hostname w))
    as [e|existing].
  { destruct Hs as [_ Hreq]. eexists. split; [exact Hreq|].
    split; [cbn; lia|]. split; [cbn; lia|].
    split; [intros [Hn|Hn]; [discriminate | subst; discriminate]|].
    intros q Hin. apply Hq. left. exact Hin. }
  destruct (upToDate existing ipv4).
  { destruct Hs as [_ Hreq]. eexists. split; [exact Hreq|].
    split; [cbn; lia|]. split; [cbn; lia|].
    split; [intros [Hn|Hn]; [discriminate | subst; discriminate]|].
    intros q Hin. apply Hq. left. exact Hin. }
  eexists. split; [exact Hs|]. split; [cbn; lia|]. split.
  { unfold writes. cbn [List.filter]. rewrite isWrite_lookup, isWrite_write. cbn. lia. }
  split.
  { intros [Hn|Hn]; [discriminate | subst; discriminate]. }
  intros q [<-|[<-|[]]].
  - apply Hq. left. left. reflexivity.
  - apply Hq. right. eauto.
Qed.

End Cases.

Section Shapes.
Context `{Platform}.

Lemma afterInsert_reconciled (env : Bindings) (created : ResolverRow) (w1 : World) :
  afterInsert env created w1
  = reconciled env (truthyString (row_ipv4 created)) created
      (resolverResponse created 201) CREATED_NOT_SYNCED
      "Failed to sync DNS after create" w1.
Proof. reflexivity. Qed.

Lemma afterUpdate_reconciled (env : Bindings) (f : ResolverPayload)
    (current updated : ResolverRow) (w1 : World) :
  afterUpdate env f current updated w1
  = reconciled env (mustSync f current updated) updated
      (resolverResponse updated 200) UPDATED_NOT_SYNCED
      "Failed to sync DNS after update" w1.
Proof. reflexivity. Qed.

Lemma reconciled_effects (env : Bindings) (due : bool) (row : ResolverRow)
    (done failed : Response) (note : string) (w1 : World) :
  ∃ response w2,
    reconciled env due row done failed note w1 = (inr response, w2)
    ∧ (response = done ∨ response = failed ∧ due = true)
    ∧ db w2 = db w1 ∧ now w2 = now w1
    ∧ syncs w2 = (syncs w1 ++ if due then [(row_hostname row, row_ipv4 row)] else [])%list
    ∧ ∃ sent,
        requests w2 = (requests w1 ++ sent)%list
        ∧ (length sent ≤ 2)%nat ∧ (length (writes sent) ≤ 1)%nat
        ∧ (due = false ∨ credentials env = None →
           sent = [] ∧ net w2 = net w1 ∧ response = done)
        ∧ ∀ q, In q sent →
            ∃ token zoneId, credentials env = Some (token, zoneId)
              ∧ req_headers q = headersOf token
              ∧ startsWith (baseUrlOf zoneId) (url q) = true.
Proof.
  unfold reconciled. destruct due.
  2:{ exists done, w1. split; [reflexivity|]. split; [auto|].
      rewrite app_nil_r. repeat (split; [reflexivity|]).
      exists []. rewrite app_nil_r. repeat split; auto; try (cbn; lia); intros q []. }
  destruct (sync_effects env (row_hostname row) (row_ipv4 row) w1)
    as (Hdb & Hnow & Hsyncs & sent & Hreq & Hlen & Hwr & Hnone & Hq).
  cbn zeta in *.
  destruct (syncDnsRecord env (row_hostname row) (row_ipv4 row) w1) as [[e|u] w2];
    cbn [fst snd] in *.
  - exists failed, (snd (console_error note w2)). split; [reflexivity|].
    split; [auto|]. cbn [console_error snd db now syncs requests net].
    repeat (split; [assumption|]).
    exists sent. repeat (split; [assumption|]). split; [|exact Hq].
    intros [Hd|Hc]; [discriminate|].
    destruct (Hnone (or_introl Hc)) as (_ & _ & Hf). discriminate.
  - exists done, w2. split; [reflexivity|]. split; [auto|].
    repeat (split; [assumption|]).
    exists sent. repeat (split; [assumption|]). split; [|exact Hq].
    intros [Hd|Hc]; [discriminate|].
    destruct (Hnone (or_introl Hc)) as (-> & Hn & _). auto.
Qed.

Lemma shaped_error (msg : string) (status : Z) :
  400 <= status → WellShaped (jsonError msg status None).
Proof.
  intros Hs. split; [reflexivity|]. split.
  - split; [eauto | intros _; exact Hs].
  - intros m errs. discriminate.
Qed.

Lemma shaped_resolver (row : ResolverRow) (status : Z) :
  status < 400 → WellShaped (resolverResponse row status).
Proof.
  intros Hs. split; [reflexivity|]. split.
  - split; [cbn; lia | intros (m & x & Hm); discriminate].
  - intros m errs. discriminate.
Qed.

Lemma shaped_invalid (errs : list string) :
  errs ≠ [] → WellShaped (jsonError "Validation failed" 422 (Some errs)).
Proof.
  intros Hs. split; [reflexivity|]. split.
  - split; [eauto | intros _; cbn; lia].
  - intros m errs' [= <- <-]. auto.
Qed.

Lemma quiet (env : Bindings) (r : Route) (w : World) (response : Response) :
  status response ≠ 502 → Effects env r w response w.
Proof.
  intros Hs. split; [reflexivity|]. split; [reflexivity|]. split; [auto|].
  exists []. rewrite app_nil_r. repeat split; auto; try (cbn; lia); intros q [].
Qed.

Lemma setDb_quiet (env : Bindings) (r : Route) (w : World) (d : Db) (response : Response) :
  mutates r = true → status response ≠ 502 → Effects env r w response (setDb d w).
Proof.
  intros Hm Hs. split; [reflexivity|]. split; [congruence|]. split; [auto|].
  exists []. cbn [setDb requests net]. rewrite app_nil_r.
  repeat split; auto; try (cbn; lia); intros q [].
Qed.

End Shapes.

Section Routes.
Context `{Platform}.

Lemma shaped_ok (body : ResponseBody) (status : Z) :
  status < 400 → (∀ msg extra, body ≠ ErrorBody msg extra) →
  WellShaped (jsonResponse body status).
Proof.
  intros Hs Hb. split; [reflexivity|]. split.
  - split; [cbn; lia | intros (m & x & Hm); exfalso; exact (Hb m x Hm)].
  - intros m errs Hm. exfalso. exact (Hb m (Some errs) Hm).
Qed.

Lemma created_address_is_valid (data : gmap string JsValue) (options : ValidateOptions) :
  let ip := v_ipv4 (insertValues (fields (validateResolverPayload data options))) in
  truthyString ip = true → test IPV4_REGEX ip = true.
Proof.
  cbn zeta. unfold insertValues. cbn [v_ipv4].
  destruct (validated_normal data options) as (_ & _ & _ & Hip).
  cbn zeta in Hip.
  destruct (p_ipv4 (fields (validateResolverPayload data options))) as [ip|];
    cbn [default]; [|discriminate].
  destruct (Hip ip eq_refl) as [_ [-> | Hv]]; [discriminate | auto].
Qed.

Lemma mustSync_address (f : ResolverPayload) (t : Timestamp) (current : ResolverRow) :
  mustSync f current (applySet (updateValues f) t current) = true →
  ∃ ip, p_ipv4 f = Some ip ∧ row_ipv4 (applySet (updateValues f) t current) = ip
        ∧ truthyString ip = true.
Proof.
  unfold mustSync. cbn [applySet updateValues row_ipv4 set_ipv4].
  destruct (p_ipv4 f) as [ip|]; cbn [default]; [|discriminate].
  intros [_ Ht]%andb_true_iff. eauto.
Qed.

Lemma create_outcome_shape (request : Request) (env : Bindings) (w : World) :
  ∃ response w',
    createResolverHandler request env w = (inr response, w')
    ∧ In (status response) [201; 400; 409; 422; 502]
    ∧ WellShaped response
    ∧ Effects env (PostResolver request) w response w'.
Proof.
  destruct (create_cases request env w)
    as [(msg & _ & ->) | [(data & _ & Herr & ->) | (data & p & h & _ & Herr & Fp & Fh & Hc)]].
  - eexists _, w. split; [reflexivity|]. split; [cbn; auto|].
    split; [apply shaped_error; lia | apply quiet; discriminate].
  - eexists _, w. split; [reflexivity|]. split; [cbn; auto 6|].
    split; [apply shaped_invalid, Herr | apply quiet; discriminate].
  - cbn zeta in Hc. set (v := validateResolverPayload data createOptions) in *.
    set (row := newRow (db w) (now w) p h (insertValues (fields v))) in *.
    destruct (clashes row (rows (db w))).
    { rewrite Hc. eexists _, w. split; [reflexivity|]. split; [cbn; auto|].
      split; [apply shaped_error; cbn; lia | apply quiet; discriminate]. }
    rewrite Hc, afterInsert_reconciled.
    set (w1 := setDb _ w).
    destruct (reconciled_effects env (truthyString (row_ipv4 row)) row
                (resolverResponse row 201) CREATED_NOT_SYNCED
                "Failed to sync DNS after create" w1)
      as (response & w2 & -> & Hresp & Hdb & Hnow & Hsyncs & sent & Hreq & Hlen & Hwr & Hnone & Hq).
    exists response, w2. split; [reflexivity|].
    split; [destruct Hresp as [-> | [-> _]]; cbn; auto 6|].
    split.
    { destruct Hresp as [-> | [-> _]];
        [apply shaped_resolver; lia | apply shaped_error; cbn; lia]. }
    split; [exact Hnow|]. split; [discriminate|]. split.
    { destruct (truthyString (row_ipv4 row)) eqn:Hip.
      - right. exists row. split; [exact Hsyncs|]. split.
        { rewrite Hdb. subst w1. cbn [db setDb rows]. apply in_or_app. right. left. reflexivity. }
        split; [reflexivity|]. split; [|reflexivity].
        apply (created_address_is_valid data createOptions). exact Hip.
      - left. rewrite Hsyncs. apply app_nil_r. }
    exists sent. split; [exact Hreq|]. split; [exact Hlen|]. split; [exact Hwr|].
    split; [|exact Hq].
    intros [Hn|Hn]; [discriminate|].
    destruct (Hnone (or_intror Hn)) as (-> & Hnet & ->). repeat split; auto; discriminate.
Qed.

Lemma update_outcome_shape (request : Request) (env : Bindings) (id : Z) (w : World)
    (r : Route) :
  mutates r = true → reconciles r = true →
  ∃ response w',
    updateResolverHandler request env id w = (inr response, w')
    ∧ In (status response) [200; 400; 404; 409; 422; 502]
    ∧ WellShaped response
    ∧ Effects env r w response w'.
Proof.
  intros Hmut Hrec.
  destruct (update_cases request env id w)
    as [(msg & _ & ->) | [(data & _ & Herr & ->) | (data & _ & Herr & Hc)]].
  - eexists _, w. split; [reflexivity|]. split; [cbn; auto|].
    split; [apply shaped_error; lia | apply quiet; discriminate].
  - eexists _, w. split; [reflexivity|]. split; [cbn; auto 6|].
    split; [apply shaped_invalid, Herr | apply quiet; discriminate].
  - cbn zeta in Hc. set (f := fields (validateResolverPayload data updateOptions)) in *.
    destruct (List.find (liveWithId id) (rows (db w))) as [current|] eqn:Hfind.
    2:{ rewrite Hc. eexists _, w. split; [reflexivity|]. split; [cbn; auto|].
        split; [apply shaped_error; cbn; lia | apply quiet; discriminate]. }
    destruct (writesKey (updateValues f) && _).
    { rewrite Hc. eexists _, w. split; [reflexivity|]. split; [cbn; auto 6|].
      split; [apply shaped_error; cbn; lia | apply quiet; discriminate]. }
    rewrite Hc, afterUpdate_reconciled.
    set (updated := applySet (updateValues f) (now w) current).
    set (w1 := setDb _ w).
    destruct (reconciled_effects env (mustSync f current updated) updated
                (resolverResponse updated 200) UPDATED_NOT_SYNCED
                "Failed to sync DNS after update" w1)
      as (response & w2 & -> & Hresp & Hdb & Hnow & Hsyncs & sent & Hreq & Hlen & Hwr & Hnone & Hq).
    exists response, w2. split; [reflexivity|].
    split; [destruct Hresp as [-> | [-> _]]; cbn; auto 7|].
    split.
    { destruct Hresp as [-> | [-> _]];
        [apply shaped_resolver; lia | apply shaped_error; cbn; lia]. }
    split; [exact Hnow|]. split; [congruence|]. split.
    { destruct (mustSync f current updated) eqn:Hdue.
      - right. exists updated. split; [exact Hsyncs|]. split.
        { rewrite Hdb. subst w1. cbn [db setDb rows]. apply In_updated_row, Hfind. }
        split.
        { apply find_some in Hfind as [_ Hl]. apply liveWithId_true in Hl as [_ Hl].
          exact Hl. }
        split; [|exact Hrec].
        destruct (mustSync_address f (now w) current Hdue) as (ip & Fip & Hip & Ht).
        fold updated in Hip. rewrite Hip.
        destruct (validated_normal data updateOptions) as (_ & _ & _ & Hv).
        cbn zeta in Hv. destruct (Hv ip Fip) as [_ [-> | Hok]]; [discriminate | exact Hok].
      - left. rewrite Hsyncs. apply app_nil_r. }
    exists sent. split; [exact Hreq|]. split; [exact Hlen|]. split; [exact Hwr|].
    split; [|exact Hq].
    intros [Hn|Hn]; [congruence|].
    destruct (Hnone (or_intror Hn)) as (-> & Hnet & ->). repeat split; auto; discriminate.
Qed.

Lemma route_outcome (env : Bindings) (r : Route) (w : World) :
  ∃ response w',
    route env r w = (inr response, w')
    ∧ In (status response) (statuses r)
    ∧ WellShaped response
    ∧ Effects env r w response w'.
Proof.
  assert (∀ r', In 400 (statuses r') →
            ∃ response w', ret BAD_ID w = (inr response, w')
              ∧ In (status response) (statuses r') ∧ WellShaped response
              ∧ Effects env r' w response w') as Hbad.
  { intros r' Hin. exists BAD_ID, w. split; [reflexivity|]. split; [exact Hin|].
    split; [apply shaped_error; cbn; lia | apply quiet; discriminate]. }
  destruct r as [| |params|request|idParam params|idParam request|idParam request|idParam|];
    cbn [route]; unfold withId;
    try (destruct (parseResolverIdParam idParam) as [id|]; [|apply Hbad; cbn; auto]).
  - eexists _, w. split; [reflexivity|]. split; [left; reflexivity|].
    split; [apply shaped_ok; [lia | discriminate] | apply quiet; discriminate].
  - eexists _, w. split; [reflexivity|]. split; [left; reflexivity|].
    split; [apply shaped_ok; [lia | discriminate] | apply quiet; discriminate].
  - rewrite list_exact. eexists _, w. split; [reflexivity|]. split; [left; reflexivity|].
    split; [apply shaped_ok; [lia | discriminate] | apply quiet; discriminate].
  - apply create_outcome_shape.
  - unfold getResolverHandler, bind. rewrite find_run.
    destruct (List.find _ _) as [row|].
    + eexists _, w. split; [reflexivity|]. split; [cbn; auto|].
      split; [apply shaped_resolver; lia | apply quiet; discriminate].
    + eexists _, w. split; [reflexivity|]. split; [cbn; auto|].
      split; [apply shaped_error; lia | apply quiet; discriminate].
  - apply update_outcome_shape; reflexivity.
  - apply update_outcome_shape; reflexivity.
  - rewrite delete_run. destruct (List.find _ _) as [row|].
    + eexists _, _. split; [reflexivity|]. split; [cbn; auto|].
      split; [apply shaped_resolver; lia | apply setDb_quiet; [reflexivity | discriminate]].
    + eexists _, _. split; [reflexivity|]. split; [cbn; auto|].
      split; [apply shaped_error; cbn; lia | apply setDb_quiet; [reflexivity | discriminate]].
  - eexists _, w. split; [reflexivity|]. split; [left; reflexivity|].
    split; [apply shaped_error; lia | apply quiet; discriminate].
Qed.

End Routes.

(** ** One request at a time *)

Section App.
Context `{Platform}.

Lemma createApp_outcome (env : Bindings) (r : Route) (w : World) :
  ∃ response w',
    route env r w = (inr response, w') ∧ createApp env r w = (response, w')
    ∧ In (status response) (statuses r)
    ∧ WellShaped response
    ∧ Effects env r w response w'.
Proof.
  destruct (route_outcome env r w) as (response & w' & Hr & Hs & Hshape & Heff).
  exists response, w'. unfold createApp. rewrite Hr. auto.
Qed.


(** X15: every response carries the JSON content type; its body is an
    error object exactly when its status is 400 or more; and a list of
    errors comes only with 422 "Validation failed", and is then not
    empty. *)
Theorem responses_are_json (env : Bindings) (r : Route) (w : World) :
  let response := fst (createApp env r w) in
  headers response = [("content-type", "application/json; charset=utf-8")]
  ∧ (400 <= status response ↔ ∃ msg extra, payload response = ErrorBody msg extra)
  ∧ (∀ msg errs, payload response = ErrorBody msg (Some errs) →
       status response = 422 ∧ msg = "Validation failed" ∧ errs ≠ []).
Proof.
  destruct (createApp_outcome env r w) as (response & w' & _ & -> & _ & Hshape & _).
  exact Hshape.
Qed.

(** X16: one request calls [syncDnsRecord] at most once, and only a
    create or an update does: the call carries the hostname and the address
    of a row that is in the table after the request and is not deleted, and
    the address matches the address pattern. *)
Theorem reconcile_gets_the_stored_address (env : Bindings) (r : Route) (w : World) :
  let w' := snd (createApp env r w) in
  syncs w' = syncs w
  ∨ ∃ row, syncs w' = (syncs w ++ [(row_hostname row, row_ipv4 row)])%list
      ∧ In row (rows (db w')) ∧ row_isDeleted row = 0
      ∧ test IPV4_REGEX (row_ipv4 row) = true
      ∧ reconciles r = true.
Proof.
  destruct (createApp_outcome env r w) as (response & w' & _ & -> & _ & _ & Heff).
  apply Heff.
Qed.

(** X17: one request sends at most two requests to the provider, at most
    one of them a write; each goes to the zone's records endpoint with the
    configured token; a route other than create and update sends none and
    leaves the provider as it was. *)
Theorem provider_traffic_is_bounded (env : Bindings) (r : Route) (w : World) :
  let w' := snd (createApp env r w) in
  ∃ sent,
    requests w' = (requests w ++ sent)%list
    ∧ (length sent ≤ 2)%nat ∧ (length (writes sent) ≤ 1)%nat
    ∧ (reconciles r = false → sent = [] ∧ net w' = net w)
    ∧ ∀ q, In q sent →
        ∃ token zoneId, credentials env = Some (token, zoneId)
          ∧ req_headers q = headersOf token
          ∧ startsWith (baseUrlOf zoneId) (url q) = true.
Proof.
  destruct (createApp_outcome env r w) as (response & w' & _ & -> & _ & _ & Heff).
  destruct Heff as (_ & _ & _ & sent & Hreq & Hlen & Hwr & Hnone & Hq).
  exists sent. repeat (split; [assumption|]). split; [|exact Hq].
  intros Hr. destruct (Hnone (or_introl Hr)) as (? & ? & _). auto.
Qed.

(** X18: when the token or the zone id is not configured, no request of a
    session sends anything to the provider or changes it, and no response is
    a 502. *)
Theorem without_credentials_nothing_is_sent (env : Bindings) :
  credentials env = None →
  (∀ r w, status (fst (createApp env r w)) ≠ 502
          ∧ requests (snd (createApp env r w)) = requests w
          ∧ net (snd (createApp env r w)) = net w)
  ∧ ∀ session w, requests (serve env session w) = requests w
                 ∧ net (serve env session w) = net w.
Proof.
  intros Hc.
  assert (∀ r w, status (fst (createApp env r w)) ≠ 502
                 ∧ requests (snd (createApp env r w)) = requests w
                 ∧ net (snd (createApp env r w)) = net w) as Hone.
  { intros r w.
    destruct (createApp_outcome env r w) as (response & w' & _ & -> & _ & _ & Heff).
    destruct Heff as (_ & _ & _ & sent & Hreq & _ & _ & Hnone & _).
    destruct (Hnone (or_intror Hc)) as (-> & Hnet & Hs).
    rewrite app_nil_r in Hreq. auto. }
  split; [exact Hone|].
  induction session as [|[t r] session IH]; intros w; [auto|].
  cbn [serve]. destruct (IH (snd (createApp env r (at_ t w)))) as [-> ->].
  destruct (Hone r (at_ t w)) as (_ & -> & ->). auto.
Qed.

End App.

(** ** What a write answers *)

Lemma wellFormed_true (r : ResolverRow) :
  wellFormed r = true ↔
  1 <= row_id r
  ∧ (row_provider r ≠ "" ∧ trim (row_provider r) = row_provider r)
  ∧ (row_hostname r ≠ "" ∧ trim (row_hostname r) = row_hostname r)
  ∧ trim (row_alias r) = row_alias r
  ∧ (row_ipv4 r = "" ∨ test IPV4_REGEX (row_ipv4 r) = true)
  ∧ (row_isDeleted r = 0 ∨ row_isDeleted r = 1).
Proof.
  unfold wellFormed.
  rewrite !andb_true_iff, !orb_true_iff, !negb_true_iff, !String.eqb_eq, !String.eqb_neq,
    !Z.eqb_eq, Z.leb_le.
  tauto.
Qed.

Lemma find_app {A : Type} (f : A → bool) (l1 l2 : list A) :
  List.find f (l1 ++ l2)
  = match List.find f l1 with Some x => Some x | None => List.find f l2 end.
Proof.
  induction l1 as [|x l1 IH]; [reflexivity|]. cbn [app List.find].
  destruct (f x); [reflexivity | exact IH].
Qed.

Lemma find_map_if {A : Type} (g cond : A → bool) (f : A → A) (l : list A) :
  (∀ x, g (f x) = g x) →
  List.find g (map (fun x => if cond x then f x else x) l)
  = option_map (fun x => if cond x then f x else x) (List.find g l).
Proof.
  intros Hg. induction l as [|x l IH]; [reflexivity|]. cbn [map List.find].
  assert (g (if cond x then f x else x) = g x) as -> by (destruct (cond x); auto).
  destruct (g x); [reflexivity | exact IH].
Qed.

Lemma fold_max_nonneg (l : list Z) : 0 <= fold_right Z.max 0 l.
Proof. induction l as [|x l IH]; cbn; lia. Qed.

Section Records.
Context `{Platform}.

Lemma nextId_positive (d : Db) : 1 <= nextId d.
Proof. unfold nextId. pose proof (fold_max_nonneg (map row_id (rows d))). lia. Qed.

Lemma find_fresh (cond : ResolverRow → bool) (d : Db) (row : ResolverRow) :
  row_id row = nextId d → (∀ x, cond x = true → row_id x = row_id row) →
  cond row = true →
  List.find cond (rows d ++ [row]) = Some row.
Proof.
  intros Hid Hcond Hrow. rewrite find_app.
  destruct (List.find cond (rows d)) as [x|] eqn:Hfind.
  - apply find_some in Hfind as [Hin Hx]. apply Hcond in Hx.
    pose proof (nextId_fresh d x Hin). lia.
  - cbn. rewrite Hrow. reflexivity.
Qed.

Lemma live_is_first_with_id (id : Z) (table : list ResolverRow) (c : ResolverRow) :
  NoDup (map row_id table) →
  List.find (liveWithId id) table = Some c →
  List.find (hasId id) table = Some c.
Proof.
  induction table as [|x l IH]; [discriminate|].
  intros [Hx Hl]%NoDup_ids_cons. cbn [List.find].
  unfold liveWithId at 1. destruct (hasId id x) eqn:Hid; cbn [andb].
  - destruct (isLive x); [auto|]. intros Hfind. exfalso.
    apply find_some in Hfind as [Hin Hc]. apply liveWithId_true in Hc as [Hc _].
    apply (Hx c Hin). unfold hasId in Hid. apply Z.eqb_eq in Hid. congruence.
  - auto.
Qed.

(** X19: a create answered 201 returns and stores the record made of the
    trimmed provider and hostname of the body, its trimmed alias and ipv4
    ("" when absent or not a string), not deleted, created and modified at
    the time of the request, under an id of at least 1 that is greater than
    every id of the table; a get of that id then answers 200 with the same
    record. *)
Theorem created_record_is_what_was_sent
    (request : Request) (env : Bindings) (w : World) (data : gmap string JsValue) :
  readJsonBody request = inr data →
  statusOf (fst (createResolverHandler request env w)) = Some 201 →
  ∃ p h,
    data !! "provider" = Some (JsString p) ∧ data !! "hostname" = Some (JsString h)
    ∧ let row :=
        {| row_id := nextId (db w);
           row_provider := trim p; row_hostname := trim h;
           row_alias := match data !! "alias" with
                        | Some raw => stringOrEmpty raw | None => "" end;
           row_ipv4 := match data !! "ipv4" with
                       | Some raw => stringOrEmpty raw | None => "" end;
           row_isDeleted := 0; row_mtime := now w; row_ctime := now w |} in
      let w' := snd (createResolverHandler request env w) in
      fst (createResolverHandler request env w)
      = inr (jsonResponse (ResolverBody (toResolverDto row)) 201)
      ∧ rows (db w') = (rows (db w) ++ [row])%list
      ∧ 1 <= row_id row
      ∧ (∀ x, In x (rows (db w)) → row_id x < row_id row)
      ∧ ∀ params t,
          getResolverHandler env (row_id row) params (at_ t w')
          = (inr (jsonResponse (ResolverBody (toResolverDto row)) 200), at_ t w').
Proof.
  intros Hread Hstatus.
  destruct (create_cases request env w)
    as [(msg & Hr & _) | [(data' & Hr & _ & Hc) | (data' & p' & h' & Hr & Herr & Fp & Fh & Hc)]].
  - congruence.
  - rewrite Hc in Hstatus. discriminate.
  - rewrite Hread in Hr. injection Hr as <-.
    destruct (create_validation_values data Herr) as (p & h & Bp & Bh & Hv).
    exists p, h. split; [exact Bp|]. split; [exact Bh|].
    assert (Some p' = Some (trim p)) as [= ->].
    { rewrite <- Fp. exact (f_equal v_provider Hv). }
    assert (Some h' = Some (trim h)) as [= ->].
    { rewrite <- Fh. exact (f_equal v_hostname Hv). }
    cbn zeta in Hc. unfold newRow in Hc. rewrite Hv in Hc.
    cbn [v_alias v_ipv4] in Hc.
    intros row w'. fold row in Hc.
    destruct (clashes row (rows (db w))).
    { rewrite Hc in Hstatus. discriminate. }
    subst w'. revert Hstatus. rewrite Hc, afterInsert_reconciled.
    destruct (reconciled_effects env (truthyString (row_ipv4 row)) row
                (resolverResponse row 201) CREATED_NOT_SYNCED
                "Failed to sync DNS after create"
                (setDb {| rows := rows (db w) ++ [row]; lastId := row_id row |} w))
      as (response & w2 & -> & Hresp & Hdb & _).
    cbn [fst snd]. intros Hstatus.
    destruct Hresp as [-> | [-> _]]; [|discriminate].
    split; [reflexivity|]. split; [rewrite Hdb; reflexivity|].
    split; [apply nextId_positive|]. split; [intros x Hx; apply nextId_fresh, Hx|].
    intros params t. unfold getResolverHandler, bind. rewrite find_run.
    cbn [at_ db]. rewrite Hdb. cbn [db setDb rows].
    rewrite (find_fresh _ (db w) row).
    + reflexivity.
    + reflexivity.
    + intros x. destruct (parseBoolean _).
      * unfold hasId. intros Hx. apply Z.eqb_eq in Hx. exact Hx.
      * intros Hx. apply liveWithId_true in Hx as [Hx _]. exact Hx.
    + destruct (parseBoolean _); unfold liveWithId, hasId, isLive;
        cbn [row row_id row_isDeleted]; rewrite Z.eqb_refl; reflexivity.
Qed.

(** X20: an update answered 200 returns the record it stored: the live
    row of that id, with each key present in the body set to its trimmed
    string ("" when it is not a string), the modification time set to the
    time of the request and everything else as before; a get of that id then
    answers 200 with the same record. *)
Theorem update_answers_what_is_stored
    (request : Request) (env : Bindings) (id : Z) (w : World) (data : gmap string JsValue) :
  readJsonBody request = inr data →
  statusOf (fst (updateResolverHandler request env id w)) = Some 200 →
  ∃ current,
    List.find (liveWithId id) (rows (db w)) = Some current
    ∧ let pick (key : string) (old : string) :=
        match data !! key with Some raw => stringOrEmpty raw | None => old end in
      let updated :=
        {| row_id := id;
           row_provider := pick "provider" (row_provider current);
           row_hostname := pick "hostname" (row_hostname current);
           row_alias := pick "alias" (row_alias current);
           row_ipv4 := pick "ipv4" (row_ipv4 current);
           row_isDeleted := 0; row_mtime := now w; row_ctime := row_ctime current |} in
      let w' := snd (updateResolverHandler request env id w) in
      fst (updateResolverHandler request env id w)
      = inr (jsonResponse (ResolverBody (toResolverDto updated)) 200)
      ∧ In updated (rows (db w'))
      ∧ (∀ params t,
           parseBoolean (get params "includeDeleted") = false →
           getResolverHandler env id params (at_ t w')
           = (inr (jsonResponse (ResolverBody (toResolverDto updated)) 200), at_ t w'))
      ∧ (KeysDistinct (db w) →
         ∀ params t,
           getResolverHandler env id params (at_ t w')
           = (inr (jsonResponse (ResolverBody (toResolverDto updated)) 200), at_ t w')).
Proof.
  intros Hread Hstatus.
  destruct (update_cases request env id w)
    as [(msg & Hr & _) | [(data' & Hr & _ & Hc) | (data' & Hr & Herr & Hc)]].
  - congruence.
  - rewrite Hc in Hstatus. discriminate.
  - rewrite Hread in Hr. injection Hr as <-. cbn zeta in Hc.
    destruct (List.find (liveWithId id) (rows (db w))) as [current|] eqn:Hfind.
    2:{ rewrite Hc in Hstatus. discriminate. }
    exists current. split; [reflexivity|].
    destruct (update_validation_fields data Herr) as (Fp & Fh & Fa & Fi).
    set (f := fields (validateResolverPayload data updateOptions)) in *.
    intros pick updated w'.
    assert (applySet (updateValues f) (now w) current = updated) as Hup.
    { pose proof (find_some _ _ Hfind) as [_ Hl]. apply liveWithId_true in Hl as [Hid Hlive].
      unfold applySet, updated, pick.
      cbn [updateValues set_provider set_hostname set_alias set_ipv4 set_isDeleted
             set_mtime_current default].
      rewrite Fp, Fh, Fa, Fi, Hid, Hlive.
      destruct (data !! "provider"), (data !! "hostname"), (data !! "alias"),
        (data !! "ipv4"); reflexivity. }
    rewrite Hup in Hc.
    destruct (writesKey (updateValues f) && _).
    { rewrite Hc in Hstatus. discriminate. }
    subst w'. revert Hstatus. rewrite Hc, afterUpdate_reconciled.
    set (w1 := setDb _ w).
    destruct (reconciled_effects env (mustSync f current updated) updated
                (resolverResponse updated 200) UPDATED_NOT_SYNCED
                "Failed to sync DNS after update" w1)
      as (response & w2 & -> & Hresp & Hdb & _).
    cbn [fst snd]. intros Hstatus.
    destruct Hresp as [-> | [-> _]]; [|discriminate].
    split; [reflexivity|].
    assert (rows (db w2)
            = updatedRows (updateValues f) (now w) (liveWithId id) (rows (db w))) as Hrows.
    { rewrite Hdb. reflexivity. }
    split.
    { rewrite Hrows, <- Hup. apply In_updated_row, Hfind. }
    assert (∀ g, (∀ x, g (applySet (updateValues f) (now w) x) = g x) →
                 List.find g (rows (db w)) = Some current →
                 ∀ t, List.find g (rows (db (at_ t w2))) = Some updated) as Hget.
    { intros g Hg Hfirst t. cbn [at_ db]. rewrite Hrows. unfold updatedRows.
      rewrite find_map_if by exact Hg. rewrite Hfirst. cbn [option_map].
      apply find_some in Hfind as [_ ->]. rewrite Hup. reflexivity. }
    split.
    + intros params t Hdefault. unfold getResolverHandler, bind.
      rewrite find_run, Hdefault, (Hget (liveWithId id)); [reflexivity | | exact Hfind].
      intros x. reflexivity.
    + intros Hkeys params t. unfold getResolverHandler, bind. rewrite find_run.
      destruct (parseBoolean _).
      * rewrite (Hget (hasId id)); [reflexivity | intros x; reflexivity|].
        apply live_is_first_with_id; assumption.
      * rewrite (Hget (liveWithId id)); [reflexivity | intros x; reflexivity | exact Hfind].
Qed.

End Records.

(** ** The rows of the table *)

Section WellFormedness.
Context `{Platform}.

(** The table after a request: untouched, one validated row more, the
    validated fields assigned to the live row of an id, or that row flagged
    deleted. *)
Lemma route_db_cases (env : Bindings) (r : Route) (w : World) :
  let d' := db (snd (route env r w)) in
  d' = db w
  ∨ (∃ data p h,
       let f := fields (validateResolverPayload data createOptions) in
       p_provider f = Some p ∧ p_hostname f = Some h
       ∧ d' = {| rows := rows (db w) ++ [newRow (db w) (now w) p h (insertValues f)];
                 lastId := nextId (db w) |})
  ∨ (∃ data id,
       d' = {| rows := updatedRows
                         (updateValues (fields (validateResolverPayload data updateOptions)))
                         (now w) (liveWithId id) (rows (db w));
               lastId := lastId (db w) |})
  ∨ (∃ id,
       d' = {| rows := updatedRows softDelete (now w) (liveWithId id) (rows (db w));
               lastId := lastId (db w) |}).
Proof.
  assert (∀ request,
            let d' := db (snd (createResolverHandler request env w)) in
            d' = db w
            ∨ (∃ data p h,
                 let f := fields (validateResolverPayload data createOptions) in
                 p_provider f = Some p ∧ p_hostname f = Some h
                 ∧ d' = {| rows := rows (db w) ++ [newRow (db w) (now w) p h (insertValues f)];
                           lastId := nextId (db w) |})) as Hcreate.
  { intros request d'. subst d'.
    destruct (create_cases request env w)
      as [(msg & _ & ->) | [(data & _ & _ & ->) | (data & p & h & _ & _ & Fp & Fh & Hc)]];
      [left; reflexivity | left; reflexivity |].
    cbn zeta in Hc. destruct (clashes _ _); rewrite Hc; [left; reflexivity|].
    right. exists data, p, h. split; [exact Fp|]. split; [exact Fh|].
    rewrite afterInsert_db. reflexivity. }
  assert (∀ request id,
            let d' := db (snd (updateResolverHandler request env id w)) in
            d' = db w
            ∨ ∃ data,
                d' = {| rows := updatedRows
                                  (updateValues (fields (validateResolverPayload data updateOptions)))
                                  (now w) (liveWithId id) (rows (db w));
                        lastId := lastId (db w) |}) as Hupdate.
  { intros request id d'. subst d'.
    destruct (update_cases request env id w)
      as [(msg & _ & ->) | [(data & _ & _ & ->) | (data & _ & _ & Hc)]];
      [left; reflexivity | left; reflexivity |].
    cbn zeta in Hc. destruct (List.find _ _); [|rewrite Hc; left; reflexivity].
    destruct (writesKey _ && _); rewrite Hc; [left; reflexivity|].
    right. exists data. rewrite afterUpdate_db. reflexivity. }
  destruct r as [| |params|request|idParam params|idParam request|idParam request|idParam|];
    cbn [route]; unfold withId;
    try (destruct (parseResolverIdParam idParam) as [id|]);
    try (left; reflexivity).
  - destruct (Hcreate request) as [Hd|Hd]; [left; exact Hd | right; left; exact Hd].
  - left. rewrite get_pure. reflexivity.
  - destruct (Hupdate request id) as [Hd|[data Hd]]; [left; exact Hd|].
    right; right; left. exists data, id. exact Hd.
  - destruct (Hupdate request id) as [Hd|[data Hd]]; [left; exact Hd|].
    right; right; left. exists data, id. exact Hd.
  - right; right; right. exists id. rewrite delete_run. reflexivity.
Qed.

Lemma forallb_app_one {A : Type} (f : A → bool) (l : list A) (x : A) :
  forallb f (l ++ [x]) = forallb f l && f x.
Proof. rewrite forallb_app. cbn. rewrite andb_true_r. reflexivity. Qed.

Lemma forallb_updatedRows (f : ResolverRow → bool) (s : SetClause) (t : Timestamp)
    (cond : ResolverRow → bool) (table : list ResolverRow) :
  (∀ r, f r = true → f (applySet s t r) = true) →
  forallb f table = true → forallb f (updatedRows s t cond table) = true.
Proof.
  intros Hf. unfold updatedRows. rewrite !forallb_forall. intros Hall x Hx.
  apply in_map_iff in Hx as (r & <- & Hr). destruct (cond r); auto.
Qed.

Lemma createApp_db (env : Bindings) (r : Route) (w : World) :
  db (snd (createApp env r w)) = db (snd (route env r w)).
Proof.
  unfold createApp. destruct (route env r w) as [[e|response] w']; reflexivity.
Qed.

(** X21: through any sequence of requests every row of the table keeps an
    id of at least 1, a provider and a hostname that are not empty, fields
    free of surrounding white space, an ipv4 that is empty or matches the
    address pattern, and a deletion flag that is 0 or 1. *)
Theorem stored_records_stay_well_formed
    (env : Bindings) (session : list (Timestamp * Route)) (w : World) :
  forallb wellFormed (rows (db w)) = true →
  forallb wellFormed (rows (db (serve env session w))) = true.
Proof.
  revert w. induction session as [|[t r] session IH]; intros w Hw; [exact Hw|].
  cbn [serve]. apply IH. rewrite createApp_db.
  change (rows (db w)) with (rows (db (at_ t w))) in Hw.
  generalize dependent (at_ t w). clear w. intros w Hw.
  destruct (route_db_cases env r w)
    as [-> | [(data & p & h & Fp & Fh & ->) | [(data & id & ->) | (id & ->)]]];
    [exact Hw | | |]; cbn [rows].
  - rewrite forallb_app_one, Hw. cbn [andb]. apply wellFormed_true.
    cbn zeta in Fp, Fh.
    destruct (validated_normal data createOptions) as (Hp & Hh & Ha & Hi).
    cbn zeta in Hp, Hh, Ha, Hi.
    unfold newRow, insertValues.
    cbn [row_id row_provider row_hostname row_alias row_ipv4 row_isDeleted v_alias v_ipv4].
    split; [apply nextId_positive|]. split; [apply Hp, Fp|]. split; [apply Hh, Fh|].
    split; [|split; [|left; reflexivity]].
    + destruct (p_alias _) as [a|] eqn:Fa; [apply Ha, eq_refl | reflexivity].
    + destruct (p_ipv4 _) as [ip|] eqn:Fi; [apply (Hi ip), eq_refl | left; reflexivity].
  - apply forallb_updatedRows; [|exact Hw].
    intros x Hx. apply wellFormed_true in Hx as (Xid & Xp & Xh & Xa & Xi & Xd).
    apply wellFormed_true.
    destruct (validated_normal data updateOptions) as (Hp & Hh & Ha & Hi).
    cbn zeta in Hp, Hh, Ha, Hi.
    unfold applySet, updateValues.
    cbn [row_id row_provider row_hostname row_alias row_ipv4 row_isDeleted
           set_provider set_hostname set_alias set_ipv4 set_isDeleted].
    split; [exact Xid|].
    split; [destruct (p_provider _) as [p|]; [apply Hp, eq_refl | exact Xp]|].
    split; [destruct (p_hostname _) as [h|]; [apply Hh, eq_refl | exact Xh]|].
    split; [destruct (p_alias _) as [a|]; [apply Ha, eq_refl | exact Xa]|].
    split; [destruct (p_ipv4 _) as [ip|]; [apply (Hi ip), eq_refl | exact Xi]|].
    exact Xd.
  - apply forallb_updatedRows; [|exact Hw].
    intros x Hx. apply wellFormed_true in Hx as (Xid & Xp & Xh & Xa & Xi & Xd).
    apply wellFormed_true. cbn. auto 8.
Qed.

End WellFormedness.

(** ** The controller and the single-file worker *)

Section Worker.
Context `{Platform}.

Lemma reconciled_against (env : Bindings) (due : bool) (row : ResolverRow)
    (done failed : Response) (note : string) (w1 : World) :
  let new := reconciled env due row done failed note w1 in
  db (snd new) = db w1
  ∧ (fst new = inr done ∨ fst new = inr failed ∧ due = true)
  ∧ (due = false → new = (inr done, w1)).
Proof.
  destruct (reconciled_effects env due row done failed note w1)
    as (response & w2 & Hr & Hresp & Hdb & _).
  cbn zeta. rewrite Hr. cbn [fst snd]. split; [exact Hdb|]. split.
  - destruct Hresp as [-> | [-> Hd]]; auto.
  - intros ->. unfold reconciled in Hr. symmetry. exact Hr.
Qed.

(** X22: the controller's create and the create of the earlier single-file
    worker leave the same table on every request. The worker touches nothing
    but the table; the controller answers as the worker does, except that it
    answers 502 "Resolver created but DNS sync failed" where the worker
    answers 201, when the reconcile it adds fails. *)
Theorem controller_create_extends_worker (request : Request) (env : Bindings) (w : World) :
  let old := handleCreateResolver request env w in
  let new := createResolverHandler request env w in
  db (snd new) = db (snd old)
  ∧ snd old = setDb (db (snd old)) w
  ∧ (statusOf (fst new) ≠ Some 502 → fst new = fst old)
  ∧ (statusOf (fst new) = Some 502 →
     statusOf (fst old) = Some 201 ∧ fst new = inr CREATED_NOT_SYNCED).
Proof.
  cbn zeta.
  assert (∀ w0 : World, setDb (db w0) w0 = w0) as Hsame by (intros []; reflexivity).
  destruct (create_cases request env w)
    as [(msg & Hread & Hc) | [(data & Hread & Herr & Hc) | (data & p & h & Hread & Herr & Fp & Fh & Hc)]].
  - rewrite Hc. unfold handleCreateResolver. rewrite Hread. cbn [ret fst snd].
    rewrite Hsame. repeat split; auto; intros; discriminate.
  - rewrite Hc. unfold handleCreateResolver. rewrite Hread.
    destruct (errors (validateResolverPayload data createOptions)) as [|e es];
      [contradiction|].
    cbn [length Nat.eqb negb ret fst snd]. rewrite Hsame.
    repeat split; auto; intros; discriminate.
  - cbn zeta in Hc. unfold handleCreateResolver. rewrite Hread, Herr.
    cbn [length Nat.eqb negb]. unfold bind, attempt.
    rewrite (insert_run (insertValues (fields (validateResolverPayload data createOptions)))
               p h w Fp Fh).
    set (row := newRow _ _ _ _ _) in *.
    destruct (clashes row (rows (db w))).
    { rewrite Hc. cbn [throw ret fst snd message UNIQUE_FAILED].
      change (includes _ "UNIQUE constraint failed") with true. cbn [ret fst snd].
      rewrite Hsame. repeat split; auto; intros; discriminate. }
    rewrite Hc, afterInsert_reconciled. cbn [head ret fst snd].
    set (w1 := setDb _ w).
    destruct (reconciled_against env (truthyString (row_ipv4 row)) row
                (resolverResponse row 201) CREATED_NOT_SYNCED
                "Failed to sync DNS after create" w1) as (Hdb & Hresp & Hnone).
    cbn zeta in Hdb, Hresp, Hnone.
    split; [exact Hdb|]. split; [reflexivity|]. split.
    + intros Hs. destruct Hresp as [-> | [Hf _]]; [reflexivity|].
      rewrite Hf in Hs. exfalso. apply Hs. reflexivity.
    + intros Hs. split; [reflexivity|].
      destruct Hresp as [Hf | [Hf _]]; [rewrite Hf in Hs; discriminate | exact Hf].
Qed.

(** X23: the controller's update and the update of the earlier single-file
    worker leave the same table on every request. The worker touches nothing
    but the table; the controller answers as the worker does, except that it
    answers 502 "Resolver updated but DNS sync failed" where the worker
    answers 200, when the reconcile it adds fails. *)
Theorem controller_update_extends_worker
    (request : Request) (env : Bindings) (id : Z) (w : World) :
  let old := handleUpdateResolver request env id w in
  let new := updateResolverHandler request env id w in
  db (snd new) = db (snd old)
  ∧ snd old = setDb (db (snd old)) w
  ∧ (statusOf (fst new) ≠ Some 502 → fst new = fst old)
  ∧ (statusOf (fst new) = Some 502 →
     statusOf (fst old) = Some 200 ∧ fst new = inr UPDATED_NOT_SYNCED).
Proof.
  cbn zeta.
  assert (∀ w0 : World, setDb (db w0) w0 = w0) as Hsame by (intros []; reflexivity).
  destruct (update_cases request env id w)
    as [(msg & Hread & Hc) | [(data & Hread & Herr & Hc) | (data & Hread & Herr & Hc)]].
  - rewrite Hc. unfold handleUpdateResolver. rewrite Hread. cbn [ret fst snd].
    rewrite Hsame. repeat split; auto; intros; discriminate.
  - rewrite Hc. unfold handleUpdateResolver. rewrite Hread.
    destruct (errors (validateResolverPayload data updateOptions)) as [|e es];
      [contradiction|].
    cbn [length Nat.eqb negb ret fst snd]. rewrite Hsame.
    repeat split; auto; intros; discriminate.
  - cbn zeta in Hc. unfold handleUpdateResolver. rewrite Hread, Herr.
    cbn [length Nat.eqb negb]. rewrite (valid_update_has_field data Herr).
    unfold bind, attempt. rewrite update_returning_run.
    set (f := fields (validateResolverPayload data updateOptions)) in *.
    destruct (List.find (liveWithId id) (rows (db w))) as [current|] eqn:Hfind.
    2:{ rewrite Hc.
        assert (List.filter (liveWithId id) (rows (db w)) = []) as ->.
        { pose proof (head_filter_find (liveWithId id) (rows (db w))) as Hh.
          rewrite Hfind in Hh. destruct (List.filter _ _); [reflexivity | discriminate]. }
        cbn [map existsb]. rewrite andb_false_r. cbn [head ret fst snd db setDb].
        rewrite (updatedRows_untouched _ _ _ _ Hfind).
        assert ({| rows := rows (db w); lastId := lastId (db w) |} = db w) as ->
          by (destruct (db w); reflexivity).
        rewrite Hsame. repeat split; auto; intros; discriminate. }
    destruct (writesKey (updateValues f) && _).
    { rewrite Hc. cbn [throw ret fst snd message UNIQUE_FAILED].
      change (includes _ "UNIQUE constraint failed") with true. cbn [ret fst snd].
      rewrite Hsame. repeat split; auto; intros; discriminate. }
    rewrite Hc, afterUpdate_reconciled, head_map, head_filter_find, Hfind.
    cbn [option_map ret fst snd].
    set (updated := applySet (updateValues f) (now w) current).
    set (w1 := setDb _ w).
    destruct (reconciled_against env (mustSync f current updated) updated
                (resolverResponse updated 200) UPDATED_NOT_SYNCED
                "Failed to sync DNS after update" w1) as (Hdb & Hresp & Hnone).
    cbn zeta in Hdb, Hresp, Hnone.
    split; [exact Hdb|]. split; [reflexivity|]. split.
    + intros Hs. destruct Hresp as [-> | [Hf _]]; [reflexivity|].
      rewrite Hf in Hs. exfalso. apply Hs. reflexivity.
    + intros Hs. split; [reflexivity|].
      destruct Hresp as [Hf | [Hf _]]; [rewrite Hf in Hs; discriminate | exact Hf].
Qed.

End Worker.

(** ** Pages, and reading a record back *)



Section Pages.
Context `{Platform}.

Lemma listed_page (limit offset : string) (filters : URLSearchParams) (r : ResolverRow) :
  listed (page limit offset filters) r = listed filters r.
Proof. reflexivity. Qed.


End Pages.

Section Reading.
Context `{Platform}.

(** X25: a delete answered 200 returns the record as it is stored from
    then on: the live row of that id, flagged deleted, modified at the time
    of the request, with its other fields as before; with distinct ids, a get
    of that id then answers 404 by default and that record when
    includeDeleted is on. *)
Theorem delete_answers_the_deleted_record (env : Bindings) (id : Z) (w : World) :
  statusOf (fst (deleteResolverHandler env id w)) = Some 200 →
  ∃ current,
    List.find (liveWithId id) (rows (db w)) = Some current
    ∧ let deleted :=
        {| row_id := id;
           row_provider := row_provider current; row_hostname := row_hostname current;
           row_alias := row_alias current; row_ipv4 := row_ipv4 current;
           row_isDeleted := 1; row_mtime := now w; row_ctime := row_ctime current |} in
      let w' := snd (deleteResolverHandler env id w) in
      fst (deleteResolverHandler env id w)
      = inr (jsonResponse (ResolverBody (toResolverDto deleted)) 200)
      ∧ dto_isDeleted (toResolverDto deleted) = true
      ∧ In deleted (rows (db w'))
      ∧ (KeysDistinct (db w) →
         ∀ params t,
           getResolverHandler env id params (at_ t w')
           = if parseBoolean (get params "includeDeleted")
             then (inr (jsonResponse (ResolverBody (toResolverDto deleted)) 200), at_ t w')
             else (inr (jsonError "Resolver not found" 404 None), at_ t w')).
Proof.
  intros Hs. rewrite delete_run in Hs.
  destruct (List.find (liveWithId id) (rows (db w))) as [current|] eqn:Hfind;
    [|cbn in Hs; discriminate].
  clear Hs. exists current. split; [reflexivity|]. intros deleted w'. subst w'.
  rewrite delete_run, Hfind. cbn [fst snd].
  pose proof (find_some _ _ Hfind) as [Hin Hl]. apply liveWithId_true in Hl as [Hid Hlive].
  assert (applySet softDelete (now w) current = deleted) as Hdel.
  { unfold applySet, deleted. cbn. rewrite Hid. reflexivity. }
  rewrite Hdel. split; [reflexivity|]. split; [reflexivity|].
  cbn [db setDb rows]. split.
  { rewrite <- Hdel. apply In_updated_row, Hfind. }
  intros Hkeys params t. unfold getResolverHandler, bind. rewrite find_run.
  cbn [at_ db setDb rows]. unfold updatedRows.
  destruct (parseBoolean _).
  - rewrite find_map_if by (intros x; reflexivity).
    rewrite (live_is_first_with_id id _ current Hkeys Hfind). cbn [option_map].
    apply find_some in Hfind as [_ ->]. rewrite Hdel. reflexivity.
  - assert (List.find (liveWithId id)
              (map (fun r => if liveWithId id r then applySet softDelete (now w) r else r)
                 (rows (db w))) = None) as ->; [|reflexivity].
    apply find_none. intros x Hx. apply in_map_iff in Hx as (r & <- & Hr).
    destruct (liveWithId id r) eqn:Hc; [|exact Hc].
    unfold liveWithId, isLive. cbn. apply andb_false_r.
Qed.

(** X26: with distinct ids in the table, a get of [id] answers 200 with
    the record of the row that has this id, provided the row is not deleted
    or includeDeleted is on, and 404 "Resolver not found" when there is no
    such row; the world is left as it was. *)
Theorem get_finds_the_record (env : Bindings) (id : Z) (params : URLSearchParams) (w : World) :
  KeysDistinct (db w) →
  let wanted (r : ResolverRow) :=
    row_id r = id ∧ (row_isDeleted r = 0 ∨ parseBoolean (get params "includeDeleted") = true) in
  (∀ row, In row (rows (db w)) → wanted row →
     getResolverHandler env id params w
     = (inr (jsonResponse (ResolverBody (toResolverDto row)) 200), w))
  ∧ ((∀ row, In row (rows (db w)) → ¬ wanted row) →
     getResolverHandler env id params w
     = (inr (jsonError "Resolver not found" 404 None), w)).
Proof.
  intros Hkeys wanted. unfold getResolverHandler, bind. rewrite find_run.
  set (cond := if parseBoolean _ then hasId id else liveWithId id).
  assert (∀ r, cond r = true ↔ wanted r) as Hcond.
  { intros r. subst cond wanted. cbn beta. destruct (parseBoolean _).
    - unfold hasId. rewrite Z.eqb_eq. intuition.
    - rewrite liveWithId_true. intuition discriminate. }
  split.
  - intros row Hin Hw.
    destruct (List.find cond (rows (db w))) as [x|] eqn:Hfind.
    + apply find_some in Hfind as [Hx Hc]. apply Hcond in Hc.
      assert (x = row) as ->; [|reflexivity].
      destruct Hw as [Hid _], Hc as [Hxid _].
      apply list_elem_of_In, list_elem_of_lookup in Hin as [i Hi].
      apply list_elem_of_In, list_elem_of_lookup in Hx as [j Hj].
      assert (j = i) as ->.
      { eapply (keys_distinct_lookup (rows (db w))); eauto. congruence. }
      congruence.
    + exfalso. pose proof (proj1 (find_none cond (rows (db w))) Hfind row Hin) as Hn.
      apply Hcond in Hw. congruence.
  - intros Hnone. destruct (List.find cond (rows (db w))) as [x|] eqn:Hfind; [|reflexivity].
    apply find_some in Hfind as [Hx Hc]. apply Hcond in Hc. exfalso. exact (Hnone x Hx Hc).
Qed.

End Reading.


(** ** Runs on the concrete platform *)

(** The limit parameter "0.5" on the concrete platform. *)
Lemma parseLimit_of_a_fraction_is_zero_witness :
  @parseLimit Fixture.known (Some "0.5") 100 500 = 0
  ∧ ∀ env params w,
      get params "limit" = Some "0.5" →
      ∃ offset,
        @listResolversHandler Fixture.known env params w
        = (inr (jsonResponse (ListBody [] 0 offset 0) 200), w).
Proof.
  apply (@parseLimit_of_a_fraction_is_zero Fixture.known (Some "0.5") (1 # 2));
    reflexivity.
Defined.

Example seeded_rows : rows (db Fixture.seeded) = [Fixture.seededRow].
Proof. vm_compute. reflexivity. Qed.

(** The scenario of the specification: create, repeat the create, patch
    the address, delete, list. *)
Example scenario_statuses :
  let created := @createResolverHandler Fixture.known (Fixture.request Fixture.CF_A_IP) Fixture.env (Fixture.started true) in
  let again := @createResolverHandler Fixture.known (Fixture.request Fixture.CF_A_IP) Fixture.env (snd created) in
  let patched := @updateResolverHandler Fixture.known (Fixture.request Fixture.NEW_IP) Fixture.env 1 (snd again) in
  let deleted := @deleteResolverHandler Fixture.known Fixture.env 1 (snd patched) in
  let listed := @listResolversHandler Fixture.known Fixture.env [] (snd deleted) in
  (statusOf (fst created), statusOf (fst again), statusOf (fst patched),
   statusOf (fst deleted), map method (requests (snd deleted)),
   fst listed)
  = (Some 201, Some 409, Some 200, Some 200, ["GET"; "POST"; "GET"; "PUT"],
     inr (jsonResponse (ListBody [] 100 0 0) 200)).
Proof. vm_compute. reflexivity. Qed.

(** Two creates of the same pair: the first inserts, the second gets 409. *)
Lemma pair_is_unique_among_live_records_witness :
  let w1 := snd (@createResolverHandler Fixture.known (Fixture.request Fixture.CF_A) Fixture.env (Fixture.started true)) in
  statusOf (fst (@createResolverHandler Fixture.known (Fixture.request Fixture.CF_A) Fixture.env (Fixture.started true))) = Some 201
  ∧ @createResolverHandler Fixture.known (Fixture.request Fixture.CF_A_IP) Fixture.env (at_ "2026-01-02 00:00:00" w1)
    = (inr CONFLICT_ON_CREATE, at_ "2026-01-02 00:00:00" w1).
Proof.
  intros w1.
  destruct (@pair_is_unique_among_live_records Fixture.known (Fixture.request Fixture.CF_A) Fixture.env (Fixture.started true)
              (Fixture.body Fixture.CF_A) "cf" "a.example.com" eq_refl eq_refl eq_refl eq_refl)
    as (_ & _ & Hafter & _).
  split; [vm_compute; reflexivity|].
  apply (proj2 (Hafter (or_introl eq_refl)) (Fixture.request Fixture.CF_A_IP) (Fixture.body Fixture.CF_A_IP));
    reflexivity.
Defined.

(** C5, as stated, fails: after a successful delete of record 1, an update
    of record 1 with the body [{}] is answered 422, not 404. *)
Lemma update_after_delete_answers_422 :
  let w1 := snd (@createResolverHandler Fixture.known (Fixture.request Fixture.CF_A) Fixture.env (Fixture.started true)) in
  let deleted := @deleteResolverHandler Fixture.known Fixture.env 1 w1 in
  let updated := @updateResolverHandler Fixture.known {| text := "{}" |} Fixture.env 1 (snd deleted) in
  statusOf (fst deleted) = Some 200 ∧ statusOf (fst updated) ≠ Some 404.
Proof. vm_compute. split; [reflexivity | discriminate]. Qed.

(** After the delete, a second delete and a valid update are answered 404. *)
Lemma soft_delete_is_final_witness :
  let w1 := snd (@createResolverHandler Fixture.known (Fixture.request Fixture.CF_A) Fixture.env (Fixture.started true)) in
  let w2 := at_ "2026-01-02 00:00:00" (snd (@deleteResolverHandler Fixture.known Fixture.env 1 w1)) in
  @deleteResolverHandler Fixture.known Fixture.env 1 w2 = (inr NOT_FOUND, w2)
  ∧ @updateResolverHandler Fixture.known (Fixture.request Fixture.NEW_IP) Fixture.env 1 w2 = (inr NOT_FOUND, w2).
Proof.
  intros w1 w2.
  assert (FlagsAreBits (db w1)) as Hbits.
  { intros r Hin. vm_compute in Hin. destruct Hin as [<-|[]]. left; reflexivity. }
  destruct (proj1 (proj2 (proj2 (proj2 (proj2 (@soft_delete_is_final Fixture.known Fixture.env 1 w1)))))
              Hbits eq_refl [] "2026-01-02 00:00:00") as (Hdelete & Hupdate & _).
  split; [exact Hdelete|].
  destruct (Hupdate (Fixture.request Fixture.NEW_IP)) as (response & Hrun & _ & Hvalid).
  rewrite (Hvalid (Fixture.body Fixture.NEW_IP) eq_refl eq_refl) in Hrun. exact Hrun.
Defined.

(** A create with an address in front of a provider that refuses writes. *)
Lemma sync_failure_keeps_the_mutation_witness :
  let outcome := @createResolverHandler Fixture.known (Fixture.request Fixture.CF_A_IP) Fixture.env (Fixture.started false) in
  fst outcome = inr CREATED_NOT_SYNCED ∧ rows (db (snd outcome)) = [Fixture.seededRow].
Proof.
  intros outcome.
  set (inserted := @insertReturning Fixture.known
                     (insertValues (fields (validateResolverPayload (Fixture.body Fixture.CF_A_IP) createOptions)))
                     (Fixture.started false)).
  set (e := {| message := "Failed to create DNS record for a.example.com" |}).
  destruct (proj1 (@sync_failure_keeps_the_mutation Fixture.known Fixture.env (Fixture.started false))
              (Fixture.request Fixture.CF_A_IP) (Fixture.body Fixture.CF_A_IP) [Fixture.seededRow] Fixture.seededRow (snd inserted) e
              eq_refl eq_refl eq_refl eq_refl eq_refl) as (Hanswer & _ & Hrows).
  split; [exact Hanswer | exact Hrows].
Defined.

(** A patch of the address calls the reconcile with the new address. *)
Lemma update_syncs_iff_address_changed_witness :
  let outcome := @updateResolverHandler Fixture.known (Fixture.request Fixture.NEW_IP) Fixture.env 1 Fixture.seeded in
  syncs (snd outcome) = (syncs Fixture.seeded ++ [("a.example.com", "1.2.3.5")])%list.
Proof.
  intros outcome.
  destruct (@update_syncs_iff_address_changed Fixture.known (Fixture.request Fixture.NEW_IP) Fixture.env 1 Fixture.seeded
              (Fixture.body Fixture.NEW_IP) Fixture.seededRow eq_refl eq_refl eq_refl (or_introl eq_refl))
    as (Hchanged & _ & _).
  destruct Hchanged as (ip & Hip & Hsyncs).
  - exists "1.2.3.5". split; [reflexivity|]. split; discriminate.
  - injection Hip as <-. exact Hsyncs.
Defined.

(** A patch of the address leaves the other fields of the record alone. *)
Lemma mutations_keep_the_rest_witness :
  let w1 := snd (@updateResolverHandler Fixture.known (Fixture.request Fixture.NEW_IP) Fixture.env 1 Fixture.seeded) in
  ∃ r', rows (db w1) !! 0%nat = Some r'
        ∧ row_id r' = 1 ∧ row_ctime r' = "2026-01-01 00:00:00" ∧ row_isDeleted r' = 0
        ∧ row_provider r' = "cf" ∧ row_hostname r' = "a.example.com" ∧ row_alias r' = "".
Proof.
  intros w1.
  destruct (proj2 (proj1 (@mutations_keep_the_rest Fixture.known Fixture.env Fixture.seeded)
                     (Fixture.request Fixture.NEW_IP) 1 (Fixture.body Fixture.NEW_IP) eq_refl) 0%nat Fixture.seededRow eq_refl)
    as (r' & Hr' & Hid & Hc & Hdel & Hp & Hh & Ha & _).
  exists r'. split; [exact Hr'|].
  rewrite Hid, Hc, Hdel, (Hp eq_refl), (Hh eq_refl), (Ha eq_refl). repeat split; reflexivity.
Defined.

(** A patch whose ipv4 is the number 5 clears the stored address. *)
Lemma non_string_optional_fields_are_unset_witness :
  let outcome :=
    @updateResolverHandler Fixture.known {| text := "{" +:+ Fixture.quoted "ipv4" +:+ ":5}" |} Fixture.env 1 Fixture.seeded in
  statusOf (fst outcome) = Some 200
  ∧ ∃ row, In row (rows (db (snd outcome))) ∧ row_id row = 1 ∧ row_ipv4 row = "".
Proof.
  intros outcome.
  assert (∀ s, JsNumber 5 ≠ JsString s) as Hraw by discriminate.
  destruct (proj2 (proj2 (proj2 (proj2
              (@non_string_optional_fields_are_unset Fixture.known Fixture.IP_NUMBER updateOptions
                 (JsNumber 5) Hraw))))
              {| text := "{" +:+ Fixture.quoted "ipv4" +:+ ":5}" |} Fixture.env 1 Fixture.seeded Fixture.seededRow
              eq_refl eq_refl eq_refl) as (Hanswer & Hip & Hin & _).
  split.
  - unfold outcome. rewrite Hanswer. reflexivity.
  - eexists. split; [exact Hin|]. split; [reflexivity | exact Hip].
Defined.

(** A create whose body carries an id answers as the create without it. *)
Lemma unknown_keys_are_ignored_witness :
  let w := Fixture.world Fixture.labelled Fixture.emptyDb (Fixture.emptyZone true) in
  @createResolverHandler Fixture.labelled (Fixture.request Fixture.CF_A_ID) Fixture.env w
  = @createResolverHandler Fixture.labelled (Fixture.request Fixture.CF_A) Fixture.env w.
Proof.
  intros w.
  refine (proj1 (proj2 (proj2
            (@unknown_keys_are_ignored Fixture.labelled
               (Fixture.request Fixture.CF_A) (Fixture.request Fixture.CF_A_ID)
               Fixture.env 1 w (Fixture.body Fixture.CF_A) "id" (JsString "7")
               _ _ _ _ eq_refl _)))); try discriminate.
  vm_compute. reflexivity.
Defined.


(** The registry with one record has distinct ids. *)
Lemma seeded_keys_distinct : KeysDistinct (db Fixture.seeded).
Proof.
  unfold KeysDistinct. rewrite seeded_rows. cbn. apply NoDup_singleton.
Defined.

(** A get of the record that was created. *)
Lemma get_finds_the_record_witness :
  @getResolverHandler Fixture.known Fixture.env 1 [] Fixture.seeded
  = (inr (jsonResponse (ResolverBody (toResolverDto Fixture.seededRow)) 200), Fixture.seeded).
Proof.
  apply (proj1 (@get_finds_the_record Fixture.known Fixture.env 1 [] Fixture.seeded
                  seeded_keys_distinct) Fixture.seededRow).
  - rewrite seeded_rows. left. reflexivity.
  - split; [reflexivity | left; reflexivity].
Defined.

(** A create, a patch and a delete on the empty registry. *)
Lemma stored_records_stay_well_formed_witness :
  forallb wellFormed
    (rows (db (@serve Fixture.known Fixture.env
                 [("2026-01-01 00:00:00", PostResolver (Fixture.request Fixture.CF_A_IP));
                  ("2026-01-02 00:00:00", PatchResolver (Some "1") (Fixture.request Fixture.NEW_IP));
                  ("2026-01-03 00:00:00", DeleteResolver (Some "1"))]
                 (Fixture.started true)))) = true.
Proof.
  apply (@stored_records_stay_well_formed Fixture.known). reflexivity.
Defined.

(** A reconcile in front of an empty zone: the lookup, then a POST. *)
Lemma sync_sends_lookup_then_write_witness :
  map method (requests (snd (@syncDnsRecord Fixture.known Fixture.env "a.example.com" "1.2.3.4"
                               (Fixture.started true))))
  = ["GET"; "POST"].
Proof.
  pose proof (@sync_sends_lookup_then_write Fixture.known Fixture.env "a.example.com" "1.2.3.4"
                "token" "zone" (Fixture.started true) eq_refl eq_refl) as Hs.
  cbn zeta in Hs.
  set (found := fst (@fetchDnsRecord Fixture.known _ _ _ _)) in Hs.
  vm_compute in found. subst found. cbn iota in Hs.
  change (@upToDate None "1.2.3.4") with false in Hs. cbn iota in Hs.
  destruct Hs as (wr & o & Hreq & Hm & _). rewrite Hreq.
  change (requests (Fixture.started true)) with (@nil FetchRequest).
  cbn [app map]. rewrite Hm. reflexivity.
Defined.

(** A reconcile in front of a provider that refuses the write. *)
Lemma sync_fails_as_the_provider_does_witness :
  fst (@syncDnsRecord Fixture.known Fixture.env "a.example.com" "1.2.3.4" (Fixture.started false))
  = inl {| message := "Failed to create DNS record for a.example.com" |}.
Proof.
  destruct (@sync_fails_as_the_provider_does Fixture.known Fixture.env "a.example.com" "1.2.3.4"
              "token" "zone" (Fixture.started false) eq_refl eq_refl) as (_ & _ & Hwrite).
  set (looked := @fetchDnsRecord Fixture.known (baseUrlOf "zone") (headersOf "token")
                   "a.example.com" (Fixture.started false)).
  destruct (Hwrite None (snd looked) eq_refl eq_refl) as [_ Hresponse].
  specialize (Hresponse {| ok := false; json := Fixture.answer false None |}
                (Fixture.emptyZone false) eq_refl).
  cbn iota in Hresponse. change (refused _) with true in Hresponse. cbn iota in Hresponse.
  destruct Hresponse as (e & -> & He). f_equal.
  specialize (He "" eq_refl). destruct e as [m]. cbn in He. rewrite He. reflexivity.
Defined.

(** A create with an address and no secret configured. *)
Lemma without_credentials_nothing_is_sent_witness :
  let outcome :=
    @createApp Fixture.known Fixture.noSecrets (PostResolver (Fixture.request Fixture.CF_A_IP))
      (Fixture.started true) in
  status (fst outcome) ≠ 502 ∧ requests (snd outcome) = [].
Proof.
  intros outcome.
  destruct (proj1 (@without_credentials_nothing_is_sent Fixture.known Fixture.noSecrets eq_refl)
              (PostResolver (Fixture.request Fixture.CF_A_IP)) (Fixture.started true))
    as (Hs & Hr & _).
  split; [exact Hs | exact Hr].
Defined.

(** The create of the scenario answers with the record it stored. *)
Lemma created_record_is_what_was_sent_witness :
  fst (@createResolverHandler Fixture.known (Fixture.request Fixture.CF_A_IP) Fixture.env
         (Fixture.started true))
  = inr (jsonResponse (ResolverBody (toResolverDto Fixture.seededRow)) 201).
Proof.
  destruct (@created_record_is_what_was_sent Fixture.known (Fixture.request Fixture.CF_A_IP)
              Fixture.env (Fixture.started true) (Fixture.body Fixture.CF_A_IP)
              eq_refl eq_refl) as (p & h & Hp & Hh & Hanswer & _).
  injection Hp as <-. injection Hh as <-. exact Hanswer.
Defined.

(** The patch of the address answers with the patched record. *)
Lemma update_answers_what_is_stored_witness :
  ∃ updated,
    fst (@updateResolverHandler Fixture.known (Fixture.request Fixture.NEW_IP) Fixture.env 1
           Fixture.seeded)
    = inr (jsonResponse (ResolverBody (toResolverDto updated)) 200)
    ∧ row_ipv4 updated = "1.2.3.5" ∧ row_hostname updated = "a.example.com".
Proof.
  destruct (@update_answers_what_is_stored Fixture.known (Fixture.request Fixture.NEW_IP)
              Fixture.env 1 Fixture.seeded (Fixture.body Fixture.NEW_IP) eq_refl eq_refl)
    as (current & Hcurrent & Hanswer & _).
  injection Hcurrent as <-. eexists. split; [exact Hanswer|]. split; reflexivity.
Defined.

(** The delete answers with the record flagged deleted. *)
Lemma delete_answers_the_deleted_record_witness :
  ∃ deleted,
    fst (@deleteResolverHandler Fixture.known Fixture.env 1 Fixture.seeded)
    = inr (jsonResponse (ResolverBody (toResolverDto deleted)) 200)
    ∧ row_isDeleted deleted = 1 ∧ row_ipv4 deleted = "1.2.3.4".
Proof.
  destruct (@delete_answers_the_deleted_record Fixture.known Fixture.env 1 Fixture.seeded eq_refl)
    as (current & Hcurrent & Hanswer & _).
  injection Hcurrent as <-. eexists. split; [exact Hanswer|]. split; reflexivity.
Defined.
